(** * The xv6 buffer cache of kernel/bio.c, with hashed buckets and
      per-CPU free lists.

    The development embeds [binit], [hash], [bget], [bread], [bwrite],
    [brelse], [bpin] and [bunpin] as functions on an explicit kernel state:
    the [bcache] structure (its spin-locks and its three arrays of
    [struct buf], linked through [prev]/[next] pointers) and the disk.
    Lists are kept the way the C code keeps them, as intrusive circular
    doubly linked lists through pointers; the list of buffers hanging from
    a sentinel is then read off the pointers and the properties of the
    cache are proved about what is read. *)

From Stdlib Require Import String.
From Stdlib Require Import ZArith List Lia Bool Arith Permutation.
Import ListNotations.
Local Open Scope Z_scope.

(** ** Constants, pointers and the buffer structure *)

(** [#define HASHSIZE 13] *)
Definition HASHSIZE : nat := 13.

(** A [struct buf *]: null, [&bcache.buf[i]], [&bcache.heads[h]] or
    [&bcache.freelist[c]]. *)
Inductive ptr : Type :=
| PNull
| PBuf (i : nat)
| PHead (h : nat)
| PFree (c : nat).

(** The spin-locks of [bcache]: [headlk[h]] and [freelk[c]]. *)
Inductive spinlock : Type :=
| HeadLk (h : nat)
| FreeLk (c : nat).

Definition ptr_eq_dec (p q : ptr) : {p = q} + {p <> q}.
Proof. decide equality; apply Nat.eq_dec. Defined.

Definition ptr_eqb (p q : ptr) : bool :=
  if ptr_eq_dec p q then true else false.

Definition spinlock_eq_dec (l m : spinlock) : {l = m} + {l <> m}.
Proof. decide equality; apply Nat.eq_dec. Defined.

Definition spinlock_eqb (l m : spinlock) : bool :=
  if spinlock_eq_dec l m then true else false.

(** The content of one disk block ([uchar data[BSIZE]]). *)
Definition block : Type := list Z.

(** Modelled from the spec: [struct buf] is declared in buf.h, which is not
    part of the sources at hand.  The fields are the ones bio.c touches:
    [valid] (int), [dev], [blockno], [refcnt] and [timestamp] (unsigned
    32-bit), the sleep-lock [lock] (here: the pid of its holder, if any),
    the links [prev] and [next], and the payload [data]. *)
Record buf : Type := mkBuf {
  valid : Z;
  dev : Z;
  blockno : Z;
  lock : option nat;
  refcnt : Z;
  prev : ptr;
  next : ptr;
  data : block;
  timestamp : Z
}.

Definition set_valid (v : Z) (b : buf) : buf :=
  mkBuf v (dev b) (blockno b) (lock b) (refcnt b) (prev b) (next b) (data b) (timestamp b).
Definition set_dev (v : Z) (b : buf) : buf :=
  mkBuf (valid b) v (blockno b) (lock b) (refcnt b) (prev b) (next b) (data b) (timestamp b).
Definition set_blockno (v : Z) (b : buf) : buf :=
  mkBuf (valid b) (dev b) v (lock b) (refcnt b) (prev b) (next b) (data b) (timestamp b).
Definition set_lock (v : option nat) (b : buf) : buf :=
  mkBuf (valid b) (dev b) (blockno b) v (refcnt b) (prev b) (next b) (data b) (timestamp b).
Definition set_refcnt (v : Z) (b : buf) : buf :=
  mkBuf (valid b) (dev b) (blockno b) (lock b) v (prev b) (next b) (data b) (timestamp b).
Definition set_prev (v : ptr) (b : buf) : buf :=
  mkBuf (valid b) (dev b) (blockno b) (lock b) (refcnt b) v (next b) (data b) (timestamp b).
Definition set_next (v : ptr) (b : buf) : buf :=
  mkBuf (valid b) (dev b) (blockno b) (lock b) (refcnt b) (prev b) v (data b) (timestamp b).
Definition set_data (v : block) (b : buf) : buf :=
  mkBuf (valid b) (dev b) (blockno b) (lock b) (refcnt b) (prev b) (next b) v (timestamp b).
Definition set_timestamp (v : Z) (b : buf) : buf :=
  mkBuf (valid b) (dev b) (blockno b) (lock b) (refcnt b) (prev b) (next b) (data b) v.

(** Unsigned 32-bit wrap-around ([uint]). *)
Definition wrap32 (z : Z) : Z := z mod 2 ^ 32.

(** ** The kernel state *)

(** [locked] holds the flag of every spin-lock of [bcache]; [mem] holds
    every [struct buf] of [bcache] (the slots [buf[i]] and the sentinels
    [heads[h]] and [freelist[c]]), addressed by pointer; [disk] is the
    content of the device, per device and block number. *)
Record state : Type := mkState {
  locked : spinlock -> bool;
  mem : ptr -> buf;
  disk : Z -> Z -> block
}.

Definition nxt (s : state) (p : ptr) : ptr := next (mem s p).
Definition prv (s : state) (p : ptr) : ptr := prev (mem s p).

(** [upd p f s]: the structure at [p] becomes [f] of itself. *)
Definition upd (p : ptr) (f : buf -> buf) (s : state) : state :=
  mkState (locked s)
          (fun q => if ptr_eqb q p then f (mem s q) else mem s q)
          (disk s).

Definition set_locked (l : spinlock) (v : bool) (s : state) : state :=
  mkState (fun m => if spinlock_eqb m l then v else locked s m) (mem s) (disk s).

Definition set_disk (d b : Z) (v : block) (s : state) : state :=
  mkState (locked s) (mem s)
          (fun d' b' => if (d' =? d) && (b' =? b) then v else disk s d' b').

(** Static storage before [binit]: everything is zero. *)
Definition bss : state :=
  mkState (fun _ => false)
          (fun _ => mkBuf 0 0 0 None 0 PNull PNull [] 0)
          (fun _ _ => []).

(** ** Outcomes of a kernel routine

    A routine returns ([Done]), goes to sleep on the sleep-lock of a buffer
    ([Sleeps], the state being the one it leaves behind), spins for ever on
    a spin-lock that is never released ([Spins]), walks a list that never
    comes back to its sentinel ([Loops]) or stops the kernel ([Panic]). *)
Inductive outcome (A : Type) : Type :=
| Done (a : A) (s : state)
| Sleeps (chan : ptr) (s : state)
| Spins (l : spinlock)
| Loops
| Panic (msg : String.string).

Arguments Done {A} a s.
Arguments Sleeps {A} chan s.
Arguments Spins {A} l.
Arguments Loops {A}.
Arguments Panic {A} msg.

Definition M (A : Type) : Type := state -> outcome A.

Definition ret {A : Type} (a : A) : M A := fun s => Done a s.

Definition bind {A B : Type} (m : M A) (k : A -> M B) : M B :=
  fun s =>
    match m s with
    | Done a s' => k a s'
    | Sleeps c s' => Sleeps c s'
    | Spins l => Spins l
    | Loops => Loops
    | Panic msg => Panic msg
    end.

Notation "x <- m ;; k" := (bind m (fun x => k))
  (at level 61, m at next level, right associativity).
Notation "m ;; k" := (bind m (fun _ => k))
  (at level 61, right associativity).

Definition gets {A : Type} (f : state -> A) : M A := fun s => Done (f s) s.
Definition modify (f : state -> state) : M unit := fun s => Done tt (f s).
Definition panic {A : Type} (msg : String.string) : M A := fun _ => Panic msg.

(** ** The collaborators of bio.c *)

(** Modelled from the spec: spinlock.c is not part of the sources at hand.
    [acquire] takes a free spin-lock and never returns on a held one. *)
Definition acquire (l : spinlock) : M unit :=
  fun s => if locked s l then Spins l else Done tt (set_locked l true s).

(** Modelled from the spec: [release] frees the spin-lock. *)
Definition release (l : spinlock) : M unit := modify (set_locked l false).

(** Modelled from the spec: [initlock] leaves the spin-lock free. *)
Definition initlock (l : spinlock) : state -> state := set_locked l false.

(** Modelled from the spec: sleeplock.c is not part of the sources at hand.
    [acquiresleep] takes the sleep-lock of [b] for the process [pid] when
    it is free, and puts the process to sleep when it is held. *)
Definition acquiresleep (pid : nat) (b : ptr) : M unit :=
  fun s =>
    match lock (mem s b) with
    | None => Done tt (upd b (set_lock (Some pid)) s)
    | Some _ => Sleeps b s
    end.

(** Modelled from the spec: [releasesleep] frees the sleep-lock. *)
Definition releasesleep (b : ptr) : M unit := modify (upd b (set_lock None)).

(** Modelled from the spec: [initsleeplock] leaves the sleep-lock free. *)
Definition initsleeplock (b : ptr) : state -> state := upd b (set_lock None).

(** Modelled from the spec: [holdingsleep] tells whether the sleep-lock is
    held by the calling process. *)
Definition holdingsleep (pid : nat) (b : ptr) (s : state) : bool :=
  match lock (mem s b) with
  | Some p => Nat.eqb p pid
  | None => false
  end.

(** Modelled from the spec: the disk driver is not part of the sources at
    hand.  [virtio_disk_rw b 0] copies the block ([dev], [blockno]) of the
    device into the payload of [b]; [virtio_disk_rw b 1] copies the payload
    to the device. *)
Definition virtio_disk_rw (b : ptr) (write : bool) : M unit :=
  modify (fun s =>
    if write
    then set_disk (dev (mem s b)) (blockno (mem s b)) (data (mem s b)) s
    else upd b (set_data (disk s (dev (mem s b)) (blockno (mem s b)))) s).

(** [push_off] and [pop_off] switch interrupts off and on again, so that
    [cpuid()] stays the same in between; the identifier of the CPU is an
    argument of the routines here. *)
Definition push_off : M unit := ret tt.
Definition pop_off : M unit := ret tt.

(** ** bio.c *)

(** [int hash(uint dev, uint blockno)
     { return (1234 * dev + 5678 * blockno + 90) % HASHSIZE; }] *)
Definition hash (dev blockno : Z) : Z :=
  wrap32 (1234 * dev + 5678 * blockno + 90) mod Z.of_nat HASHSIZE.

(** The bucket of a block. *)
Definition bucket (dev blockno : Z) : nat := Z.to_nat (hash dev blockno).

(** [b->next = h.next; b->prev = &h; h.next->prev = b; h.next = b;] *)
Definition link_head (b h : ptr) (s : state) : state :=
  let s := upd b (set_next (nxt s h)) s in
  let s := upd b (set_prev h) s in
  let s := upd (nxt s h) (set_prev b) s in
  upd h (set_next b) s.

(** [b->prev->next = b->next; b->next->prev = b->prev;] (as in [bget]) *)
Definition unlink_bget (b : ptr) (s : state) : state :=
  let s := upd (prv s b) (set_next (nxt s b)) s in
  upd (nxt s b) (set_prev (prv s b)) s.

(** [b->next->prev = b->prev; b->prev->next = b->next;] (as in [brelse]) *)
Definition unlink_brelse (b : ptr) (s : state) : state :=
  let s := upd (nxt s b) (set_prev (prv s b)) s in
  upd (prv s b) (set_next (nxt s b)) s.

Section Bio.

(** [NBUF] and [NCPU] come from param.h, which is not part of the sources
    at hand: they are parameters of the development. *)
Variable NBUF : nat.
Variable NCPU : nat.

(** The body of the first loop of [binit], for the bucket [i]. *)
Definition binit_head (s : state) (i : nat) : state :=
  let s := initlock (HeadLk i) s in
  let s := upd (PHead i) (set_prev (PHead i)) s in
  upd (PHead i) (set_next (PHead i)) s.

(** The body of the second loop of [binit], for the free list [i]. *)
Definition binit_freelist (s : state) (i : nat) : state :=
  let s := initlock (FreeLk i) s in
  let s := upd (PFree i) (set_prev (PFree i)) s in
  upd (PFree i) (set_next (PFree i)) s.

(** The first two loops of [binit]: every sentinel becomes an empty
    circular list and every spin-lock is initialised. *)
Definition binit_heads (s : state) : state :=
  fold_left binit_head (seq 0 HASHSIZE) s.

Definition binit_freelists (s : state) : state :=
  fold_left binit_freelist (seq 0 NCPU) s.

(** The body of the third loop of [binit], for [b = &bcache.buf[i]]. *)
Definition binit_buf (ticks : Z) (s : state) (i : nat) : state :=
  let b := PBuf i in
  let s := upd b (set_next (nxt s (PFree 0))) s in
  let s := upd b (set_prev (PFree 0)) s in
  let s := initsleeplock b s in
  let s := upd (nxt s (PFree 0)) (set_prev b) s in
  let s := upd (PFree 0) (set_next b) s in
  upd b (set_timestamp ticks) s.

(** [void binit(void)]; [ticks] is the value of the clock. *)
Definition binit (ticks : Z) (s : state) : state :=
  fold_left (binit_buf ticks) (seq 0 NBUF) (binit_freelists (binit_heads s)).

(** The number of [struct buf] in [bcache]: a walk along [next] that has
    not come back to its sentinel after that many steps never will. *)
Definition NNODES : nat := (NBUF + HASHSIZE + NCPU)%nat.

(** [for(b = bcache.heads[id].next; b != &bcache.heads[id]; b = b->next)
      if(b->dev == dev && b->blockno == blockno) ...]:
    [Some (Some b)] when the walk finds [b], [Some None] when it comes back
    to the sentinel, [None] when it does neither. *)
Fixpoint scan (fuel : nat) (m : ptr -> buf) (stop b : ptr) (d bn : Z)
  : option (option ptr) :=
  match fuel with
  | O => None
  | S k =>
      if ptr_eqb b stop then Some None
      else if (dev (m b) =? d) && (blockno (m b) =? bn)
           then Some (Some b)
           else scan k m stop (next (m b)) d bn
  end.

(** The body of the two recycling loops of [bget], which is the same in
    both but for the free list [l] it holds the lock of: it runs at most
    once, for the last buffer [b] of the free list, and returns. *)
Definition bget_recycle (pid id : nat) (d bn : Z) (l : spinlock) (b : ptr)
  : M ptr :=
  r <- gets (fun s => refcnt (mem s b)) ;;
  if negb (r =? 0) then panic "bget: freelist is not free!"%string else
  modify (unlink_bget b) ;;
  modify (link_head b (PHead id)) ;;
  modify (upd b (set_dev d)) ;;
  modify (upd b (set_blockno bn)) ;;
  modify (upd b (set_valid 0)) ;;
  modify (upd b (set_refcnt 1)) ;;
  release (HeadLk id) ;;
  release l ;;
  acquiresleep pid b ;;
  pop_off ;;
  ret b.

(** [for(int nc = 0; nc < NCPU; ++nc) if(nc != cpu) { ... }], then
    [pop_off(); panic("bget: no buffers");] *)
Fixpoint bget_steal (ncs : list nat) (cpu pid id : nat) (d bn : Z) : M ptr :=
  match ncs with
  | [] => pop_off ;; panic "bget: no buffers"%string
  | nc :: rest =>
      if Nat.eqb nc cpu then bget_steal rest cpu pid id d bn else
      acquire (FreeLk nc) ;;
      b <- gets (fun s => prv s (PFree nc)) ;;
      if negb (ptr_eqb b (PFree nc))
      then bget_recycle pid id d bn (FreeLk nc) b
      else release (FreeLk nc) ;;
           bget_steal rest cpu pid id d bn
  end.

(** [static struct buf* bget(uint dev, uint blockno)], run by the process
    [pid] on the CPU [cpu] when the clock shows [ticks]. *)
Definition bget (ticks : Z) (cpu pid : nat) (d bn : Z) : M ptr :=
  let id := bucket d bn in
  acquire (HeadLk id) ;;
  found <- gets (fun s => scan (S NNODES) (mem s) (PHead id) (nxt s (PHead id)) d bn) ;;
  match found with
  | None => fun _ => Loops
  | Some (Some b) =>
      modify (fun s => upd b (set_refcnt (wrap32 (refcnt (mem s b) + 1))) s) ;;
      modify (upd b (set_timestamp ticks)) ;;
      release (HeadLk id) ;;
      acquiresleep pid b ;;
      ret b
  | Some None =>
      push_off ;;
      acquire (FreeLk cpu) ;;
      b <- gets (fun s => prv s (PFree cpu)) ;;
      if negb (ptr_eqb b (PFree cpu))
      then bget_recycle pid id d bn (FreeLk cpu) b
      else release (FreeLk cpu) ;;
           bget_steal (seq 0 NCPU) cpu pid id d bn
  end.

(** What [bread] does once [bget] has returned [b]:
    [if(!b->valid) { virtio_disk_rw(b, 0); b->valid = 1; } return b;] *)
Definition bread_tail (b : ptr) : M ptr :=
  v <- gets (fun s => valid (mem s b)) ;;
  (if v =? 0
   then virtio_disk_rw b false ;; modify (upd b (set_valid 1))
   else ret tt) ;;
  ret b.

(** [struct buf* bread(uint dev, uint blockno)] *)
Definition bread (ticks : Z) (cpu pid : nat) (d bn : Z) : M ptr :=
  b <- bget ticks cpu pid d bn ;;
  bread_tail b.

(** What is left of [bread] for a process that went to sleep in the
    [acquiresleep] of [bget] and is woken up: it takes the sleep-lock,
    returns from [bget] and goes on in [bread]. *)
Definition bread_resume (pid : nat) (b : ptr) : M ptr :=
  acquiresleep pid b ;;
  bread_tail b.

(** [void bwrite(struct buf *b)] *)
Definition bwrite (pid : nat) (b : ptr) : M unit :=
  h <- gets (holdingsleep pid b) ;;
  if negb h then panic "bwrite"%string else
  virtio_disk_rw b true.

(** [void brelse(struct buf *b)] *)
Definition brelse (cpu pid : nat) (b : ptr) : M unit :=
  h <- gets (holdingsleep pid b) ;;
  if negb h then panic "brelse"%string else
  releasesleep b ;;
  id <- gets (fun s => bucket (dev (mem s b)) (blockno (mem s b))) ;;
  acquire (HeadLk id) ;;
  modify (fun s => upd b (set_refcnt (wrap32 (refcnt (mem s b) - 1))) s) ;;
  r <- gets (fun s => refcnt (mem s b)) ;;
  (if r =? 0
   then push_off ;;
        acquire (FreeLk cpu) ;;
        modify (unlink_brelse b) ;;
        modify (link_head b (PFree cpu)) ;;
        release (FreeLk cpu) ;;
        pop_off
   else ret tt) ;;
  release (HeadLk id).

(** [void bpin(struct buf *b)] *)
Definition bpin (b : ptr) : M unit :=
  id <- gets (fun s => bucket (dev (mem s b)) (blockno (mem s b))) ;;
  acquire (HeadLk id) ;;
  modify (fun s => upd b (set_refcnt (wrap32 (refcnt (mem s b) + 1))) s) ;;
  release (HeadLk id).

(** [void bunpin(struct buf *b)] *)
Definition bunpin (b : ptr) : M unit :=
  id <- gets (fun s => bucket (dev (mem s b)) (blockno (mem s b))) ;;
  acquire (HeadLk id) ;;
  modify (fun s => upd b (set_refcnt (wrap32 (refcnt (mem s b) - 1))) s) ;;
  release (HeadLk id).

(** ** Reading the lists off the pointers *)

(** The sentinels: [heads[0..HASHSIZE-1]] and [freelist[0..NCPU-1]]. *)
Definition sentinels : list ptr :=
  map PHead (seq 0 HASHSIZE) ++ map PFree (seq 0 NCPU).

(** The slots: [buf[0..NBUF-1]]. *)
Definition slots : list ptr := map PBuf (seq 0 NBUF).

(** [walk fuel nx p stop]: the nodes met from [p] along [nx] before
    [stop]. *)
Fixpoint walk (fuel : nat) (nx : ptr -> ptr) (p stop : ptr) : list ptr :=
  match fuel with
  | O => []
  | S k => if ptr_eqb p stop then [] else p :: walk k nx (nx p) stop
  end.

(** The list that hangs from the sentinel [h], from [h.next] (the most
    recent end) to [h.prev]. *)
Definition list_of (s : state) (h : ptr) : list ptr :=
  walk NBUF (nxt s) (nxt s h) h.

(** [linked nx pv x l]: from [x], the nodes of [l] follow one another
    along [nx], and [pv] leads back. *)
Fixpoint linked (nx pv : ptr -> ptr) (x : ptr) (l : list ptr) : Prop :=
  match l with
  | [] => True
  | b :: l' => nx x = b /\ pv b = x /\ linked nx pv b l'
  end.

(** [cyc s h l]: [h] and the nodes of [l] form a circular doubly linked
    list. *)
Definition cyc (s : state) (h : ptr) (l : list ptr) : Prop :=
  linked (nxt s) (prv s) h (l ++ [h]).

(** A layout gives every sentinel its list: the lists hold slots only,
    none twice, and no slot is in two of them. *)
Definition lay_ok (L : ptr -> list ptr) : Prop :=
  (forall h, In h sentinels -> NoDup (L h)) /\
  (forall h x, In h sentinels -> In x (L h) -> In x slots) /\
  (forall h h' x, In h sentinels -> In h' sentinels ->
                  In x (L h) -> In x (L h') -> h = h').

(** The pointers of [s] draw the layout [L]. *)
Definition rep (s : state) (L : ptr -> list ptr) : Prop :=
  lay_ok L /\ forall h, In h sentinels -> cyc s h (L h).

(** Every slot is in some list. *)
Definition covers (L : ptr -> list ptr) : Prop :=
  forall b, In b slots -> exists h, In h sentinels /\ In b (L h).

(** The lists of [s] are well formed. *)
Definition wf (s : state) : Prop :=
  rep s (list_of s) /\ covers (list_of s).

(** Every buffer of a bucket carries an identity that hashes to it. *)
Definition hashed (s : state) : Prop :=
  forall h b, (h < HASHSIZE)%nat -> In b (list_of s (PHead h)) ->
              bucket (dev (mem s b)) (blockno (mem s b)) = h.

(** No spin-lock is held. *)
Definition quiescent (s : state) : Prop := forall l, locked s l = false.

Definition inv (s : state) : Prop := wf s /\ hashed s /\ quiescent s.

(** The block ([d], [bn]) is cached by the slot [b]: [b] is the first
    buffer of its bucket with that identity. *)
Definition cached (s : state) (d bn : Z) (b : ptr) : Prop :=
  exists l1 l2,
    list_of s (PHead (bucket d bn)) = l1 ++ b :: l2 /\
    dev (mem s b) = d /\ blockno (mem s b) = bn /\
    forall x, In x l1 -> dev (mem s x) <> d \/ blockno (mem s x) <> bn.

(** The block ([d], [bn]) is not cached. *)
Definition uncached (s : state) (d bn : Z) : Prop :=
  forall x, In x (list_of s (PHead (bucket d bn))) ->
            dev (mem s x) <> d \/ blockno (mem s x) <> bn.

(** What a layout becomes when [b] moves to the head of the list of [t]. *)
Definition move_to (b t : ptr) (L : ptr -> list ptr) : ptr -> list ptr :=
  fun h => if ptr_eqb h t then b :: remove ptr_eq_dec b (L h)
           else remove ptr_eq_dec b (L h).

(** The free lists in the order in which [bget] looks for a buffer to
    recycle: the one of its own CPU, then the others by increasing
    number. *)
Definition pool_order (cpu : nat) : list nat :=
  cpu :: filter (fun nc => negb (Nat.eqb nc cpu)) (seq 0 NCPU).

(** The last buffer of the first free list, among those of [cs], that is
    not empty. *)
Fixpoint victim (s : state) (cs : list nat) : option ptr :=
  match cs with
  | [] => None
  | c :: r =>
      match rev (list_of s (PFree c)) with
      | a :: _ => Some a
      | [] => victim s r
      end
  end.

(** The state in which [bget] leaves the spin-locked part of a hit on
    [b]. *)
Definition hit_st (ticks : Z) (b : ptr) (s : state) : state :=
  upd b (set_timestamp ticks)
      (upd b (set_refcnt (wrap32 (refcnt (mem s b) + 1))) s).

(** The state in which [bget] leaves the spin-locked part of the
    recycling of [b] for the block ([d], [bn]) of the bucket [id]. *)
Definition recycle_st (b : ptr) (id : nat) (d bn : Z) (s : state) : state :=
  upd b (set_refcnt 1)
   (upd b (set_valid 0)
     (upd b (set_blockno bn)
       (upd b (set_dev d)
         (link_head b (PHead id) (unlink_bget b s))))).

(** What [acquiresleep] makes of the return of [b]. *)
Definition grab (pid : nat) (b : ptr) (s : state) : outcome ptr :=
  match lock (mem s b) with
  | None => Done b (upd b (set_lock (Some pid)) s)
  | Some _ => Sleeps b s
  end.

(** The state in which [brelse] leaves [b]. *)
Definition brelse_st (cpu : nat) (b : ptr) (s : state) : state :=
  let s := upd b (set_lock None) s in
  let s := upd b (set_refcnt (wrap32 (refcnt (mem s b) - 1))) s in
  if refcnt (mem s b) =? 0
  then link_head b (PFree cpu) (unlink_brelse b s)
  else s.

(** The state in which [bread] leaves the buffer [b] that [bget] returned. *)
Definition read_st (b : ptr) (s : state) : state :=
  if valid (mem s b) =? 0
  then upd b (set_valid 1)
           (upd b (set_data (disk s (dev (mem s b)) (blockno (mem s b)))) s)
  else s.

(** The fields of a buffer that are not links. *)
Definition meta (x : buf) : Z * Z * Z * option nat * Z * block * Z :=
  (valid x, dev x, blockno x, lock x, refcnt x, data x, timestamp x).

(** What [bread] makes of the buffer [b] that the spin-locked part of
    [bget] hands over in the state [s]: with the sleep-lock free, [b] is
    locked, read if need be and returned; otherwise the process sleeps. *)
Definition finish (pid : nat) (b : ptr) (s : state) : outcome ptr :=
  match lock (mem s b) with
  | None => Done b (read_st b (upd b (set_lock (Some pid)) s))
  | Some _ => Sleeps b s
  end.

(** The state that an outcome leaves behind ([s0] when there is none) and
    whether the routine returned. *)
Definition state_of {A : Type} (o : outcome A) (s0 : state) : state :=
  match o with
  | Done _ s => s
  | Sleeps _ s => s
  | _ => s0
  end.

Definition is_done {A : Type} (o : outcome A) : bool :=
  match o with
  | Done _ _ => true
  | _ => false
  end.

(** The buffer that a routine returned ([p0] when it did not return). *)
Definition val_of (o : outcome ptr) (p0 : ptr) : ptr :=
  match o with
  | Done b _ => b
  | _ => p0
  end.

(** The state after boot, and the state that a routine leaves when it is
    run in [s]. *)
Definition boot (ticks : Z) : state := binit ticks bss.

Definition after_bread (ticks : Z) (cpu pid : nat) (d bn : Z) (s : state) : state :=
  state_of (bread ticks cpu pid d bn s) s.

Definition after_bget (ticks : Z) (cpu pid : nat) (d bn : Z) (s : state) : state :=
  state_of (bget ticks cpu pid d bn s) s.

Definition after_brelse (cpu pid i : nat) (s : state) : state :=
  state_of (brelse cpu pid (PBuf i) s) s.

Definition after_bpin (i : nat) (s : state) : state :=
  state_of (bpin (PBuf i) s) s.

(** Sample runs.  [st_A]: after boot, the process 0 fetches the block
    (1, 0) on the CPU 0.  [st_AB]: the process 1 then fetches the block
    (1, 13), of the same bucket.  [st_pinned]: after boot, the slot 0 is
    pinned while it is in the free list.  [st_held]: the process 0 fetches
    (1, 0), pins the buffer and releases it.  [st_kept]: the process 1
    then fetches (1, 13). *)
Definition st_A : state := after_bread 1 0 0 1 0 (boot 0).
Definition st_AB : state := after_bread 2 0 1 1 13 st_A.
Definition st_pinned : state := after_bpin 0 (boot 0).
Definition st_held : state := after_brelse 0 0 0 (after_bpin 0 st_A).
Definition st_kept : state := after_bread 2 0 1 1 13 st_held.

(** The fields of the buffers that only the users of a buffer and the
    recycling of [bget] write: [s'] has them as [s] has. *)
Definition same_payload (s s' : state) : Prop :=
  forall q, valid (mem s' q) = valid (mem s q) /\
            dev (mem s' q) = dev (mem s q) /\
            blockno (mem s' q) = blockno (mem s q) /\
            refcnt (mem s' q) = refcnt (mem s q) /\
            data (mem s' q) = data (mem s q).

(** The identity of a buffer: the device and the number of the block that
    it holds. *)
Definition ident (s : state) (b : ptr) : Z * Z :=
  (dev (mem s b), blockno (mem s b)).

(** No two buffers of a bucket hold the same block. *)
Definition unique (s : state) : Prop :=
  forall h, (h < HASHSIZE)%nat -> NoDup (map (ident s) (list_of s (PHead h))).


(** ** Processes on top of the cache

    [NPROC] comes from param.h as well; a process is known by its number,
    below [NPROC].  A world is a kernel state together with the processes
    that sleep in the [acquiresleep] of [bget], each with the buffer whose
    sleep-lock it waits for, and with the pins that have been taken by
    [bpin] and not yet given back by [bunpin].  The pins are book-keeping
    only: no routine of bio.c reads them.  [NPIN] bounds the pins that the
    users of the cache keep at any one time (in xv6 the log pins the
    blocks of the running transactions, which its header bounds). *)
Variable NPROC : nat.
Variable NPIN : nat.

Record world : Type := mkWorld {
  kst : state;
  sleepers : list (nat * ptr);
  pins : list ptr
}.

Inductive op : Type :=
| OpBinit (ticks : Z)
| OpBread (ticks : Z) (cpu pid : nat) (d bn : Z)
| OpWakeup (pid : nat) (b : ptr)
| OpBwrite (pid : nat) (i : nat)
| OpBrelse (cpu pid : nat) (i : nat)
| OpBpin (i : nat)
| OpBunpin (i : nat).

Definition awake (pid : nat) (w : world) : Prop :=
  ~ In pid (map fst (sleepers w)).

Definition pair_eq_dec (x y : nat * ptr) : {x = y} + {x <> y}.
Proof. decide equality; [apply ptr_eq_dec | apply Nat.eq_dec]. Defined.

(** Gives back one pin of [b], the latest, when there is one. *)
Fixpoint unpin_one (b : ptr) (l : list ptr) : list ptr :=
  match l with
  | [] => []
  | x :: l' => if ptr_eqb x b then l' else x :: unpin_one b l'
  end.

(** One step of the system: a routine of bio.c runs from a state in which
    no spin-lock is held to its return, or to the point where its process
    falls asleep; a sleeping process wakes up when the sleep-lock it waits
    for is free.  A routine that panics stops the kernel: there is no step
    after it. *)
Inductive step : world -> op -> world -> Prop :=
| step_binit w ticks :
    step w (OpBinit ticks) (mkWorld (binit ticks (kst w)) (sleepers w) (pins w))
| step_bread_done w ticks cpu pid d bn b s' :
    (cpu < NCPU)%nat -> (pid < NPROC)%nat -> awake pid w ->
    bread ticks cpu pid d bn (kst w) = Done b s' ->
    step w (OpBread ticks cpu pid d bn) (mkWorld s' (sleepers w) (pins w))
| step_bread_sleep w ticks cpu pid d bn b s' :
    (cpu < NCPU)%nat -> (pid < NPROC)%nat -> awake pid w ->
    bread ticks cpu pid d bn (kst w) = Sleeps b s' ->
    step w (OpBread ticks cpu pid d bn)
         (mkWorld s' ((pid, b) :: sleepers w) (pins w))
| step_wakeup w pid b b' s' :
    In (pid, b) (sleepers w) ->
    bread_resume pid b (kst w) = Done b' s' ->
    step w (OpWakeup pid b)
         (mkWorld s' (remove pair_eq_dec (pid, b) (sleepers w)) (pins w))
| step_bwrite w pid i s' :
    (i < NBUF)%nat -> awake pid w ->
    bwrite pid (PBuf i) (kst w) = Done tt s' ->
    step w (OpBwrite pid i) (mkWorld s' (sleepers w) (pins w))
| step_brelse w cpu pid i s' :
    (cpu < NCPU)%nat -> (i < NBUF)%nat -> awake pid w ->
    brelse cpu pid (PBuf i) (kst w) = Done tt s' ->
    step w (OpBrelse cpu pid i) (mkWorld s' (sleepers w) (pins w))
| step_bpin w i s' :
    (i < NBUF)%nat ->
    bpin (PBuf i) (kst w) = Done tt s' ->
    step w (OpBpin i) (mkWorld s' (sleepers w) (PBuf i :: pins w))
| step_bunpin w i s' :
    (i < NBUF)%nat ->
    bunpin (PBuf i) (kst w) = Done tt s' ->
    step w (OpBunpin i) (mkWorld s' (sleepers w) (unpin_one (PBuf i) (pins w))).

(** The worlds reached from boot ([binit] on zeroed storage) by steps whose
    operations are all [allowed] in the world they start from. *)
Inductive reach (allowed : world -> op -> Prop) : world -> Prop :=
| reach_boot ticks : reach allowed (mkWorld (binit ticks bss) [] [])
| reach_step w o w' :
    reach allowed w -> allowed w o -> step w o w' -> reach allowed w'.

(** Every operation, on any slot, in any order. *)
Definition any_op (w : world) (o : op) : Prop := True.

(** The operations of a run that initialises once and then uses the cache
    as its callers in xv6 do: any fetch, commit and release that does not
    panic; a pin only of a buffer that its caller has a reference to (the
    reference count is not zero) and while fewer than [NPIN] pins are out;
    an unpin only of a buffer that has a pin. *)
Definition proper_use (w : world) (o : op) : Prop :=
  match o with
  | OpBinit _ => False
  | OpBpin i =>
      refcnt (mem (kst w) (PBuf i)) <> 0 /\ (List.length (pins w) < NPIN)%nat
  | OpBunpin i => In (PBuf i) (pins w)
  | _ => True
  end.

(** The number of processes that sleep on the sleep-lock of [b]. *)
Definition waiting (b : ptr) (sl : list (nat * ptr)) : nat :=
  List.length (filter (fun x => ptr_eqb (snd x) b) sl).

(** The number of pins of [b]. *)
Definition pinned (b : ptr) (l : list ptr) : nat := count_occ ptr_eq_dec l b.

(** One when the sleep-lock of the buffer is held, zero otherwise. *)
Definition lockbit (x : buf) : Z :=
  match lock x with Some _ => 1 | None => 0 end.

(** No process sleeps twice, the sleepers are processes and sleep on
    slots, at most [NPIN] pins are out, and the reference count of every
    slot is the number of processes that hold or wait for its sleep-lock
    plus the number of its pins. *)
Definition refs_ok (w : world) : Prop :=
  NoDup (map fst (sleepers w)) /\
  (forall pid b, In (pid, b) (sleepers w) -> (pid < NPROC)%nat /\ In b slots) /\
  (List.length (pins w) <= NPIN)%nat /\
  (forall b, In b slots ->
     refcnt (mem (kst w) b) =
     Z.of_nat (waiting b (sleepers w)) + lockbit (mem (kst w) b) +
     Z.of_nat (pinned b (pins w))).

(** The slots of the free lists are not referenced. *)
Definition pools_free (s : state) : Prop :=
  forall c b, (c < NCPU)%nat -> In b (list_of s (PFree c)) ->
              refcnt (mem s b) = 0.

(** ** Lemmas on pointers *)

Lemma ptr_eqb_refl (p : ptr) : ptr_eqb p p = true.
Proof. unfold ptr_eqb. destruct (ptr_eq_dec p p); congruence. Qed.

Lemma ptr_eqb_neq (p q : ptr) : p <> q -> ptr_eqb p q = false.
Proof. unfold ptr_eqb. destruct (ptr_eq_dec p q); congruence. Qed.

Lemma ptr_eqb_true (p q : ptr) : ptr_eqb p q = true -> p = q.
Proof. unfold ptr_eqb. destruct (ptr_eq_dec p q); congruence. Qed.

Lemma spinlock_eqb_refl (l : spinlock) : spinlock_eqb l l = true.
Proof. unfold spinlock_eqb. destruct (spinlock_eq_dec l l); congruence. Qed.

Ltac ptr_cases :=
  repeat match goal with
         | |- context [ptr_eqb ?a ?b] =>
             let E := fresh "E" in
             destruct (ptr_eqb a b) eqn:E;
             [apply ptr_eqb_true in E; subst | ]
         end.

Lemma unlink_bget_nxt (b : ptr) (s : state) (q : ptr) :
  nxt (unlink_bget b s) q = if ptr_eqb q (prv s b) then nxt s b else nxt s q.
Proof.
  unfold unlink_bget, nxt, prv, upd; simpl.
  destruct (ptr_eqb q (prev (mem s b))) eqn:E1;
    destruct (ptr_eqb b (prev (mem s b))) eqn:E2; simpl;
    repeat match goal with |- context [if ?c then _ else _] => destruct c end;
    simpl; reflexivity.
Qed.

Lemma unlink_bget_prv (b : ptr) (s : state) (q : ptr) :
  prv (unlink_bget b s) q = if ptr_eqb q (nxt s b) then prv s b else prv s q.
Proof.
  unfold unlink_bget, nxt, prv, upd; simpl.
  destruct (ptr_eqb b (prev (mem s b))) eqn:E2; simpl;
    destruct (ptr_eqb q (next (mem s b))) eqn:E1; simpl;
    repeat match goal with |- context [if ?c then _ else _] => destruct c end;
    simpl; reflexivity.
Qed.

Lemma unlink_brelse_nxt (b : ptr) (s : state) (q : ptr) :
  nxt (unlink_brelse b s) q = if ptr_eqb q (prv s b) then nxt s b else nxt s q.
Proof.
  unfold unlink_brelse, nxt, prv, upd; simpl.
  destruct (ptr_eqb b (next (mem s b))) eqn:E2; simpl;
    destruct (ptr_eqb q (prev (mem s b))) eqn:E1; simpl;
    repeat match goal with |- context [if ?c then _ else _] => destruct c end;
    simpl; reflexivity.
Qed.

Lemma unlink_brelse_prv (b : ptr) (s : state) (q : ptr) :
  prv (unlink_brelse b s) q = if ptr_eqb q (nxt s b) then prv s b else prv s q.
Proof.
  unfold unlink_brelse, nxt, prv, upd; simpl.
  destruct (ptr_eqb q (next (mem s b))) eqn:E1;
    destruct (ptr_eqb b (next (mem s b))) eqn:E2; simpl;
    repeat match goal with |- context [if ?c then _ else _] => destruct c end;
    simpl; reflexivity.
Qed.

Lemma link_head_nxt (b h : ptr) (s : state) (q : ptr) :
  nxt (link_head b h s) q =
  if ptr_eqb q h then b else if ptr_eqb q b then nxt s h else nxt s q.
Proof.
  unfold link_head, nxt, prv, upd; simpl.
  destruct (ptr_eqb q h) eqn:E1; simpl; [reflexivity|].
  destruct (ptr_eqb h b) eqn:E2; simpl;
    repeat match goal with |- context [if ?c then _ else _] => destruct c end;
    simpl; reflexivity.
Qed.

Lemma link_head_prv (b h : ptr) (s : state) (q : ptr) :
  prv (link_head b h s) q =
  if ptr_eqb q (nxt s h) then b else if ptr_eqb q b then h else prv s q.
Proof.
  unfold link_head, nxt, prv, upd; simpl.
  destruct (ptr_eqb h b) eqn:E2; simpl;
    destruct (ptr_eqb q h) eqn:E1; simpl;
    destruct (ptr_eqb q (next (mem s h))) eqn:E3; simpl;
    destruct (ptr_eqb q b) eqn:E4; simpl; reflexivity.
Qed.

(** ** Lemmas on linked sequences *)

Lemma linked_frame (nx pv nx' pv' : ptr -> ptr) (l : list ptr) :
  forall x,
    (forall a, In a (removelast (x :: l)) -> nx' a = nx a) ->
    (forall c, In c l -> pv' c = pv c) ->
    linked nx pv x l -> linked nx' pv' x l.
Proof.
  induction l as [|b l IH]; intros x Hn Hp H; simpl in *; [exact I|].
  destruct H as (H1 & H2 & H3).
  assert (Hx : In x (removelast (x :: b :: l))).
  { simpl. left. reflexivity. }
  repeat split.
  - rewrite (Hn x Hx). exact H1.
  - rewrite (Hp b (or_introl eq_refl)). exact H2.
  - apply IH; [ | | exact H3].
    + intros a Ha. apply Hn. simpl. right. exact Ha.
    + intros c Hc. apply Hp. right. exact Hc.
Qed.

Lemma linked_pv_in (nx pv : ptr -> ptr) (b : ptr) (r : list ptr) :
  forall l1 x, linked nx pv x (l1 ++ b :: r) -> In (pv b) (x :: l1).
Proof.
  induction l1 as [|a l1 IH]; intros x H; simpl in *.
  - destruct H as (_ & H & _). left. symmetry. exact H.
  - destruct H as (_ & _ & H). right. apply IH in H. exact H.
Qed.

Lemma linked_tail (nx pv : ptr -> ptr) (b : ptr) (r : list ptr) :
  forall l1 x, linked nx pv x (l1 ++ b :: r) -> linked nx pv b r.
Proof.
  induction l1 as [|a l1 IH]; intros x H; simpl in H.
  - tauto.
  - destruct H as (_ & _ & H). eapply IH. exact H.
Qed.

Lemma linked_nx_hd (nx pv : ptr -> ptr) (b h : ptr) (l2 : list ptr) :
  linked nx pv b (l2 ++ [h]) -> nx b = hd h (l2 ++ [h]).
Proof.
  destruct l2; simpl; intros (H & _); exact H.
Qed.

Lemma removelast_snoc (l : list ptr) (h : ptr) :
  forall x, removelast (x :: l ++ [h]) = x :: l.
Proof.
  induction l as [|a l IH]; intros x; [reflexivity|].
  change (x :: removelast (a :: l ++ [h]) = x :: a :: l).
  rewrite IH. reflexivity.
Qed.

(** Taking [b] out of a circular list. *)
Lemma linked_unlink (nx pv : ptr -> ptr) (h b : ptr) (l2 : list ptr) :
  forall l1 x,
    NoDup (x :: l1 ++ b :: l2) ->
    ~ In h (l1 ++ b :: l2) ->
    linked nx pv x (l1 ++ b :: l2 ++ [h]) ->
    linked (fun q => if ptr_eqb q (pv b) then nx b else nx q)
           (fun q => if ptr_eqb q (nx b) then pv b else pv q)
           x (l1 ++ l2 ++ [h]).
Proof.
  induction l1 as [|a l1 IH]; intros x Hnd Hh H.
  - simpl in *. destruct H as (H1 & H2 & H3).
    apply NoDup_cons_iff in Hnd; destruct Hnd as [Hx Hnd'].
    apply NoDup_cons_iff in Hnd'; destruct Hnd' as [Hb Hnd''].
    destruct l2 as [|n l2]; simpl in *.
    + destruct H3 as (H3 & H4 & _). rewrite H2, H3.
      rewrite !ptr_eqb_refl. auto.
    + destruct H3 as (H3 & H4 & H5). rewrite H2, H3.
      rewrite !ptr_eqb_refl. repeat split.
      eapply linked_frame; [ | | exact H5].
      * intros c Hc. rewrite removelast_snoc in Hc.
        rewrite ptr_eqb_neq; [reflexivity|].
        intros ->. apply Hx. right. exact Hc.
      * intros c Hc. rewrite ptr_eqb_neq; [reflexivity|].
        intros ->. apply NoDup_cons_iff in Hnd''; destruct Hnd'' as [Hn _].
        apply in_app_or in Hc. destruct Hc as [Hc|[Hc|[]]]; [tauto|].
        subst. apply Hh. right. left. reflexivity.
  - simpl in H. destruct H as (H1 & H2 & H3).
    assert (Hp : In (pv b) (a :: l1)) by (eapply linked_pv_in; exact H3).
    assert (Hn : In (nx b) (l2 ++ [h])).
    { assert (H4 : linked nx pv b (l2 ++ [h])).
      { eapply linked_tail. exact H3. }
      rewrite (linked_nx_hd _ _ _ _ _ H4).
      destruct l2; simpl; auto. }
    apply NoDup_cons_iff in Hnd; destruct Hnd as [Hx Hnd'].
    simpl. repeat split.
    + rewrite ptr_eqb_neq; [exact H1|].
      intros ->. apply Hx. simpl in Hp. simpl.
      destruct Hp as [Hp|Hp]; [left; exact Hp|].
      right. apply in_or_app. left. exact Hp.
    + rewrite ptr_eqb_neq; [exact H2|].
      intros ->. apply in_app_or in Hn. destruct Hn as [Hn|[Hn|[]]].
      * simpl in Hnd'. apply NoDup_cons_iff in Hnd'; destruct Hnd' as [Ha _].
        apply Ha. apply in_or_app. right. right. exact Hn.
      * subst. apply Hh. left. reflexivity.
    + apply IH; [exact Hnd' | | exact H3].
      intros Hc. apply Hh. right. exact Hc.
Qed.

(** Putting [b] at the head of a circular list. *)
Lemma linked_link (nx pv : ptr -> ptr) (t b : ptr) (l : list ptr) :
  ~ In b (t :: l) -> NoDup l -> ~ In t l ->
  linked nx pv t (l ++ [t]) ->
  linked (fun q => if ptr_eqb q t then b else if ptr_eqb q b then nx t else nx q)
         (fun q => if ptr_eqb q (nx t) then b else if ptr_eqb q b then t else pv q)
         t (b :: l ++ [t]).
Proof.
  intros Hb Hnd Ht H.
  assert (Hbt : b <> t) by (intros ->; apply Hb; left; reflexivity).
  destruct l as [|f l]; simpl in *.
  - destruct H as (H1 & H2 & _). rewrite H1.
    rewrite !ptr_eqb_refl. rewrite (ptr_eqb_neq b t Hbt).
    repeat split.
  - destruct H as (H1 & H2 & H3). rewrite H1.
    rewrite !ptr_eqb_refl. rewrite (ptr_eqb_neq b t Hbt).
    assert (Hbf : b <> f) by (intros ->; apply Hb; auto).
    rewrite (ptr_eqb_neq b f Hbf).
    repeat split.
    eapply linked_frame; [ | | exact H3].
    + intros c Hc. rewrite removelast_snoc in Hc.
      assert (c <> t) by (intros ->; apply Ht; exact Hc).
      assert (c <> b) by (intros ->; apply Hb; right; exact Hc).
      rewrite !ptr_eqb_neq by assumption. reflexivity.
    + intros c Hc. apply NoDup_cons_iff in Hnd; destruct Hnd as [Hf _].
      assert (c <> f).
      { intros ->. apply in_app_or in Hc. destruct Hc as [Hc|[Hc|[]]].
        - apply Hf. exact Hc.
        - apply Ht. left. symmetry. exact Hc. }
      assert (c <> b).
      { intros ->. apply in_app_or in Hc. destruct Hc as [Hc|[Hc|[]]].
        - apply Hb. right. right. exact Hc.
        - apply Hb. left. exact Hc. }
      rewrite !ptr_eqb_neq by assumption. reflexivity.
Qed.

Lemma cyc_frame (s s' : state) (h : ptr) (l : list ptr) :
  (forall a, In a (h :: l) -> nxt s' a = nxt s a /\ prv s' a = prv s a) ->
  cyc s h l -> cyc s' h l.
Proof.
  unfold cyc. intros Hf. apply linked_frame.
  - intros a Ha. rewrite removelast_snoc in Ha. apply Hf. exact Ha.
  - intros c Hc. apply Hf. apply in_app_or in Hc.
    destruct Hc as [Hc|[Hc|[]]]; [right; exact Hc | left; exact Hc].
Qed.

Lemma walk_linked (nx pv : ptr -> ptr) (h : ptr) (l : list ptr) :
  forall x fuel,
    linked nx pv x (l ++ [h]) -> ~ In h l -> (List.length l <= fuel)%nat ->
    walk fuel nx (nx x) h = l.
Proof.
  induction l as [|b l IH]; intros x fuel H Hh Hlen; simpl in *.
  - destruct H as (H & _). rewrite H. destruct fuel; simpl; [reflexivity|].
    rewrite ptr_eqb_refl. reflexivity.
  - destruct H as (H1 & H2 & H3). rewrite H1.
    destruct fuel as [|k]; [lia|]. simpl.
    rewrite ptr_eqb_neq by (intros ->; tauto).
    f_equal. apply IH; [exact H3 | tauto | lia].
Qed.

(** ** Lemmas on layouts *)

Lemma NoDup_map_inj {A B : Type} (f : A -> B) (l : list A) :
  (forall x y, f x = f y -> x = y) -> NoDup l -> NoDup (map f l).
Proof.
  intros Hinj. induction l as [|a l IH]; intros H; simpl; [constructor|].
  apply NoDup_cons_iff in H. destruct H as [Ha H].
  constructor; [|apply IH; exact H].
  rewrite in_map_iff. intros (x & Hx & Hin). apply Hinj in Hx. subst. tauto.
Qed.

Lemma in_slots (x : ptr) : In x slots <-> exists i, (i < NBUF)%nat /\ x = PBuf i.
Proof.
  unfold slots. rewrite in_map_iff. split.
  - intros (i & <- & Hi). apply in_seq in Hi. exists i. split; [lia|reflexivity].
  - intros (i & Hi & ->). exists i. split; [reflexivity|]. apply in_seq. lia.
Qed.

Lemma in_sentinels (x : ptr) :
  In x sentinels <->
  (exists h, (h < HASHSIZE)%nat /\ x = PHead h) \/
  (exists c, (c < NCPU)%nat /\ x = PFree c).
Proof.
  unfold sentinels. rewrite in_app_iff, !in_map_iff. split.
  - intros [(h & <- & Hh)|(c & <- & Hc)].
    + left. exists h. apply in_seq in Hh. split; [lia|reflexivity].
    + right. exists c. apply in_seq in Hc. split; [lia|reflexivity].
  - intros [(h & Hh & ->)|(c & Hc & ->)].
    + left. exists h. split; [reflexivity|]. apply in_seq. lia.
    + right. exists c. split; [reflexivity|]. apply in_seq. lia.
Qed.

Lemma head_sentinel (h : nat) : (h < HASHSIZE)%nat -> In (PHead h) sentinels.
Proof. intros H. apply in_sentinels. left. exists h. auto. Qed.

Lemma free_sentinel (c : nat) : (c < NCPU)%nat -> In (PFree c) sentinels.
Proof. intros H. apply in_sentinels. right. exists c. auto. Qed.

Lemma slot_not_sentinel (x : ptr) : In x slots -> ~ In x sentinels.
Proof.
  intros H1 H2. apply in_slots in H1. destruct H1 as (i & _ & ->).
  apply in_sentinels in H2.
  destruct H2 as [(h & _ & H)|(c & _ & H)]; discriminate.
Qed.

Lemma NoDup_slots : NoDup slots.
Proof.
  unfold slots. apply NoDup_map_inj; [|apply seq_NoDup].
  intros i j H. congruence.
Qed.

Lemma length_slots : List.length slots = NBUF.
Proof. unfold slots. rewrite length_map, length_seq. reflexivity. Qed.

Lemma NoDup_sentinels : NoDup sentinels.
Proof.
  unfold sentinels.
  assert (H1 : NoDup (map PHead (seq 0 HASHSIZE))).
  { apply NoDup_map_inj; [|apply seq_NoDup]. intros i j H. congruence. }
  assert (H2 : NoDup (map PFree (seq 0 NCPU))).
  { apply NoDup_map_inj; [|apply seq_NoDup]. intros i j H. congruence. }
  revert H1. generalize (seq 0 HASHSIZE). intros l. induction l as [|a l IH]; intros H1.
  - exact H2.
  - simpl in *. apply NoDup_cons_iff in H1. destruct H1 as [Ha H1].
    constructor; [|apply IH; exact H1].
    rewrite in_app_iff, !in_map_iff. intros [(x & Hx & Hin)|(x & Hx & _)].
    + apply Ha. apply in_map_iff. exists x. auto.
    + discriminate.
Qed.

Lemma NoDup_remove_eq (b : ptr) (l : list ptr) :
  NoDup l -> NoDup (remove ptr_eq_dec b l).
Proof.
  induction l as [|a l IH]; intros H; simpl; [constructor|].
  apply NoDup_cons_iff in H. destruct H as [Ha H].
  destruct (ptr_eq_dec b a); [apply IH; exact H|].
  constructor; [|apply IH; exact H].
  intros Hin. apply in_remove in Hin. tauto.
Qed.

Lemma remove_split (b : ptr) (l1 l2 : list ptr) :
  NoDup (l1 ++ b :: l2) -> remove ptr_eq_dec b (l1 ++ b :: l2) = l1 ++ l2.
Proof.
  intros H. apply NoDup_remove_2 in H.
  rewrite remove_app, remove_cons.
  rewrite !notin_remove; [reflexivity | | ];
    intros Hin; apply H; apply in_or_app; auto.
Qed.

Lemma rep_length (s : state) (L : ptr -> list ptr) (h : ptr) :
  rep s L -> In h sentinels -> (List.length (L h) <= NBUF)%nat.
Proof.
  intros ((Hnd & Hsl & _) & _) Hh.
  rewrite <- length_slots. apply NoDup_incl_length; [apply Hnd; exact Hh|].
  intros x Hx. eapply Hsl; eassumption.
Qed.

Lemma rep_list_of (s : state) (L : ptr -> list ptr) (h : ptr) :
  rep s L -> In h sentinels -> list_of s h = L h.
Proof.
  intros Hrep Hh. unfold list_of.
  apply walk_linked with (pv := prv s).
  - apply Hrep. exact Hh.
  - intros Hin. destruct Hrep as ((_ & Hsl & _) & _).
    apply (slot_not_sentinel h); [eapply Hsl; eassumption | exact Hh].
  - eapply rep_length; eassumption.
Qed.

Lemma rep_ext (s : state) (L L' : ptr -> list ptr) :
  rep s L -> (forall h, In h sentinels -> L' h = L h) -> rep s L'.
Proof.
  intros ((H1 & H2 & H3) & H4) He. repeat split.
  - intros h Hh. rewrite He by exact Hh. apply H1. exact Hh.
  - intros h x Hh Hx. rewrite He in Hx by exact Hh. eapply H2; eassumption.
  - intros h h' x Hh Hh' Hx Hx'. rewrite He in Hx by exact Hh.
    rewrite He in Hx' by exact Hh'. eapply H3; eassumption.
  - intros h Hh. rewrite He by exact Hh. apply H4. exact Hh.
Qed.

Lemma covers_ext (L L' : ptr -> list ptr) :
  covers L -> (forall h, In h sentinels -> L' h = L h) -> covers L'.
Proof.
  intros Hc He b Hb. destruct (Hc b Hb) as (h & Hh & Hin).
  exists h. split; [exact Hh|]. rewrite He by exact Hh. exact Hin.
Qed.

Lemma wf_intro (s : state) (L : ptr -> list ptr) :
  rep s L -> covers L -> wf s.
Proof.
  intros Hr Hc.
  assert (He : forall h, In h sentinels -> list_of s h = L h).
  { intros h Hh. apply rep_list_of; assumption. }
  split; [eapply rep_ext | eapply covers_ext]; eassumption.
Qed.

(** A state keeps its lists when its pointers stay the same. *)
Lemma list_of_ext (s s' : state) (h : ptr) :
  (forall q, nxt s' q = nxt s q) -> list_of s' h = list_of s h.
Proof.
  intros He. unfold list_of. rewrite He.
  generalize (nxt s h). generalize NBUF as fuel.
  induction fuel as [|k IH]; intros p; simpl; [reflexivity|].
  destruct (ptr_eqb p h); [reflexivity|]. rewrite He, IH. reflexivity.
Qed.

Lemma rep_same_links (s s' : state) (L : ptr -> list ptr) :
  (forall q, nxt s' q = nxt s q) -> (forall q, prv s' q = prv s q) ->
  rep s L -> rep s' L.
Proof.
  intros Hn Hp (H1 & H2). split; [exact H1|].
  intros h Hh. eapply cyc_frame; [|apply H2; exact Hh].
  intros a _. auto.
Qed.

Lemma wf_same_links (s s' : state) :
  (forall q, nxt s' q = nxt s q) -> (forall q, prv s' q = prv s q) ->
  wf s -> wf s'.
Proof.
  intros Hn Hp (H1 & H2).
  eapply wf_intro; [eapply rep_same_links; eassumption | exact H2].
Qed.

Lemma footprint_disjoint (L : ptr -> list ptr) (h h' a : ptr) :
  lay_ok L -> In h sentinels -> In h' sentinels ->
  In a (h :: L h) -> In a (h' :: L h') -> h = h'.
Proof.
  intros (_ & Hsl & Hdj) Hh Hh' [Ha|Ha] [Ha'|Ha'].
  - congruence.
  - subst a. exfalso. apply (slot_not_sentinel h); [apply (Hsl h'); assumption|exact Hh].
  - subst a. exfalso. apply (slot_not_sentinel h'); [apply (Hsl h); assumption|exact Hh'].
  - eapply Hdj; eassumption.
Qed.

Lemma sentinel_not_in (L : ptr -> list ptr) (h h' : ptr) :
  lay_ok L -> In h sentinels -> In h' sentinels -> ~ In h (L h').
Proof.
  intros (_ & Hsl & _) Hh Hh' Hin.
  apply (slot_not_sentinel h); [apply (Hsl h'); assumption|exact Hh].
Qed.

(** Unlinking a slot removes it from the list it is in. *)
Lemma rep_unlink (s s' : state) (L : ptr -> list ptr) (b h0 : ptr) :
  rep s L -> In h0 sentinels -> In b (L h0) ->
  (forall q, nxt s' q = if ptr_eqb q (prv s b) then nxt s b else nxt s q) ->
  (forall q, prv s' q = if ptr_eqb q (nxt s b) then prv s b else prv s q) ->
  rep s' (fun h => remove ptr_eq_dec b (L h)).
Proof.
  intros (Hlay & Hcyc) Hh0 Hb Hn Hp.
  pose proof Hlay as (Hnd & Hsl & Hdj).
  split.
  - repeat split.
    + intros h Hh. apply NoDup_remove_eq. apply Hnd. exact Hh.
    + intros h x Hh Hx. apply in_remove in Hx. apply (Hsl h); [exact Hh|apply Hx].
    + intros h h' x Hh Hh' Hx Hx'. apply in_remove in Hx, Hx'.
      apply (Hdj h h' x); [exact Hh|exact Hh'|apply Hx|apply Hx'].
  - destruct (in_split _ _ Hb) as (l1 & l2 & HL).
    assert (Hnd0 : NoDup (h0 :: l1 ++ b :: l2)).
    { constructor; rewrite <- HL; [|apply Hnd; exact Hh0].
      apply sentinel_not_in; assumption. }
    assert (Hc0 : linked (nxt s) (prv s) h0 (l1 ++ b :: l2 ++ [h0])).
    { specialize (Hcyc h0 Hh0). unfold cyc in Hcyc. rewrite HL in Hcyc.
      rewrite <- app_assoc in Hcyc. exact Hcyc. }
    assert (HP : In (prv s b) (h0 :: L h0)).
    { rewrite HL. apply linked_pv_in in Hc0. simpl in *.
      destruct Hc0 as [H|H]; [left; exact H|right; apply in_or_app; left; exact H]. }
    assert (HN : In (nxt s b) (h0 :: L h0)).
    { rewrite HL. apply linked_tail in Hc0. apply linked_nx_hd in Hc0.
      rewrite Hc0. destruct l2 as [|n l2]; simpl; [left; reflexivity|].
      right. apply in_or_app. right. right. left. reflexivity. }
    intros h Hh. destruct (ptr_eq_dec h h0) as [->|Hne].
    + rewrite HL, remove_split by (apply NoDup_cons_iff in Hnd0; tauto).
      unfold cyc. rewrite <- app_assoc.
      eapply linked_frame; [ | | apply linked_unlink; [exact Hnd0 | | exact Hc0]].
      * intros a _. apply Hn.
      * intros c _. apply Hp.
      * rewrite <- HL. apply sentinel_not_in; assumption.
    + assert (Hnb : ~ In b (L h)).
      { intros Hin. apply Hne. eapply Hdj; eassumption. }
      rewrite notin_remove by exact Hnb.
      eapply cyc_frame; [|apply Hcyc; exact Hh].
      intros a Ha. rewrite Hn, Hp.
      rewrite !ptr_eqb_neq; [auto | | ]; intros ->; apply Hne;
        eapply footprint_disjoint; eassumption.
Qed.

(** Linking a slot that is in no list puts it at the head. *)
Lemma rep_link (s s' : state) (L : ptr -> list ptr) (b t : ptr) :
  rep s L -> In b slots -> (forall h, In h sentinels -> ~ In b (L h)) ->
  In t sentinels ->
  (forall q, nxt s' q =
             if ptr_eqb q t then b else if ptr_eqb q b then nxt s t else nxt s q) ->
  (forall q, prv s' q =
             if ptr_eqb q (nxt s t) then b else if ptr_eqb q b then t else prv s q) ->
  rep s' (fun h => if ptr_eqb h t then b :: L h else L h).
Proof.
  intros (Hlay & Hcyc) Hb Hnb Ht Hn Hp.
  pose proof Hlay as (Hnd & Hsl & Hdj).
  assert (Hbs : ~ In b sentinels) by (apply slot_not_sentinel; exact Hb).
  split.
  - repeat split.
    + intros h Hh. ptr_cases; [|apply Hnd; exact Hh].
      constructor; [apply Hnb; exact Hh|apply Hnd; exact Hh].
    + intros h x Hh Hx. destruct (ptr_eqb h t); [|apply (Hsl h); assumption].
      destruct Hx as [<-|Hx]; [exact Hb|apply (Hsl h); assumption].
    + intros h h' x Hh Hh' Hx Hx'.
      destruct (ptr_eqb h t) eqn:E1; destruct (ptr_eqb h' t) eqn:E2.
      * apply ptr_eqb_true in E1, E2. congruence.
      * destruct Hx as [<-|Hx]; [exfalso; apply (Hnb h'); assumption|].
        apply (Hdj h h' x); assumption.
      * destruct Hx' as [<-|Hx']; [exfalso; apply (Hnb h); assumption|].
        apply (Hdj h h' x); assumption.
      * apply (Hdj h h' x); assumption.
  - assert (HF : In (nxt s t) (t :: L t)).
    { specialize (Hcyc t Ht). unfold cyc in Hcyc. apply linked_nx_hd in Hcyc.
      rewrite Hcyc. destruct (L t); simpl; auto. }
    intros h Hh. destruct (ptr_eq_dec h t) as [->|Hne].
    + rewrite ptr_eqb_refl. unfold cyc.
      eapply linked_frame;
        [ | | apply (linked_link (nxt s) (prv s) t b (L t))].
      * intros a _. apply Hn.
      * intros c _. apply Hp.
      * intros [<-|Hin]; [apply Hbs; exact Ht|]. eapply Hnb; eassumption.
      * apply Hnd. exact Ht.
      * apply sentinel_not_in; assumption.
      * apply Hcyc. exact Ht.
    + rewrite ptr_eqb_neq by exact Hne.
      eapply cyc_frame; [|apply Hcyc; exact Hh].
      intros a Ha. rewrite Hn, Hp.
      assert (a <> t).
      { intros ->. apply Hne. eapply footprint_disjoint; try eassumption.
        left. reflexivity. }
      assert (a <> b).
      { intros ->. destruct Ha as [Ha|Ha]; [subst; tauto|].
        eapply Hnb; eassumption. }
      assert (a <> nxt s t).
      { intros ->. apply Hne. eapply footprint_disjoint; eassumption. }
      rewrite !ptr_eqb_neq by assumption. auto.
Qed.

Lemma covers_move (L : ptr -> list ptr) (b t : ptr) :
  covers L -> In t sentinels -> covers (move_to b t L).
Proof.
  intros Hc Ht x Hx. unfold move_to.
  destruct (ptr_eq_dec x b) as [->|Hne].
  - exists t. split; [exact Ht|]. rewrite ptr_eqb_refl. left. reflexivity.
  - destruct (Hc x Hx) as (h & Hh & Hin). exists h. split; [exact Hh|].
    assert (In x (remove ptr_eq_dec b (L h))) by (apply in_in_remove; assumption).
    destruct (ptr_eqb h t); [right|]; assumption.
Qed.

(** Unlinking a slot and linking it at the head of [t] moves it there. *)
Lemma rep_move (s s1 s2 : state) (L : ptr -> list ptr) (b h0 t : ptr) :
  rep s L -> In h0 sentinels -> In b (L h0) -> In t sentinels ->
  (forall q, nxt s1 q = if ptr_eqb q (prv s b) then nxt s b else nxt s q) ->
  (forall q, prv s1 q = if ptr_eqb q (nxt s b) then prv s b else prv s q) ->
  (forall q, nxt s2 q =
             if ptr_eqb q t then b else if ptr_eqb q b then nxt s1 t else nxt s1 q) ->
  (forall q, prv s2 q =
             if ptr_eqb q (nxt s1 t) then b else if ptr_eqb q b then t else prv s1 q) ->
  rep s2 (move_to b t L).
Proof.
  intros Hrep Hh0 Hb Ht Hn1 Hp1 Hn2 Hp2.
  assert (Hbs : In b slots).
  { destruct Hrep as ((_ & Hsl & _) & _). apply (Hsl h0); assumption. }
  pose proof (rep_unlink s s1 L b h0 Hrep Hh0 Hb Hn1 Hp1) as H1.
  apply (rep_link s1 s2 _ b t H1 Hbs); [|exact Ht|exact Hn2|exact Hp2].
  intros h _ Hin. apply in_remove in Hin. tauto.
Qed.

(** ** [binit] *)

Lemma binit_heads_spec (l : list nat) :
  forall s,
    (forall i, In i l -> nxt (fold_left binit_head l s) (PHead i) = PHead i /\
                         prv (fold_left binit_head l s) (PHead i) = PHead i) /\
    (forall q, ~ In q (map PHead l) -> mem (fold_left binit_head l s) q = mem s q) /\
    (forall q, refcnt (mem (fold_left binit_head l s) q) = refcnt (mem s q) /\
               lock (mem (fold_left binit_head l s) q) = lock (mem s q)) /\
    (forall k, locked (fold_left binit_head l s) k =
               if existsb (fun i => spinlock_eqb k (HeadLk i)) l
               then false else locked s k) /\
    disk (fold_left binit_head l s) = disk s.
Proof.
  induction l as [|a l IH]; intros s; simpl.
  - repeat split; intros; tauto.
  - destruct (IH (binit_head s a)) as (H1 & H2 & H3 & H4 & H5).
    split; [|split; [|split; [|split]]].
    + intros i [<-|H]; [|apply H1; exact H].
      destruct (in_dec Nat.eq_dec a l) as [Hin|Hin]; [apply H1; exact Hin|].
      unfold nxt, prv. rewrite H2.
      * unfold binit_head, upd; simpl. rewrite ptr_eqb_refl. auto.
      * rewrite in_map_iff. intros (x & Hx & Hx'). congruence.
    + intros q Hq. rewrite H2 by tauto.
      unfold binit_head, upd; simpl. rewrite ptr_eqb_neq by (intros ->; tauto).
      reflexivity.
    + intros q. destruct (H3 q) as (-> & ->). unfold binit_head, upd; simpl.
      destruct (ptr_eqb q (PHead a)); auto.
    + intros k. rewrite H4. unfold binit_head, initlock, set_locked; simpl.
      destruct (spinlock_eqb k (HeadLk a)); simpl;
        destruct (existsb _ l); reflexivity.
    + rewrite H5. reflexivity.
Qed.

Lemma binit_freelists_spec (l : list nat) :
  forall s,
    (forall i, In i l -> nxt (fold_left binit_freelist l s) (PFree i) = PFree i /\
                         prv (fold_left binit_freelist l s) (PFree i) = PFree i) /\
    (forall q, ~ In q (map PFree l) -> mem (fold_left binit_freelist l s) q = mem s q) /\
    (forall q, refcnt (mem (fold_left binit_freelist l s) q) = refcnt (mem s q) /\
               lock (mem (fold_left binit_freelist l s) q) = lock (mem s q)) /\
    (forall k, locked (fold_left binit_freelist l s) k =
               if existsb (fun i => spinlock_eqb k (FreeLk i)) l
               then false else locked s k) /\
    disk (fold_left binit_freelist l s) = disk s.
Proof.
  induction l as [|a l IH]; intros s; simpl.
  - repeat split; intros; tauto.
  - destruct (IH (binit_freelist s a)) as (H1 & H2 & H3 & H4 & H5).
    split; [|split; [|split; [|split]]].
    + intros i [<-|H]; [|apply H1; exact H].
      destruct (in_dec Nat.eq_dec a l) as [Hin|Hin]; [apply H1; exact Hin|].
      unfold nxt, prv. rewrite H2.
      * unfold binit_freelist, upd; simpl. rewrite ptr_eqb_refl. auto.
      * rewrite in_map_iff. intros (x & Hx & Hx'). congruence.
    + intros q Hq. rewrite H2 by tauto.
      unfold binit_freelist, upd; simpl. rewrite ptr_eqb_neq by (intros ->; tauto).
      reflexivity.
    + intros q. destruct (H3 q) as (-> & ->). unfold binit_freelist, upd; simpl.
      destruct (ptr_eqb q (PFree a)); auto.
    + intros k. rewrite H4. unfold binit_freelist, initlock, set_locked; simpl.
      destruct (spinlock_eqb k (FreeLk a)); simpl;
        destruct (existsb _ l); reflexivity.
    + rewrite H5. reflexivity.
Qed.

(** After the first two loops every sentinel is an empty list. *)
Lemma binit_sentinels_rep (s : state) :
  rep (binit_freelists (binit_heads s)) (fun _ => []).
Proof.
  split.
  - repeat split.
    + intros. constructor.
    + intros h x _ [].
    + intros h h' x _ _ [].
  - intros h Hh. unfold cyc. cbn [app linked].
    pose proof (binit_heads_spec (seq 0 HASHSIZE) s) as Hs.
    pose proof (binit_freelists_spec (seq 0 NCPU) (binit_heads s)) as Hf.
    fold (binit_heads s) in Hs.
    fold (binit_freelists (binit_heads s)) in Hf.
    destruct Hs as (Hs1 & _). destruct Hf as (Hf1 & Hf2 & _).
    apply in_sentinels in Hh. destruct Hh as [(i & Hi & ->)|(c & Hc & ->)].
    + unfold nxt, prv. rewrite Hf2.
      * destruct (Hs1 i) as (Ha & Hb); [apply in_seq; lia|]. auto.
      * rewrite in_map_iff. intros (x & Hx & _). discriminate.
    + destruct (Hf1 c) as (Ha & Hb); [apply in_seq; lia|]. auto.
Qed.

Lemma binit_buf_nxt (ticks : Z) (s : state) (i : nat) (q : ptr) :
  nxt (binit_buf ticks s i) q =
  if ptr_eqb q (PFree 0) then PBuf i
  else if ptr_eqb q (PBuf i) then nxt s (PFree 0) else nxt s q.
Proof.
  unfold binit_buf, initsleeplock, nxt, prv, upd; simpl.
  destruct (ptr_eqb q (PFree 0)) eqn:E1; simpl.
  - destruct (ptr_eqb q (PBuf i)); reflexivity.
  - destruct (ptr_eqb q (PBuf i)) eqn:E2; simpl;
      repeat match goal with |- context [if ?c then _ else _] => destruct c end;
      simpl; reflexivity.
Qed.

Lemma binit_buf_prv (ticks : Z) (s : state) (i : nat) (q : ptr) :
  prv (binit_buf ticks s i) q =
  if ptr_eqb q (nxt s (PFree 0)) then PBuf i
  else if ptr_eqb q (PBuf i) then PFree 0 else prv s q.
Proof.
  unfold binit_buf, initsleeplock, nxt, prv, upd; simpl.
  destruct (ptr_eqb q (PBuf i)) eqn:E2; simpl;
    destruct (ptr_eqb q (PFree 0)) eqn:E1; simpl;
    destruct (ptr_eqb q (next (mem s (PFree 0)))) eqn:E3; simpl; reflexivity.
Qed.

Lemma binit_buf_refcnt (ticks : Z) (s : state) (i : nat) (q : ptr) :
  refcnt (mem (binit_buf ticks s i) q) = refcnt (mem s q).
Proof.
  unfold binit_buf, initsleeplock, nxt, prv, upd; simpl.
  repeat match goal with |- context [if ?c then _ else _] => destruct c end;
    simpl; reflexivity.
Qed.

Lemma binit_buf_lock (ticks : Z) (s : state) (i : nat) (q : ptr) :
  lock (mem (binit_buf ticks s i) q) =
  if ptr_eqb q (PBuf i) then None else lock (mem s q).
Proof.
  unfold binit_buf, initsleeplock, nxt, prv, upd; simpl.
  destruct (ptr_eqb q (PBuf i)) eqn:E; simpl;
  repeat match goal with |- context [if ?c then _ else _] => destruct c end;
    simpl; reflexivity.
Qed.

(** The layout after [k] rounds of the third loop of [binit]. *)
Lemma binit_loop_rep (ticks : Z) (s : state) :
  (0 < NCPU)%nat ->
  forall k, (k <= NBUF)%nat ->
    rep (fold_left (binit_buf ticks) (seq 0 k) (binit_freelists (binit_heads s)))
        (fun h => if ptr_eqb h (PFree 0) then rev (map PBuf (seq 0 k)) else []).
Proof.
  intros Hcpu. induction k as [|k IH]; intros Hk.
  - simpl. eapply rep_ext; [apply binit_sentinels_rep|].
    intros h _. destruct (ptr_eqb h (PFree 0)); reflexivity.
  - rewrite seq_S, fold_left_app. simpl.
    specialize (IH ltac:(lia)).
    set (s0 := fold_left (binit_buf ticks) (seq 0 k) (binit_freelists (binit_heads s))) in *.
    eapply rep_ext.
    + apply (rep_link s0 (binit_buf ticks s0 k) _ (PBuf k) (PFree 0) IH).
      * apply in_slots. exists k. split; [lia|reflexivity].
      * intros h _. destruct (ptr_eqb h (PFree 0)); [|tauto].
        rewrite <- in_rev, in_map_iff. intros (x & Hx & Hin).
        apply in_seq in Hin. injection Hx as ->. lia.
      * apply free_sentinel. exact Hcpu.
      * apply binit_buf_nxt.
      * apply binit_buf_prv.
    + intros h _. simpl. destruct (ptr_eqb h (PFree 0)); [|reflexivity].
      rewrite map_app, rev_app_distr. reflexivity.
Qed.

Lemma binit_rep (ticks : Z) (s : state) :
  (0 < NCPU)%nat ->
  rep (binit ticks s) (fun h => if ptr_eqb h (PFree 0) then rev slots else []).
Proof.
  intros Hcpu. apply (binit_loop_rep ticks s Hcpu NBUF). lia.
Qed.

Lemma binit_wf (ticks : Z) (s : state) : (0 < NCPU)%nat -> wf (binit ticks s).
Proof.
  intros Hcpu. eapply wf_intro; [apply binit_rep; exact Hcpu|].
  intros b Hb. exists (PFree 0). split; [apply free_sentinel; exact Hcpu|].
  rewrite ptr_eqb_refl. apply in_rev. rewrite rev_involutive. exact Hb.
Qed.

Lemma binit_list_of (ticks : Z) (s : state) (h : ptr) :
  (0 < NCPU)%nat -> In h sentinels ->
  list_of (binit ticks s) h = if ptr_eqb h (PFree 0) then rev slots else [].
Proof.
  intros Hcpu Hh.
  apply (rep_list_of _ _ h (binit_rep ticks s Hcpu) Hh).
Qed.

Lemma binit_locked (ticks : Z) (s : state) :
  quiescent s -> quiescent (binit ticks s).
Proof.
  intros Hq k. unfold binit.
  assert (H0 : locked (binit_freelists (binit_heads s)) k = false).
  { pose proof (binit_heads_spec (seq 0 HASHSIZE) s) as Hs.
    pose proof (binit_freelists_spec (seq 0 NCPU) (binit_heads s)) as Hf.
    fold (binit_heads s) in Hs.
    fold (binit_freelists (binit_heads s)) in Hf.
    destruct Hs as (_ & _ & _ & Hs & _). destruct Hf as (_ & _ & _ & Hf & _).
    rewrite Hf, Hs, Hq.
    repeat match goal with |- context [if ?c then _ else _] => destruct c end;
      reflexivity. }
  revert H0. generalize (binit_freelists (binit_heads s)). generalize (seq 0 NBUF).
  induction l as [|a l IH]; intros s0 H0; simpl; [exact H0|].
  apply IH. exact H0.
Qed.

Lemma binit_refcnt (ticks : Z) (s : state) (q : ptr) :
  refcnt (mem (binit ticks s) q) = refcnt (mem s q).
Proof.
  unfold binit.
  assert (H0 : refcnt (mem (binit_freelists (binit_heads s)) q) = refcnt (mem s q)).
  { pose proof (binit_heads_spec (seq 0 HASHSIZE) s) as Hs.
    pose proof (binit_freelists_spec (seq 0 NCPU) (binit_heads s)) as Hf.
    fold (binit_heads s) in Hs.
    fold (binit_freelists (binit_heads s)) in Hf.
    destruct Hs as (_ & _ & Hs & _). destruct Hf as (_ & _ & Hf & _).
    destruct (Hf q) as (-> & _). destruct (Hs q) as (-> & _). reflexivity. }
  rewrite <- H0. generalize (binit_freelists (binit_heads s)). generalize (seq 0 NBUF).
  induction l as [|a l IH]; intros s0; simpl; [reflexivity|].
  rewrite IH. apply binit_buf_refcnt.
Qed.

Lemma binit_lock (ticks : Z) (s : state) (b : ptr) :
  In b slots -> lock (mem (binit ticks s) b) = None.
Proof.
  unfold binit, slots. generalize (binit_freelists (binit_heads s)).
  generalize (seq 0 NBUF). intros l. induction l as [|a l IH] using rev_ind; intros s0 Hb.
  - destruct Hb.
  - rewrite fold_left_app. cbn [fold_left]. rewrite binit_buf_lock.
    destruct (ptr_eqb b (PBuf a)) eqn:E; [reflexivity|].
    apply IH. rewrite map_app in Hb. apply in_app_or in Hb.
    destruct Hb as [Hb|[Hb|[]]]; [exact Hb|].
    subst b. rewrite ptr_eqb_refl in E. discriminate.
Qed.

(** ** [hash] *)

Lemma bucket_lt (d bn : Z) : (bucket d bn < HASHSIZE)%nat.
Proof.
  unfold bucket, hash.
  assert (H : 0 <= wrap32 (1234 * d + 5678 * bn + 90) mod Z.of_nat HASHSIZE < Z.of_nat HASHSIZE).
  { apply Z.mod_pos_bound. unfold HASHSIZE. lia. }
  lia.
Qed.

(** ** The scan of a bucket *)

Lemma scan_miss (s : state) (h : ptr) (d bn : Z) (l : list ptr) :
  forall x fuel,
    linked (nxt s) (prv s) x (l ++ [h]) -> ~ In h l ->
    (List.length l < fuel)%nat ->
    (forall y, In y l -> dev (mem s y) <> d \/ blockno (mem s y) <> bn) ->
    scan fuel (mem s) h (nxt s x) d bn = Some None.
Proof.
  induction l as [|b l IH]; intros x fuel H Hh Hlen Hno; simpl in *.
  - destruct H as (H & _). rewrite H. destruct fuel; [lia|]. simpl.
    rewrite ptr_eqb_refl. reflexivity.
  - destruct H as (H1 & H2 & H3). rewrite H1.
    destruct fuel as [|k]; [lia|]. simpl.
    rewrite ptr_eqb_neq by (intros ->; tauto).
    assert (Hb : (dev (mem s b) =? d) && (blockno (mem s b) =? bn) = false).
    { destruct (Hno b (or_introl eq_refl)) as [Hd|Hd];
        apply andb_false_iff; [left|right]; apply Z.eqb_neq; exact Hd. }
    rewrite Hb. apply IH; [exact H3|tauto|lia|].
    intros y Hy. apply Hno. right. exact Hy.
Qed.

Lemma scan_hit (s : state) (h b : ptr) (d bn : Z) (l2 : list ptr) :
  forall l1 x fuel,
    linked (nxt s) (prv s) x (l1 ++ b :: l2 ++ [h]) -> ~ In h (l1 ++ b :: l2) ->
    (List.length l1 < fuel)%nat ->
    (forall y, In y l1 -> dev (mem s y) <> d \/ blockno (mem s y) <> bn) ->
    dev (mem s b) = d -> blockno (mem s b) = bn ->
    scan fuel (mem s) h (nxt s x) d bn = Some (Some b).
Proof.
  induction l1 as [|a l1 IH]; intros x fuel H Hh Hlen Hno Hd Hb; simpl in *.
  - destruct H as (H & _). rewrite H. destruct fuel; [lia|]. simpl.
    rewrite ptr_eqb_neq by (intros ->; tauto).
    rewrite Hd, Hb, !Z.eqb_refl. reflexivity.
  - destruct H as (H1 & H2 & H3). rewrite H1.
    destruct fuel as [|k]; [lia|]. simpl.
    rewrite ptr_eqb_neq by (intros ->; tauto).
    assert (Ha : (dev (mem s a) =? d) && (blockno (mem s a) =? bn) = false).
    { destruct (Hno a (or_introl eq_refl)) as [Hx|Hx];
        apply andb_false_iff; [left|right]; apply Z.eqb_neq; exact Hx. }
    rewrite Ha. apply IH; [exact H3|tauto|lia| |exact Hd|exact Hb].
    intros y Hy. apply Hno. right. exact Hy.
Qed.

Lemma wf_length (s : state) (h : ptr) :
  wf s -> In h sentinels -> (List.length (list_of s h) <= NBUF)%nat.
Proof. intros (Hr & _) Hh. eapply rep_length; eassumption. Qed.

Lemma scan_uncached (s : state) (d bn : Z) :
  wf s -> uncached s d bn ->
  scan (S NNODES) (mem s) (PHead (bucket d bn)) (nxt s (PHead (bucket d bn))) d bn
  = Some None.
Proof.
  intros Hwf Hun.
  assert (Hh : In (PHead (bucket d bn)) sentinels) by (apply head_sentinel, bucket_lt).
  apply scan_miss with (l := list_of s (PHead (bucket d bn))).
  - apply Hwf. exact Hh.
  - destruct Hwf as ((Hl & _) & _). apply sentinel_not_in; assumption.
  - pose proof (wf_length s _ Hwf Hh). unfold NNODES. lia.
  - exact Hun.
Qed.

Lemma scan_cached (s : state) (d bn : Z) (b : ptr) :
  wf s -> cached s d bn b ->
  scan (S NNODES) (mem s) (PHead (bucket d bn)) (nxt s (PHead (bucket d bn))) d bn
  = Some (Some b).
Proof.
  intros Hwf (l1 & l2 & HL & Hd & Hb & Hno).
  assert (Hh : In (PHead (bucket d bn)) sentinels) by (apply head_sentinel, bucket_lt).
  pose proof (wf_length s _ Hwf Hh) as Hlen. rewrite HL in Hlen.
  rewrite length_app in Hlen.
  apply scan_hit with (l1 := l1) (l2 := l2).
  - destruct Hwf as ((_ & Hc) & _). specialize (Hc _ Hh). unfold cyc in Hc.
    rewrite HL, <- app_assoc in Hc. exact Hc.
  - rewrite <- HL. destruct Hwf as ((Hl & _) & _). apply sentinel_not_in; assumption.
  - unfold NNODES. lia.
  - exact Hno.
  - exact Hd.
  - exact Hb.
Qed.

(** ** [bget]: the hit *)

Lemma quiescent_after (s s1 : state) (l : spinlock) :
  quiescent s ->
  (forall m, locked s1 m = if spinlock_eqb m l then false
                           else locked (set_locked l true s) m) ->
  quiescent s1.
Proof.
  intros Hq H m. rewrite H. unfold set_locked; simpl.
  destruct (spinlock_eqb m l); [reflexivity|apply Hq].
Qed.

Lemma grab_spec (pid : nat) (b : ptr) (s : state) :
  (acquiresleep pid b ;; ret b) s = grab pid b s.
Proof.
  unfold bind, acquiresleep, grab, ret. destruct (lock (mem s b)); reflexivity.
Qed.

Lemma grab_pop_spec (pid : nat) (b : ptr) (s : state) :
  (acquiresleep pid b ;; pop_off ;; ret b) s = grab pid b s.
Proof.
  unfold bind, acquiresleep, grab, ret, pop_off.
  destruct (lock (mem s b)); reflexivity.
Qed.

Lemma bget_hit (ticks : Z) (cpu pid : nat) (d bn : Z) (s : state) (b : ptr) :
  quiescent s -> wf s -> cached s d bn b ->
  exists s1,
    bget ticks cpu pid d bn s = grab pid b s1 /\
    mem s1 = mem (hit_st ticks b s) /\ quiescent s1 /\ disk s1 = disk s.
Proof.
  intros Hq Hwf Hc.
  pose proof (scan_cached s d bn b Hwf Hc) as Hscan.
  exists (set_locked (HeadLk (bucket d bn)) false
            (hit_st ticks b (set_locked (HeadLk (bucket d bn)) true s))).
  split; [|split; [reflexivity|split; [|reflexivity]]].
  - rewrite <- grab_spec.
    unfold bget. unfold bind at 1. unfold acquire. rewrite Hq.
    unfold bind at 1. unfold gets at 1.
    change (mem (set_locked (HeadLk (bucket d bn)) true s)) with (mem s).
    change (nxt (set_locked (HeadLk (bucket d bn)) true s)) with (nxt s).
    rewrite Hscan. reflexivity.
  - intros m. simpl. destruct (spinlock_eqb m (HeadLk (bucket d bn)));
      [reflexivity|apply Hq].
Qed.


(** ** [bget]: the miss *)

Lemma linked_pv_rev (nx pv : ptr -> ptr) (h : ptr) (l : list ptr) :
  forall x, linked nx pv x (l ++ [h]) ->
            pv h = match rev l with a :: _ => a | [] => x end.
Proof.
  induction l as [|b l IH]; intros x H; simpl in *.
  - tauto.
  - destruct H as (_ & _ & H). rewrite (IH b H).
    destruct (rev l); reflexivity.
Qed.

Lemma prv_sentinel (s : state) (L : ptr -> list ptr) (h : ptr) :
  rep s L -> In h sentinels ->
  prv s h = match rev (list_of s h) with a :: _ => a | [] => h end.
Proof.
  intros Hrep Hh. rewrite (rep_list_of s L h Hrep Hh).
  apply (linked_pv_rev (nxt s)). apply Hrep. exact Hh.
Qed.

Lemma rev_head_in (l : list ptr) (a : ptr) (r : list ptr) :
  rev l = a :: r -> In a l.
Proof.
  intros H. apply in_rev. rewrite H. left. reflexivity.
Qed.

Lemma victim_ext (s s' : state) (cs : list nat) :
  (forall q, nxt s' q = nxt s q) -> victim s' cs = victim s cs.
Proof.
  intros He. induction cs as [|c r IH]; simpl; [reflexivity|].
  rewrite (list_of_ext s s' _ He), IH. reflexivity.
Qed.

Lemma victim_in (s : state) (cs : list nat) (a : ptr) :
  victim s cs = Some a -> exists c, In c cs /\ In a (list_of s (PFree c)).
Proof.
  induction cs as [|c r IH]; simpl; [discriminate|].
  destruct (rev (list_of s (PFree c))) as [|x l] eqn:E.
  - intros H. destruct (IH H) as (c' & Hc & Hin). exists c'. auto.
  - intros H. injection H as <-. exists c. split; [left; reflexivity|].
    eapply rev_head_in. exact E.
Qed.

Lemma bget_recycle_panic (pid id : nat) (d bn : Z) (l : spinlock) (a : ptr) (s : state) :
  refcnt (mem s a) <> 0 ->
  bget_recycle pid id d bn l a s = Panic "bget: freelist is not free!"%string.
Proof.
  intros H. unfold bget_recycle, bind, gets.
  apply Z.eqb_neq in H. rewrite H. reflexivity.
Qed.

Lemma bget_recycle_done (pid id : nat) (d bn : Z) (l : spinlock) (a : ptr) (s : state) :
  refcnt (mem s a) = 0 ->
  bget_recycle pid id d bn l a s =
  grab pid a (set_locked l false (set_locked (HeadLk id) false (recycle_st a id d bn s))).
Proof.
  intros H. rewrite <- grab_pop_spec. unfold bget_recycle.
  unfold bind at 1. unfold gets at 1. rewrite H. reflexivity.
Qed.

Lemma upd_mem_ext (p p' : ptr) (f f' : buf -> buf) (s s' : state) :
  mem s' = mem s -> p' = p -> f' = f -> mem (upd p' f' s') = mem (upd p f s).
Proof.
  intros H -> ->. unfold upd. cbn [mem]. rewrite H. reflexivity.
Qed.

Lemma nxt_mem_ext (s s' : state) (q : ptr) : mem s' = mem s -> nxt s' q = nxt s q.
Proof. intros H. unfold nxt. rewrite H. reflexivity. Qed.

Lemma prv_mem_ext (s s' : state) (q : ptr) : mem s' = mem s -> prv s' q = prv s q.
Proof. intros H. unfold prv. rewrite H. reflexivity. Qed.

Lemma link_head_mem_ext (b h : ptr) (s s' : state) :
  mem s' = mem s -> mem (link_head b h s') = mem (link_head b h s).
Proof.
  intros H. unfold link_head. cbv zeta.
  assert (H1 : mem (upd b (set_next (nxt s' h)) s') = mem (upd b (set_next (nxt s h)) s)).
  { apply upd_mem_ext; [exact H|reflexivity|]. f_equal. apply nxt_mem_ext. exact H. }
  revert H1.
  generalize (upd b (set_next (nxt s' h)) s'). generalize (upd b (set_next (nxt s h)) s).
  intros t t' H1.
  assert (H2 : mem (upd b (set_prev h) t') = mem (upd b (set_prev h) t)).
  { apply upd_mem_ext; [exact H1|reflexivity|reflexivity]. }
  revert H2. generalize (upd b (set_prev h) t'). generalize (upd b (set_prev h) t).
  intros u u' H2.
  apply upd_mem_ext; [|reflexivity|reflexivity].
  apply upd_mem_ext; [exact H2| |reflexivity].
  apply nxt_mem_ext. exact H2.
Qed.

Lemma unlink_bget_mem_ext (b : ptr) (s s' : state) :
  mem s' = mem s -> mem (unlink_bget b s') = mem (unlink_bget b s).
Proof.
  intros H. unfold unlink_bget. cbv zeta.
  assert (H1 : mem (upd (prv s' b) (set_next (nxt s' b)) s') =
               mem (upd (prv s b) (set_next (nxt s b)) s)).
  { apply upd_mem_ext; [exact H|apply prv_mem_ext; exact H|].
    f_equal. apply nxt_mem_ext. exact H. }
  revert H1.
  generalize (upd (prv s' b) (set_next (nxt s' b)) s').
  generalize (upd (prv s b) (set_next (nxt s b)) s).
  intros t t' H1.
  apply upd_mem_ext; [exact H1|apply nxt_mem_ext; exact H1|].
  f_equal. apply prv_mem_ext. exact H1.
Qed.

Lemma unlink_brelse_mem_ext (b : ptr) (s s' : state) :
  mem s' = mem s -> mem (unlink_brelse b s') = mem (unlink_brelse b s).
Proof.
  intros H. unfold unlink_brelse. cbv zeta.
  assert (H1 : mem (upd (nxt s' b) (set_prev (prv s' b)) s') =
               mem (upd (nxt s b) (set_prev (prv s b)) s)).
  { apply upd_mem_ext; [exact H|apply nxt_mem_ext; exact H|].
    f_equal. apply prv_mem_ext. exact H. }
  revert H1.
  generalize (upd (nxt s' b) (set_prev (prv s' b)) s').
  generalize (upd (nxt s b) (set_prev (prv s b)) s).
  intros t t' H1.
  apply upd_mem_ext; [exact H1|apply prv_mem_ext; exact H1|].
  f_equal. apply nxt_mem_ext. exact H1.
Qed.

Lemma recycle_st_mem_ext (a : ptr) (id : nat) (d bn : Z) (s s' : state) :
  mem s' = mem s ->
  mem (recycle_st a id d bn s') = mem (recycle_st a id d bn s).
Proof.
  intros H. unfold recycle_st.
  do 4 (apply upd_mem_ext; [|reflexivity|reflexivity]).
  apply link_head_mem_ext, unlink_bget_mem_ext. exact H.
Qed.

Lemma locked_link_head (b h : ptr) (s : state) :
  locked (link_head b h s) = locked s.
Proof. reflexivity. Qed.

Lemma locked_unlink_bget (b : ptr) (s : state) : locked (unlink_bget b s) = locked s.
Proof. reflexivity. Qed.

Lemma locked_unlink_brelse (b : ptr) (s : state) : locked (unlink_brelse b s) = locked s.
Proof. reflexivity. Qed.

Lemma locked_recycle_st (a : ptr) (id : nat) (d bn : Z) (s : state) :
  locked (recycle_st a id d bn s) = locked s.
Proof. reflexivity. Qed.

Lemma disk_recycle_st (a : ptr) (id : nat) (d bn : Z) (s : state) :
  disk (recycle_st a id d bn s) = disk s.
Proof. reflexivity. Qed.

Lemma bget_steal_spec (cpu pid id : nat) (d bn : Z) (L : ptr -> list ptr) :
  forall ncs s,
    (forall nc, In nc ncs -> (nc < NCPU)%nat) ->
    rep s L ->
    (forall m, m <> HeadLk id -> locked s m = false) ->
    match victim s (filter (fun nc => negb (Nat.eqb nc cpu)) ncs) with
    | None => bget_steal ncs cpu pid id d bn s = Panic "bget: no buffers"%string
    | Some a =>
        if refcnt (mem s a) =? 0
        then exists s1,
            bget_steal ncs cpu pid id d bn s = grab pid a s1 /\
            mem s1 = mem (recycle_st a id d bn s) /\
            quiescent s1 /\ disk s1 = disk s
        else bget_steal ncs cpu pid id d bn s = Panic "bget: freelist is not free!"%string
    end.
Proof.
  induction ncs as [|nc r IH]; intros s Hnc Hrep Hlk.
  - reflexivity.
  - cbn [filter].
    destruct (Nat.eqb nc cpu) eqn:Ecpu; cbn [negb].
    + assert (Heq : bget_steal (nc :: r) cpu pid id d bn s =
                    bget_steal r cpu pid id d bn s).
      { cbn [bget_steal]. rewrite Ecpu. reflexivity. }
      rewrite Heq.
      apply IH; [intros x Hx; apply Hnc; right; exact Hx|exact Hrep|exact Hlk].
    + cbn [victim].
      assert (Hs : In (PFree nc) sentinels).
      { apply free_sentinel. apply Hnc. left. reflexivity. }
      pose proof (prv_sentinel s L (PFree nc) Hrep Hs) as Hprv.
      set (s' := set_locked (FreeLk nc) false (set_locked (FreeLk nc) true s)).
      assert (Heq : bget_steal (nc :: r) cpu pid id d bn s =
                    if ptr_eqb (prv s (PFree nc)) (PFree nc)
                    then bget_steal r cpu pid id d bn s'
                    else bget_recycle pid id d bn (FreeLk nc) (prv s (PFree nc))
                                      (set_locked (FreeLk nc) true s)).
      { cbn [bget_steal]. rewrite Ecpu.
        unfold bind at 1. unfold acquire.
        rewrite (Hlk (FreeLk nc)) by discriminate.
        unfold bind at 1. unfold gets at 1.
        change (prv (set_locked (FreeLk nc) true s) (PFree nc)) with (prv s (PFree nc)).
        destruct (ptr_eqb (prv s (PFree nc)) (PFree nc)); reflexivity. }
      rewrite Heq, Hprv. clear Heq.
      destruct (rev (list_of s (PFree nc))) as [|a l] eqn:Erev.
      * rewrite ptr_eqb_refl.
        assert (Hrep' : rep s' L).
        { apply (rep_same_links s s' L); [reflexivity|reflexivity|exact Hrep]. }
        assert (Hlk' : forall m, m <> HeadLk id -> locked s' m = false).
        { intros m Hm. unfold s', set_locked; simpl.
          destruct (spinlock_eqb m (FreeLk nc)); [reflexivity|apply Hlk; exact Hm]. }
        specialize (IH s' (fun x Hx => Hnc x (or_intror Hx)) Hrep' Hlk').
        rewrite (victim_ext s s') in IH by reflexivity.
        assert (Hm : mem s' = mem s) by reflexivity.
        assert (Hd : disk s' = disk s) by reflexivity.
        clearbody s'.
        destruct (victim s (filter (fun nc0 => negb (Nat.eqb nc0 cpu)) r)) as [a|];
          [|exact IH].
        rewrite Hm in IH.
        destruct (refcnt (mem s a) =? 0); [|exact IH].
        destruct IH as (s1 & H1 & H2 & H3 & H4). exists s1.
        rewrite (recycle_st_mem_ext a id d bn s s' Hm) in H2. rewrite Hd in H4.
        auto.
      * assert (Ha : In a (list_of s (PFree nc))) by (eapply rev_head_in; exact Erev).
        assert (Hne : a <> PFree nc).
        { intros ->. rewrite (rep_list_of s L _ Hrep Hs) in Ha.
          destruct Hrep as (Hlay & _).
          apply (sentinel_not_in L (PFree nc) (PFree nc) Hlay Hs Hs Ha). }
        rewrite (ptr_eqb_neq _ _ Hne).
        destruct (refcnt (mem s a) =? 0) eqn:Eref.
        -- apply Z.eqb_eq in Eref.
           eexists. split; [apply bget_recycle_done; exact Eref|].
           split; [|split; [|reflexivity]].
           ++ cbn [mem set_locked]. apply recycle_st_mem_ext. reflexivity.
           ++ intros m. cbn [locked set_locked].
              destruct (spinlock_eqb m (FreeLk nc)) eqn:Ef; [reflexivity|].
              destruct (spinlock_eqb m (HeadLk id)) eqn:Em; [reflexivity|].
              rewrite locked_recycle_st. cbn [locked set_locked]. rewrite Ef.
              apply Hlk. intros ->. rewrite spinlock_eqb_refl in Em. discriminate.
        -- apply Z.eqb_neq in Eref. apply bget_recycle_panic. exact Eref.
Qed.


Lemma bget_miss (ticks : Z) (cpu pid : nat) (d bn : Z) (s : state) :
  quiescent s -> wf s -> uncached s d bn -> (cpu < NCPU)%nat ->
  match victim s (pool_order cpu) with
  | None => bget ticks cpu pid d bn s = Panic "bget: no buffers"%string
  | Some a =>
      if refcnt (mem s a) =? 0
      then exists s1,
          bget ticks cpu pid d bn s = grab pid a s1 /\
          mem s1 = mem (recycle_st a (bucket d bn) d bn s) /\
          quiescent s1 /\ disk s1 = disk s
      else bget ticks cpu pid d bn s = Panic "bget: freelist is not free!"%string
  end.
Proof.
  intros Hq Hwf Hun Hcpu.
  pose proof (scan_uncached s d bn Hwf Hun) as Hscan.
  set (id := bucket d bn) in *.
  set (sa := set_locked (FreeLk cpu) true (set_locked (HeadLk id) true s)).
  set (sr := set_locked (FreeLk cpu) false sa).
  assert (Heq : bget ticks cpu pid d bn s =
                if ptr_eqb (prv s (PFree cpu)) (PFree cpu)
                then bget_steal (seq 0 NCPU) cpu pid id d bn sr
                else bget_recycle pid id d bn (FreeLk cpu) (prv s (PFree cpu)) sa).
  { unfold bget. fold id. unfold bind at 1. unfold acquire. rewrite Hq.
    unfold bind at 1. unfold gets at 1.
    change (mem (set_locked (HeadLk id) true s)) with (mem s).
    change (nxt (set_locked (HeadLk id) true s)) with (nxt s).
    rewrite Hscan.
    unfold bind at 1. unfold push_off, ret.
    unfold bind at 1. unfold acquire.
    assert (Hf : locked (set_locked (HeadLk id) true s) (FreeLk cpu) = false).
    { unfold set_locked; simpl.
      destruct (spinlock_eqb (FreeLk cpu) (HeadLk id)) eqn:E; [|apply Hq].
      unfold spinlock_eqb in E.
      destruct (spinlock_eq_dec (FreeLk cpu) (HeadLk id)); discriminate. }
    rewrite Hf.
    unfold bind at 1. unfold gets at 1.
    change (prv (set_locked (FreeLk cpu) true (set_locked (HeadLk id) true s)) (PFree cpu))
      with (prv s (PFree cpu)).
    destruct (ptr_eqb (prv s (PFree cpu)) (PFree cpu)); reflexivity. }
  rewrite Heq. clear Heq.
  destruct Hwf as (Hrep & Hcov).
  assert (Hs : In (PFree cpu) sentinels) by (apply free_sentinel; exact Hcpu).
  rewrite (prv_sentinel s _ (PFree cpu) Hrep Hs).
  unfold pool_order. cbn [victim].
  destruct (rev (list_of s (PFree cpu))) as [|a l] eqn:Erev.
  - rewrite ptr_eqb_refl.
    assert (Hrep' : rep sr (list_of s)).
    { apply (rep_same_links s sr); [reflexivity|reflexivity|exact Hrep]. }
    assert (Hlk' : forall m, m <> HeadLk id -> locked sr m = false).
    { intros m Hm. unfold sr, sa, set_locked; simpl.
      destruct (spinlock_eqb m (FreeLk cpu)); [reflexivity|].
      destruct (spinlock_eqb m (HeadLk id)) eqn:Em; [|apply Hq].
      exfalso. apply Hm. unfold spinlock_eqb in Em.
      destruct (spinlock_eq_dec m (HeadLk id)); [assumption|discriminate]. }
    assert (H := bget_steal_spec cpu pid id d bn (list_of s) (seq 0 NCPU) sr
                   (fun nc Hn => proj2 (proj1 (in_seq _ _ _) Hn)) Hrep' Hlk').
    rewrite (victim_ext s sr) in H by reflexivity.
    assert (Hm : mem sr = mem s) by reflexivity.
    assert (Hd : disk sr = disk s) by reflexivity.
    clearbody sr. clear sa.
    destruct (victim s (filter (fun nc => negb (Nat.eqb nc cpu)) (seq 0 NCPU))) as [a|];
      [|exact H].
    rewrite Hm in H.
    destruct (refcnt (mem s a) =? 0); [|exact H].
    destruct H as (s1 & H1 & H2 & H3 & H4). exists s1.
    rewrite (recycle_st_mem_ext a id d bn s sr Hm) in H2. rewrite Hd in H4.
    auto.
  - assert (Ha : In a (list_of s (PFree cpu))) by (eapply rev_head_in; exact Erev).
    assert (Hne : a <> PFree cpu).
    { intros ->. destruct Hrep as (Hlay & _).
      apply (sentinel_not_in _ (PFree cpu) (PFree cpu) Hlay Hs Hs Ha). }
    rewrite (ptr_eqb_neq _ _ Hne).
    destruct (refcnt (mem s a) =? 0) eqn:Eref.
    + apply Z.eqb_eq in Eref.
      eexists. split; [apply bget_recycle_done; exact Eref|].
      split; [|split; [|reflexivity]].
      * cbn [mem set_locked]. apply recycle_st_mem_ext. reflexivity.
      * intros m. cbn [locked set_locked].
        destruct (spinlock_eqb m (FreeLk cpu)) eqn:Ef; [reflexivity|].
        destruct (spinlock_eqb m (HeadLk id)) eqn:Em; [reflexivity|].
        rewrite locked_recycle_st. unfold sa. cbn [locked set_locked].
        rewrite Ef, Em. apply Hq.
    + apply Z.eqb_neq in Eref. apply bget_recycle_panic. exact Eref.
Qed.

(** ** Fields that are not links *)

Lemma nxt_upd (p : ptr) (f : buf -> buf) (s : state) (q : ptr) :
  (forall x, next (f x) = next x) -> nxt (upd p f s) q = nxt s q.
Proof.
  intros H. unfold nxt, upd; simpl. destruct (ptr_eqb q p); [apply H|reflexivity].
Qed.

Lemma prv_upd (p : ptr) (f : buf -> buf) (s : state) (q : ptr) :
  (forall x, prev (f x) = prev x) -> prv (upd p f s) q = prv s q.
Proof.
  intros H. unfold prv, upd; simpl. destruct (ptr_eqb q p); [apply H|reflexivity].
Qed.

Lemma recycle_st_nxt (a : ptr) (id : nat) (d bn : Z) (s : state) (q : ptr) :
  nxt (recycle_st a id d bn s) q = nxt (link_head a (PHead id) (unlink_bget a s)) q.
Proof.
  unfold recycle_st. rewrite !nxt_upd by reflexivity. reflexivity.
Qed.

Lemma recycle_st_prv (a : ptr) (id : nat) (d bn : Z) (s : state) (q : ptr) :
  prv (recycle_st a id d bn s) q = prv (link_head a (PHead id) (unlink_bget a s)) q.
Proof.
  unfold recycle_st. rewrite !prv_upd by reflexivity. reflexivity.
Qed.

(** Recycling moves the slot to the head of the bucket. *)
Lemma recycle_rep (s : state) (a h0 : ptr) (id : nat) (d bn : Z) :
  wf s -> In h0 sentinels -> In a (list_of s h0) -> (id < HASHSIZE)%nat ->
  rep (recycle_st a id d bn s) (move_to a (PHead id) (list_of s)).
Proof.
  intros (Hrep & _) Hh0 Ha Hid.
  apply (rep_move s (unlink_bget a s) (recycle_st a id d bn s) _ a h0 (PHead id)
                  Hrep Hh0 Ha (head_sentinel id Hid)).
  - apply unlink_bget_nxt.
  - apply unlink_bget_prv.
  - intros q. rewrite recycle_st_nxt. apply link_head_nxt.
  - intros q. rewrite recycle_st_prv. apply link_head_prv.
Qed.

Lemma move_wf (s s' : state) (b t : ptr) :
  wf s -> In t sentinels -> rep s' (move_to b t (list_of s)) -> wf s'.
Proof.
  intros (_ & Hcov) Ht Hrep.
  eapply wf_intro; [exact Hrep|]. apply covers_move; assumption.
Qed.

Lemma move_list_of (s s' : state) (b t h : ptr) :
  rep s' (move_to b t (list_of s)) -> In h sentinels ->
  list_of s' h = move_to b t (list_of s) h.
Proof. intros Hrep Hh. apply (rep_list_of s' _ h Hrep Hh). Qed.

(** ** [brelse], [bpin], [bunpin], [bwrite] *)

Lemma brelse_panic (cpu pid : nat) (b : ptr) (s : state) :
  holdingsleep pid b s = false -> brelse cpu pid b s = Panic "brelse"%string.
Proof.
  intros H. unfold brelse, bind, gets. rewrite H. reflexivity.
Qed.

Lemma brelse_done (cpu pid : nat) (b : ptr) (s : state) :
  quiescent s -> holdingsleep pid b s = true ->
  exists s1,
    brelse cpu pid b s = Done tt s1 /\
    mem s1 = mem (brelse_st cpu b s) /\ quiescent s1 /\ disk s1 = disk s.
Proof.
  intros Hq Hh.
  set (s0 := upd b (set_lock None) s).
  set (id := bucket (dev (mem s0 b)) (blockno (mem s0 b))).
  set (s2 := upd b (set_refcnt (wrap32 (refcnt (mem s0 b) - 1))) s0).
  assert (Heq : brelse cpu pid b s =
    if refcnt (mem s2 b) =? 0
    then Done tt (set_locked (HeadLk id) false
                   (set_locked (FreeLk cpu) false
                     (link_head b (PFree cpu)
                       (unlink_brelse b
                         (set_locked (FreeLk cpu) true
                           (upd b (set_refcnt (wrap32 (refcnt (mem s0 b) - 1)))
                              (set_locked (HeadLk id) true s0)))))))
    else Done tt (set_locked (HeadLk id) false
                   (upd b (set_refcnt (wrap32 (refcnt (mem s0 b) - 1)))
                      (set_locked (HeadLk id) true s0)))).
  { unfold brelse. unfold bind at 1. unfold gets at 1. rewrite Hh. cbn [negb].
    unfold bind at 1. unfold releasesleep, modify. fold s0.
    unfold bind at 1. unfold gets at 1. fold id.
    unfold bind at 1. unfold acquire.
    change (locked s0 (HeadLk id)) with (locked s (HeadLk id)). rewrite Hq.
    unfold bind at 1.
    unfold bind at 1. unfold gets at 1.
    change (mem (set_locked (HeadLk id) true s0) b) with (mem s0 b).
    change (refcnt (mem (upd b (set_refcnt (wrap32 (refcnt (mem s0 b) - 1)))
                        (set_locked (HeadLk id) true s0)) b))
      with (refcnt (mem s2 b)).
    destruct (refcnt (mem s2 b) =? 0); [|reflexivity].
    unfold bind, push_off, pop_off, ret, acquire, release, modify.
    assert (Hf : locked (upd b (set_refcnt (wrap32 (refcnt (mem s0 b) - 1)))
                             (set_locked (HeadLk id) true s0)) (FreeLk cpu) = false).
    { unfold set_locked; simpl.
      destruct (spinlock_eqb (FreeLk cpu) (HeadLk id)) eqn:E; [|apply Hq].
      unfold spinlock_eqb in E.
      destruct (spinlock_eq_dec (FreeLk cpu) (HeadLk id)); discriminate. }
    rewrite Hf. reflexivity. }
  rewrite Heq. clear Heq. unfold brelse_st. fold s0. fold s2.
  destruct (refcnt (mem s2 b) =? 0).
  - eexists. split; [reflexivity|]. split; [|split; [|reflexivity]].
    + cbn [mem set_locked]. apply link_head_mem_ext, unlink_brelse_mem_ext.
      reflexivity.
    + intros m. cbn [locked set_locked].
      destruct (spinlock_eqb m (HeadLk id)) eqn:Em; [reflexivity|].
      destruct (spinlock_eqb m (FreeLk cpu)) eqn:Ef; [reflexivity|].
      rewrite locked_link_head, locked_unlink_brelse. cbn [locked set_locked upd].
      rewrite Ef, Em. apply Hq.
  - eexists. split; [reflexivity|]. split; [reflexivity|]. split; [|reflexivity].
    intros m. unfold set_locked; simpl.
    destruct (spinlock_eqb m (HeadLk id)); [reflexivity|apply Hq].
Qed.

Lemma bpin_done (b : ptr) (s : state) :
  quiescent s ->
  exists s1,
    bpin b s = Done tt s1 /\
    mem s1 = mem (upd b (set_refcnt (wrap32 (refcnt (mem s b) + 1))) s) /\
    quiescent s1 /\ disk s1 = disk s.
Proof.
  intros Hq. unfold bpin, bind, gets, acquire, modify, release. rewrite Hq.
  eexists. split; [reflexivity|]. split; [reflexivity|]. split; [|reflexivity].
  intros m. unfold set_locked; simpl.
  destruct (spinlock_eqb m _); [reflexivity|apply Hq].
Qed.

Lemma bunpin_done (b : ptr) (s : state) :
  quiescent s ->
  exists s1,
    bunpin b s = Done tt s1 /\
    mem s1 = mem (upd b (set_refcnt (wrap32 (refcnt (mem s b) - 1))) s) /\
    quiescent s1 /\ disk s1 = disk s.
Proof.
  intros Hq. unfold bunpin, bind, gets, acquire, modify, release. rewrite Hq.
  eexists. split; [reflexivity|]. split; [reflexivity|]. split; [|reflexivity].
  intros m. unfold set_locked; simpl.
  destruct (spinlock_eqb m _); [reflexivity|apply Hq].
Qed.

Lemma bwrite_panic (pid : nat) (b : ptr) (s : state) :
  holdingsleep pid b s = false -> bwrite pid b s = Panic "bwrite"%string.
Proof.
  intros H. unfold bwrite, bind, gets. rewrite H. reflexivity.
Qed.

Lemma bwrite_done (pid : nat) (b : ptr) (s : state) :
  holdingsleep pid b s = true ->
  bwrite pid b s =
  Done tt (set_disk (dev (mem s b)) (blockno (mem s b)) (data (mem s b)) s).
Proof.
  intros H. unfold bwrite, bind, gets. rewrite H. reflexivity.
Qed.


(** ** What the moves leave alone *)

Lemma meta_fields (x y : buf) :
  meta x = meta y ->
  valid x = valid y /\ dev x = dev y /\ blockno x = blockno y /\
  lock x = lock y /\ refcnt x = refcnt y /\ data x = data y /\
  timestamp x = timestamp y.
Proof. unfold meta. intros H. injection H. intros. repeat split; assumption. Qed.

Lemma meta_values (x : buf) (v d b : Z) (l : option nat) (r : Z) (da : block) (t : Z) :
  meta x = (v, d, b, l, r, da, t) ->
  valid x = v /\ dev x = d /\ blockno x = b /\ lock x = l /\ refcnt x = r /\
  data x = da /\ timestamp x = t.
Proof. unfold meta. intros H. injection H. intros. repeat split; assumption. Qed.

Lemma upd_meta (p : ptr) (f : buf -> buf) (s : state) (q : ptr) :
  (forall x, meta (f x) = meta x) -> meta (mem (upd p f s) q) = meta (mem s q).
Proof.
  intros H. unfold upd; cbn [mem]. destruct (ptr_eqb q p); [apply H|reflexivity].
Qed.

Lemma link_head_meta (b h : ptr) (s : state) (q : ptr) :
  meta (mem (link_head b h s) q) = meta (mem s q).
Proof.
  unfold link_head. cbv zeta. rewrite !upd_meta by reflexivity. reflexivity.
Qed.

Lemma unlink_bget_meta (b : ptr) (s : state) (q : ptr) :
  meta (mem (unlink_bget b s) q) = meta (mem s q).
Proof.
  unfold unlink_bget. cbv zeta. rewrite !upd_meta by reflexivity. reflexivity.
Qed.

Lemma unlink_brelse_meta (b : ptr) (s : state) (q : ptr) :
  meta (mem (unlink_brelse b s) q) = meta (mem s q).
Proof.
  unfold unlink_brelse. cbv zeta. rewrite !upd_meta by reflexivity. reflexivity.
Qed.

Lemma mem_upd_same (p : ptr) (f : buf -> buf) (s : state) :
  mem (upd p f s) p = f (mem s p).
Proof. unfold upd; cbn [mem]. rewrite ptr_eqb_refl. reflexivity. Qed.

Lemma mem_upd_other (p : ptr) (f : buf -> buf) (s : state) (q : ptr) :
  q <> p -> mem (upd p f s) q = mem s q.
Proof. intros H. unfold upd; cbn [mem]. rewrite ptr_eqb_neq by exact H. reflexivity. Qed.

(** The recycled slot carries the new identity, is not valid and is
    referenced once; its sleep-lock, payload and time stamp are kept. *)
Lemma recycle_st_slot (a : ptr) (id : nat) (d bn : Z) (s : state) :
  meta (mem (recycle_st a id d bn s) a) =
  (0, d, bn, lock (mem s a), 1, data (mem s a), timestamp (mem s a)).
Proof.
  unfold recycle_st. rewrite !mem_upd_same.
  pose proof (link_head_meta a (PHead id) (unlink_bget a s) a) as H.
  rewrite unlink_bget_meta in H. apply meta_fields in H.
  destruct H as (H1 & H2 & H3 & H4 & H5 & H6 & H7).
  revert H4 H6 H7. generalize (mem (link_head a (PHead id) (unlink_bget a s)) a).
  intros X H4 H6 H7. unfold meta; simpl. rewrite H4, H6, H7. reflexivity.
Qed.

Lemma recycle_st_other (a : ptr) (id : nat) (d bn : Z) (s : state) (q : ptr) :
  q <> a -> meta (mem (recycle_st a id d bn s) q) = meta (mem s q).
Proof.
  intros H. unfold recycle_st. rewrite !mem_upd_other by exact H.
  rewrite link_head_meta, unlink_bget_meta. reflexivity.
Qed.

Lemma hit_st_slot (ticks : Z) (b : ptr) (s : state) :
  mem (hit_st ticks b s) b =
  set_timestamp ticks (set_refcnt (wrap32 (refcnt (mem s b) + 1)) (mem s b)).
Proof. unfold hit_st. rewrite !mem_upd_same. reflexivity. Qed.

Lemma hit_st_other (ticks : Z) (b : ptr) (s : state) (q : ptr) :
  q <> b -> mem (hit_st ticks b s) q = mem s q.
Proof. intros H. unfold hit_st. rewrite !mem_upd_other by exact H. reflexivity. Qed.

Lemma hit_st_nxt (ticks : Z) (b : ptr) (s : state) (q : ptr) :
  nxt (hit_st ticks b s) q = nxt s q.
Proof. unfold hit_st. rewrite !nxt_upd by reflexivity. reflexivity. Qed.

Lemma hit_st_prv (ticks : Z) (b : ptr) (s : state) (q : ptr) :
  prv (hit_st ticks b s) q = prv s q.
Proof. unfold hit_st. rewrite !prv_upd by reflexivity. reflexivity. Qed.

Lemma read_st_nxt (b : ptr) (s : state) (q : ptr) : nxt (read_st b s) q = nxt s q.
Proof.
  unfold read_st. destruct (valid (mem s b) =? 0); [|reflexivity].
  rewrite !nxt_upd by reflexivity. reflexivity.
Qed.

Lemma read_st_prv (b : ptr) (s : state) (q : ptr) : prv (read_st b s) q = prv s q.
Proof.
  unfold read_st. destruct (valid (mem s b) =? 0); [|reflexivity].
  rewrite !prv_upd by reflexivity. reflexivity.
Qed.

Lemma read_st_locked (b : ptr) (s : state) : locked (read_st b s) = locked s.
Proof. unfold read_st. destruct (valid (mem s b) =? 0); reflexivity. Qed.

Lemma read_st_fields (b : ptr) (s : state) (q : ptr) :
  dev (mem (read_st b s) q) = dev (mem s q) /\
  blockno (mem (read_st b s) q) = blockno (mem s q) /\
  lock (mem (read_st b s) q) = lock (mem s q) /\
  refcnt (mem (read_st b s) q) = refcnt (mem s q) /\
  timestamp (mem (read_st b s) q) = timestamp (mem s q).
Proof.
  unfold read_st. destruct (valid (mem s b) =? 0); [|repeat split].
  unfold upd; cbn [mem]. destruct (ptr_eqb q b); repeat split.
Qed.

Lemma read_st_valid (b : ptr) (s : state) : valid (mem (read_st b s) b) <> 0.
Proof.
  unfold read_st. destruct (valid (mem s b) =? 0) eqn:E.
  - rewrite mem_upd_same. simpl. discriminate.
  - apply Z.eqb_neq. exact E.
Qed.

Lemma bread_tail_spec (b : ptr) (s : state) :
  bread_tail b s = Done b (read_st b s).
Proof.
  unfold bread_tail, read_st, bind, gets, virtio_disk_rw, modify, ret.
  destruct (valid (mem s b) =? 0); reflexivity.
Qed.

(** ** States with the same memory *)

Lemma list_of_mem_ext (s s' : state) (h : ptr) :
  mem s' = mem s -> list_of s' h = list_of s h.
Proof. intros H. apply list_of_ext. intros q. apply nxt_mem_ext. exact H. Qed.

Lemma wf_mem_ext (s s' : state) : mem s' = mem s -> wf s -> wf s'.
Proof.
  intros H. apply wf_same_links; intros q;
    [apply nxt_mem_ext|apply prv_mem_ext]; exact H.
Qed.

Lemma hashed_mem_ext (s s' : state) : mem s' = mem s -> hashed s -> hashed s'.
Proof.
  intros H Hh h b Hlt Hb. rewrite (list_of_mem_ext s s' _ H) in Hb.
  rewrite H. apply Hh; assumption.
Qed.

Lemma inv_mem_ext (s s' : state) :
  mem s' = mem s -> quiescent s' -> wf s -> hashed s -> inv s'.
Proof.
  intros H Hq Hw Hh. split; [eapply wf_mem_ext; eassumption|].
  split; [eapply hashed_mem_ext; eassumption|exact Hq].
Qed.

(** A change of fields that are neither links nor identity keeps the
    lists and the invariant. *)
Lemma inv_same_lists (s s' : state) :
  (forall q, nxt s' q = nxt s q) -> (forall q, prv s' q = prv s q) ->
  (forall q, dev (mem s' q) = dev (mem s q) /\ blockno (mem s' q) = blockno (mem s q)) ->
  quiescent s' -> inv s -> inv s'.
Proof.
  intros Hn Hp Hid Hq (Hw & Hh & _).
  split; [eapply wf_same_links; eassumption|]. split; [|exact Hq].
  intros h b Hlt Hb. rewrite (list_of_ext s s' _ Hn) in Hb.
  destruct (Hid b) as (-> & ->). apply Hh; assumption.
Qed.

Lemma upd_lock_inv (b : ptr) (v : option nat) (s : state) :
  inv s -> inv (upd b (set_lock v) s).
Proof.
  intros H. apply (inv_same_lists s); [| | | |exact H].
  - intros q. apply nxt_upd. reflexivity.
  - intros q. apply prv_upd. reflexivity.
  - intros q. unfold upd; cbn [mem]. destruct (ptr_eqb q b); split; reflexivity.
  - exact (proj2 (proj2 H)).
Qed.

Lemma read_st_inv (b : ptr) (s : state) : inv s -> inv (read_st b s).
Proof.
  intros H. apply (inv_same_lists s); [| | | |exact H].
  - apply read_st_nxt.
  - apply read_st_prv.
  - intros q. pose proof (read_st_fields b s q). tauto.
  - intros m. rewrite read_st_locked. apply H.
Qed.

Lemma hit_st_inv (ticks : Z) (b : ptr) (s : state) : inv s -> inv (hit_st ticks b s).
Proof.
  intros H. apply (inv_same_lists s); [| | | |exact H].
  - apply hit_st_nxt.
  - apply hit_st_prv.
  - intros q. unfold hit_st, upd; cbn [mem]. destruct (ptr_eqb q b); split; reflexivity.
  - exact (proj2 (proj2 H)).
Qed.


(** ** The invariant along recycling and release *)

Lemma move_to_head_in (b t : ptr) (L : ptr -> list ptr) (h x : ptr) :
  In x (move_to b t L h) -> x = b /\ h = t \/ x <> b /\ In x (L h).
Proof.
  unfold move_to. destruct (ptr_eqb h t) eqn:E.
  - apply ptr_eqb_true in E. intros [<-|H]; [left; auto|].
    apply in_remove in H. right. tauto.
  - intros H. apply in_remove in H. right. tauto.
Qed.

Lemma recycle_wf (s : state) (a : ptr) (c : nat) (d bn : Z) :
  inv s -> (c < NCPU)%nat -> In a (list_of s (PFree c)) ->
  wf (recycle_st a (bucket d bn) d bn s) /\
  hashed (recycle_st a (bucket d bn) d bn s) /\
  forall h, In h sentinels ->
    list_of (recycle_st a (bucket d bn) d bn s) h =
    move_to a (PHead (bucket d bn)) (list_of s) h.
Proof.
  intros (Hwf & Hh & _) Hc Ha.
  pose proof (recycle_rep s a (PFree c) (bucket d bn) d bn Hwf
                (free_sentinel c Hc) Ha (bucket_lt d bn)) as Hrep.
  assert (HL : forall h, In h sentinels ->
            list_of (recycle_st a (bucket d bn) d bn s) h =
            move_to a (PHead (bucket d bn)) (list_of s) h).
  { intros h Hs. apply (move_list_of s _ a _ h Hrep Hs). }
  split; [|split; [|exact HL]].
  - apply (move_wf s _ a (PHead (bucket d bn)) Hwf); [|exact Hrep].
    apply head_sentinel, bucket_lt.
  - intros h x Hlt Hx. rewrite HL in Hx by (apply head_sentinel; exact Hlt).
    apply move_to_head_in in Hx. destruct Hx as [(-> & Heq)|(Hne & Hx)].
    + pose proof (recycle_st_slot a (bucket d bn) d bn s) as Hm.
      apply meta_values in Hm. destruct Hm as (_ & Hd & Hb & _).
      rewrite Hd, Hb. congruence.
    + pose proof (recycle_st_other a (bucket d bn) d bn s x Hne) as Hm.
      apply meta_fields in Hm. destruct Hm as (_ & -> & -> & _).
      apply Hh; assumption.
Qed.

Lemma wf_slot_listed (s : state) (b : ptr) :
  wf s -> In b slots -> exists h, In h sentinels /\ In b (list_of s h).
Proof. intros (_ & Hc) Hb. apply Hc. exact Hb. Qed.

Lemma brelse_st_slot (cpu : nat) (b : ptr) (s : state) :
  meta (mem (brelse_st cpu b s) b) =
  (valid (mem s b), dev (mem s b), blockno (mem s b), None,
   wrap32 (refcnt (mem s b) - 1), data (mem s b), timestamp (mem s b)).
Proof.
  unfold brelse_st. cbv zeta.
  destruct (refcnt _ =? 0).
  - rewrite link_head_meta, unlink_brelse_meta. rewrite !mem_upd_same. reflexivity.
  - rewrite !mem_upd_same. reflexivity.
Qed.

Lemma brelse_st_other (cpu : nat) (b : ptr) (s : state) (q : ptr) :
  q <> b -> meta (mem (brelse_st cpu b s) q) = meta (mem s q).
Proof.
  intros H. unfold brelse_st. cbv zeta.
  destruct (refcnt _ =? 0).
  - rewrite link_head_meta, unlink_brelse_meta.
    rewrite !mem_upd_other by exact H. reflexivity.
  - rewrite !mem_upd_other by exact H. reflexivity.
Qed.

Lemma brelse_st_wf (cpu : nat) (b : ptr) (s : state) :
  inv s -> (cpu < NCPU)%nat -> In b slots ->
  wf (brelse_st cpu b s) /\
  hashed (brelse_st cpu b s) /\
  forall h, In h sentinels ->
    list_of (brelse_st cpu b s) h =
    if wrap32 (refcnt (mem s b) - 1) =? 0
    then move_to b (PFree cpu) (list_of s) h
    else list_of s h.
Proof.
  intros Hinv Hcpu Hb.
  set (s0 := upd b (set_lock None) s).
  set (s2 := upd b (set_refcnt (wrap32 (refcnt (mem s0 b) - 1))) s0).
  assert (Hn2 : forall q, nxt s2 q = nxt s q).
  { intros q. unfold s2, s0. rewrite !nxt_upd by reflexivity. reflexivity. }
  assert (Hp2 : forall q, prv s2 q = prv s q).
  { intros q. unfold s2, s0. rewrite !prv_upd by reflexivity. reflexivity. }
  assert (Hid2 : forall q, dev (mem s2 q) = dev (mem s q) /\
                           blockno (mem s2 q) = blockno (mem s q)).
  { intros q. unfold s2, s0, upd; cbn [mem]. destruct (ptr_eqb q b); split; reflexivity. }
  assert (Hinv2 : inv s2).
  { apply (inv_same_lists s s2 Hn2 Hp2 Hid2); [|exact Hinv]. exact (proj2 (proj2 Hinv)). }
  assert (HL2 : forall h, list_of s2 h = list_of s h).
  { intros h. apply list_of_ext. exact Hn2. }
  assert (Hr : refcnt (mem s2 b) = wrap32 (refcnt (mem s b) - 1)).
  { unfold s2. rewrite mem_upd_same. unfold s0. rewrite mem_upd_same. reflexivity. }
  unfold brelse_st. cbv zeta. fold s0. fold s2. rewrite Hr.
  destruct (wrap32 (refcnt (mem s b) - 1) =? 0).
  - destruct Hinv2 as (Hwf2 & Hh2 & _).
    destruct (wf_slot_listed s2 b Hwf2 Hb) as (h0 & Hh0 & Hin).
    assert (Hrep : rep (link_head b (PFree cpu) (unlink_brelse b s2))
                       (move_to b (PFree cpu) (list_of s2))).
    { destruct Hwf2 as (Hrep2 & _).
      apply (rep_move s2 (unlink_brelse b s2) _ _ b h0 (PFree cpu) Hrep2 Hh0 Hin
               (free_sentinel cpu Hcpu)).
      - apply unlink_brelse_nxt.
      - apply unlink_brelse_prv.
      - apply link_head_nxt.
      - apply link_head_prv. }
    assert (HL : forall h, In h sentinels ->
              list_of (link_head b (PFree cpu) (unlink_brelse b s2)) h =
              move_to b (PFree cpu) (list_of s) h).
    { intros h Hs. rewrite (move_list_of s2 _ b _ h Hrep Hs).
      unfold move_to. rewrite HL2. reflexivity. }
    split; [|split; [|exact HL]].
    + apply (move_wf s2 _ b (PFree cpu) Hwf2 (free_sentinel cpu Hcpu) Hrep).
    + intros h x Hlt Hx. rewrite HL in Hx by (apply head_sentinel; exact Hlt).
      apply move_to_head_in in Hx. destruct Hx as [(_ & Heq)|(Hne & Hx)];
        [discriminate|].
      pose proof (link_head_meta b (PFree cpu) (unlink_brelse b s2) x) as Hm.
      rewrite unlink_brelse_meta in Hm. apply meta_fields in Hm.
      destruct Hm as (_ & -> & -> & _).
      apply Hh2; [exact Hlt|]. rewrite HL2. exact Hx.
  - destruct Hinv2 as (Hwf2 & Hh2 & _).
    split; [exact Hwf2|]. split; [exact Hh2|]. intros h _. apply HL2.
Qed.


(** ** The cases of [bget] and [bread] *)

Lemma first_match (P : ptr -> bool) (l : list ptr) :
  (forall x, In x l -> P x = false) \/
  exists l1 b l2, l = l1 ++ b :: l2 /\ P b = true /\ forall x, In x l1 -> P x = false.
Proof.
  induction l as [|a l IH].
  - left. intros x [].
  - destruct (P a) eqn:Ea.
    + right. exists [], a, l. split; [reflexivity|]. split; [exact Ea|]. intros x [].
    + destruct IH as [IH|(l1 & b & l2 & -> & Hb & Hno)].
      * left. intros x [<-|Hx]; [exact Ea|apply IH; exact Hx].
      * right. exists (a :: l1), b, l2. split; [reflexivity|]. split; [exact Hb|].
        intros x [<-|Hx]; [exact Ea|apply Hno; exact Hx].
Qed.

Lemma match_false (s : state) (d bn : Z) (x : ptr) :
  (dev (mem s x) =? d) && (blockno (mem s x) =? bn) = false ->
  dev (mem s x) <> d \/ blockno (mem s x) <> bn.
Proof.
  intros H. apply andb_false_iff in H.
  destruct H as [H|H]; apply Z.eqb_neq in H; auto.
Qed.

Lemma cached_or_not (s : state) (d bn : Z) :
  uncached s d bn \/ exists b, cached s d bn b.
Proof.
  destruct (first_match (fun x => (dev (mem s x) =? d) && (blockno (mem s x) =? bn))
                        (list_of s (PHead (bucket d bn))))
    as [H|(l1 & b & l2 & HL & Hb & Hno)].
  - left. intros x Hx. apply match_false. apply H. exact Hx.
  - right. exists b, l1, l2. apply andb_true_iff in Hb. destruct Hb as (Hd & Hb).
    apply Z.eqb_eq in Hd, Hb. repeat split; try assumption.
    intros x Hx. apply match_false. apply Hno. exact Hx.
Qed.

Lemma pool_order_lt (cpu c : nat) :
  (cpu < NCPU)%nat -> In c (pool_order cpu) -> (c < NCPU)%nat.
Proof.
  intros Hcpu [<-|Hc]; [exact Hcpu|].
  apply filter_In in Hc. destruct Hc as (Hc & _). apply in_seq in Hc. lia.
Qed.

Lemma bget_cases (ticks : Z) (cpu pid : nat) (d bn : Z) (s : state) :
  inv s -> (cpu < NCPU)%nat ->
  (exists b s1,
     cached s d bn b /\
     bget ticks cpu pid d bn s = grab pid b s1 /\
     mem s1 = mem (hit_st ticks b s) /\ quiescent s1 /\ disk s1 = disk s) \/
  (uncached s d bn /\
   exists a c s1,
     (c < NCPU)%nat /\ In a (list_of s (PFree c)) /\
     victim s (pool_order cpu) = Some a /\ refcnt (mem s a) = 0 /\
     bget ticks cpu pid d bn s = grab pid a s1 /\
     mem s1 = mem (recycle_st a (bucket d bn) d bn s) /\
     quiescent s1 /\ disk s1 = disk s) \/
  (uncached s d bn /\
   exists a, victim s (pool_order cpu) = Some a /\ refcnt (mem s a) <> 0 /\
   bget ticks cpu pid d bn s = Panic "bget: freelist is not free!"%string) \/
  (uncached s d bn /\ victim s (pool_order cpu) = None /\
   bget ticks cpu pid d bn s = Panic "bget: no buffers"%string).
Proof.
  intros (Hwf & Hh & Hq) Hcpu.
  destruct (cached_or_not s d bn) as [Hun|(b & Hc)].
  - right. pose proof (bget_miss ticks cpu pid d bn s Hq Hwf Hun Hcpu) as H.
    destruct (victim s (pool_order cpu)) as [a|] eqn:Ev.
    + destruct (refcnt (mem s a) =? 0) eqn:Er.
      * left. split; [exact Hun|]. apply Z.eqb_eq in Er.
        destruct (victim_in s _ a Ev) as (c & Hc & Ha).
        destruct H as (s1 & H1 & H2 & H3 & H4).
        exists a, c, s1. repeat split; try assumption.
        eapply pool_order_lt; eassumption.
      * right. left. split; [exact Hun|]. exists a. apply Z.eqb_neq in Er. auto.
    + right. right. auto.
  - left. destruct (bget_hit ticks cpu pid d bn s b Hq Hwf Hc) as (s1 & H).
    exists b, s1. tauto.
Qed.

Lemma bread_of_grab (ticks : Z) (cpu pid : nat) (d bn : Z) (s s1 : state) (b : ptr) :
  bget ticks cpu pid d bn s = grab pid b s1 ->
  bread ticks cpu pid d bn s = finish pid b s1.
Proof.
  intros H. unfold bread, bind. rewrite H. unfold grab, finish.
  destruct (lock (mem s1 b)); [reflexivity|]. apply bread_tail_spec.
Qed.

Lemma bread_of_panic (ticks : Z) (cpu pid : nat) (d bn : Z) (s : state) (msg : String.string) :
  bget ticks cpu pid d bn s = Panic msg ->
  bread ticks cpu pid d bn s = Panic msg.
Proof. intros H. unfold bread, bind. rewrite H. reflexivity. Qed.

Lemma bread_resume_spec (pid : nat) (b : ptr) (s : state) :
  bread_resume pid b s = finish pid b s.
Proof.
  unfold bread_resume, bind, acquiresleep, finish.
  destruct (lock (mem s b)); [reflexivity|]. apply bread_tail_spec.
Qed.

Lemma finish_done (pid : nat) (b b' : ptr) (s s' : state) :
  finish pid b s = Done b' s' ->
  b' = b /\ lock (mem s b) = None /\
  s' = read_st b (upd b (set_lock (Some pid)) s).
Proof.
  unfold finish. destruct (lock (mem s b)); [discriminate|].
  intros H. injection H as <- <-. auto.
Qed.

Lemma finish_sleeps (pid : nat) (b c : ptr) (s s' : state) :
  finish pid b s = Sleeps c s' ->
  c = b /\ lock (mem s b) <> None /\ s' = s.
Proof.
  unfold finish. destruct (lock (mem s b)); [|discriminate].
  intros H. injection H as <- <-. repeat split. discriminate.
Qed.

Lemma finish_inv_done (pid : nat) (b b' : ptr) (s s' : state) :
  inv s -> finish pid b s = Done b' s' -> inv s'.
Proof.
  intros Hi H. apply finish_done in H. destruct H as (_ & _ & ->).
  apply read_st_inv, upd_lock_inv. exact Hi.
Qed.

Lemma finish_inv_sleeps (pid : nat) (b c : ptr) (s s' : state) :
  inv s -> finish pid b s = Sleeps c s' -> inv s'.
Proof.
  intros Hi H. apply finish_sleeps in H. destruct H as (_ & _ & ->). exact Hi.
Qed.

(** The state that the spin-locked part of [bget] hands over satisfies the
    invariant. *)
Lemma bread_handover (ticks : Z) (cpu pid : nat) (d bn : Z) (s : state) :
  inv s -> (cpu < NCPU)%nat ->
  (exists b s1, bread ticks cpu pid d bn s = finish pid b s1 /\ inv s1) \/
  (exists msg, bread ticks cpu pid d bn s = Panic msg).
Proof.
  intros Hi Hcpu.
  destruct (bget_cases ticks cpu pid d bn s Hi Hcpu)
    as [(b & s1 & Hc & Hg & Hm & Hq & Hd)
       |[(Hun & a & c & s1 & Hc & Ha & Hv & Hr & Hg & Hm & Hq & Hd)
        |[(Hun & a & Hv & Hr & Hp)|(Hun & Hv & Hp)]]].
  - left. exists b, s1. split; [eapply bread_of_grab; exact Hg|].
    pose proof (hit_st_inv ticks b s Hi) as (Hw & Hh & _).
    apply (inv_mem_ext _ _ Hm Hq Hw Hh).
  - left. exists a, s1. split; [eapply bread_of_grab; exact Hg|].
    destruct (recycle_wf s a c d bn Hi Hc Ha) as (Hw & Hh & _).
    apply (inv_mem_ext _ _ Hm Hq Hw Hh).
  - right. eexists. apply bread_of_panic. exact Hp.
  - right. eexists. apply bread_of_panic. exact Hp.
Qed.

(** ** The invariant is kept by every step *)

Lemma binit_inv (ticks : Z) (s : state) :
  (0 < NCPU)%nat -> quiescent s -> inv (binit ticks s).
Proof.
  intros Hcpu Hq. split; [apply binit_wf; exact Hcpu|]. split.
  - intros h b Hlt Hb.
    rewrite (binit_list_of ticks s (PHead h) Hcpu (head_sentinel h Hlt)) in Hb.
    rewrite ptr_eqb_neq in Hb by discriminate. destruct Hb.
  - apply binit_locked. exact Hq.
Qed.

Lemma brelse_holding (cpu pid : nat) (b : ptr) (s s' : state) :
  brelse cpu pid b s = Done tt s' -> holdingsleep pid b s = true.
Proof.
  intros H. destruct (holdingsleep pid b s) eqn:E; [reflexivity|].
  rewrite (brelse_panic cpu pid b s E) in H. discriminate.
Qed.

Lemma bwrite_holding (pid : nat) (b : ptr) (s s' : state) :
  bwrite pid b s = Done tt s' -> holdingsleep pid b s = true.
Proof.
  intros H. destruct (holdingsleep pid b s) eqn:E; [reflexivity|].
  rewrite (bwrite_panic pid b s E) in H. discriminate.
Qed.

Lemma slot_in (i : nat) : (i < NBUF)%nat -> In (PBuf i) slots.
Proof. intros H. apply in_slots. exists i. auto. Qed.

Lemma step_inv (w w' : world) (o : op) :
  (0 < NCPU)%nat -> inv (kst w) -> step w o w' -> inv (kst w').
Proof.
  intros Hcpu Hi Hstep. destruct Hstep; cbn [kst] in *.
  - apply binit_inv; [exact Hcpu|apply Hi].
  - destruct (bread_handover ticks cpu pid d bn _ Hi H) as [(b0 & s1 & He & Hi1)|(msg & He)];
      rewrite He in H2; [|discriminate].
    eapply finish_inv_done; eassumption.
  - destruct (bread_handover ticks cpu pid d bn _ Hi H) as [(b0 & s1 & He & Hi1)|(msg & He)];
      rewrite He in H2; [|discriminate].
    eapply finish_inv_sleeps; eassumption.
  - rewrite bread_resume_spec in H0. eapply finish_inv_done; eassumption.
  - pose proof (bwrite_holding _ _ _ _ H1) as Hh.
    rewrite (bwrite_done _ _ _ Hh) in H1. injection H1 as <-.
    apply (inv_mem_ext (kst w)); [reflexivity|apply Hi|apply Hi|apply Hi].
  - pose proof (brelse_holding _ _ _ _ _ H2) as Hh.
    destruct (brelse_done cpu pid (PBuf i) (kst w) (proj2 (proj2 Hi)) Hh)
      as (s1 & He & Hm & Hq & _).
    rewrite He in H2. injection H2 as <-.
    destruct (brelse_st_wf cpu (PBuf i) (kst w) Hi H (slot_in i H0)) as (Hw & Hh' & _).
    apply (inv_mem_ext _ _ Hm Hq Hw Hh').
  - destruct (bpin_done (PBuf i) (kst w) (proj2 (proj2 Hi))) as (s1 & He & Hm & Hq & _).
    rewrite He in H0. injection H0 as <-.
    assert (Hi' : inv (upd (PBuf i)
                    (set_refcnt (wrap32 (refcnt (mem (kst w) (PBuf i)) + 1))) (kst w))).
    { apply (inv_same_lists (kst w)); [| | |apply Hi|exact Hi].
      - intros q. apply nxt_upd. reflexivity.
      - intros q. apply prv_upd. reflexivity.
      - intros q. unfold upd; cbn [mem]. destruct (ptr_eqb q (PBuf i)); split; reflexivity. }
    apply (inv_mem_ext _ _ Hm Hq); apply Hi'.
  - destruct (bunpin_done (PBuf i) (kst w) (proj2 (proj2 Hi))) as (s1 & He & Hm & Hq & _).
    rewrite He in H0. injection H0 as <-.
    assert (Hi' : inv (upd (PBuf i)
                    (set_refcnt (wrap32 (refcnt (mem (kst w) (PBuf i)) - 1))) (kst w))).
    { apply (inv_same_lists (kst w)); [| | |apply Hi|exact Hi].
      - intros q. apply nxt_upd. reflexivity.
      - intros q. apply prv_upd. reflexivity.
      - intros q. unfold upd; cbn [mem]. destruct (ptr_eqb q (PBuf i)); split; reflexivity. }
    apply (inv_mem_ext _ _ Hm Hq); apply Hi'.
Qed.

Lemma bss_quiescent : quiescent bss.
Proof. intros l. reflexivity. Qed.

Lemma reach_inv (allowed : world -> op -> Prop) (w : world) :
  (0 < NCPU)%nat -> reach allowed w -> inv (kst w).
Proof.
  intros Hcpu H. induction H as [ticks|w o w' _ IH _ Hs].
  - apply binit_inv; [exact Hcpu|apply bss_quiescent].
  - eapply step_inv; eassumption.
Qed.


(** ** Counting the slots *)

Lemma NoDup_concat_map (L : ptr -> list ptr) (hs : list ptr) :
  NoDup hs ->
  (forall h, In h hs -> NoDup (L h)) ->
  (forall h h' x, In h hs -> In h' hs -> In x (L h) -> In x (L h') -> h = h') ->
  NoDup (concat (map L hs)).
Proof.
  induction hs as [|h hs IH]; intros Hnd Hl Hdj; simpl; [constructor|].
  apply NoDup_cons_iff in Hnd. destruct Hnd as (Hh & Hnd).
  apply NoDup_app.
  - apply Hl. left. reflexivity.
  - apply IH; [exact Hnd| |].
    + intros h' Hh'. apply Hl. right. exact Hh'.
    + intros h1 h2 x H1 H2. apply Hdj; right; assumption.
  - intros x Hx Hin. apply in_concat in Hin. destruct Hin as (l & Hl' & Hxl).
    apply in_map_iff in Hl'. destruct Hl' as (h' & <- & Hh').
    assert (h = h').
    { apply (Hdj h h' x); [left; reflexivity|right; exact Hh'|exact Hx|exact Hxl]. }
    subst h'. contradiction.
Qed.

Lemma wf_permutation (s : state) :
  wf s -> Permutation (concat (map (list_of s) sentinels)) slots.
Proof.
  intros (((Hnd & Hsl & Hdj) & _) & Hcov).
  apply NoDup_Permutation.
  - apply NoDup_concat_map; [apply NoDup_sentinels|exact Hnd|exact Hdj].
  - apply NoDup_slots.
  - intros x. split.
    + intros Hin. apply in_concat in Hin. destruct Hin as (l & Hl & Hx).
      apply in_map_iff in Hl. destruct Hl as (h & <- & Hh).
      apply (Hsl h x Hh Hx).
    + intros Hx. destruct (Hcov x Hx) as (h & Hh & Hin).
      apply in_concat. exists (list_of s h). split; [|exact Hin].
      apply in_map. exact Hh.
Qed.

Lemma wf_count (s : state) :
  wf s ->
  list_sum (map (fun h => List.length (list_of s h)) sentinels) = NBUF.
Proof.
  intros Hwf. rewrite <- length_slots.
  rewrite <- (Permutation_length (wf_permutation s Hwf)).
  rewrite length_concat, map_map. reflexivity.
Qed.

Lemma wf_unique (s : state) (b h h' : ptr) :
  wf s -> In h sentinels -> In h' sentinels ->
  In b (list_of s h) -> In b (list_of s h') -> h = h'.
Proof.
  intros (((_ & _ & Hdj) & _) & _). apply Hdj.
Qed.


(** ** Reference counts along a run of proper use *)

Lemma waiting_cons (b c : ptr) (pid : nat) (sl : list (nat * ptr)) :
  waiting b ((pid, c) :: sl) =
  ((if ptr_eqb c b then 1 else 0) + waiting b sl)%nat.
Proof.
  unfold waiting. simpl. destruct (ptr_eqb c b); reflexivity.
Qed.

Lemma remove_absent (x : nat * ptr) (sl : list (nat * ptr)) :
  ~ In (fst x) (map fst sl) -> remove pair_eq_dec x sl = sl.
Proof.
  intros H. apply notin_remove. intros Hin. apply H. apply in_map. exact Hin.
Qed.

Lemma waiting_remove (b c : ptr) (pid : nat) (sl : list (nat * ptr)) :
  NoDup (map fst sl) -> In (pid, c) sl ->
  (waiting b (remove pair_eq_dec (pid, c) sl) + (if ptr_eqb c b then 1 else 0))%nat
  = waiting b sl.
Proof.
  induction sl as [|(p', c') sl IH]; intros Hnd Hin; [destruct Hin|].
  simpl in Hnd. apply NoDup_cons_iff in Hnd. destruct Hnd as (Hp & Hnd).
  cbn [remove]. destruct (pair_eq_dec (pid, c) (p', c')) as [E|E].
  - injection E as <- <-. rewrite (remove_absent (pid, c) sl Hp).
    rewrite waiting_cons. destruct (ptr_eqb c b); lia.
  - destruct Hin as [Hin|Hin]; [congruence|].
    rewrite !waiting_cons. rewrite <- (IH Hnd Hin).
    destruct (ptr_eqb c b); destruct (ptr_eqb c' b); lia.
Qed.

Lemma NoDup_fst_remove (x : nat * ptr) (sl : list (nat * ptr)) :
  NoDup (map fst sl) -> NoDup (map fst (remove pair_eq_dec x sl)).
Proof.
  induction sl as [|y sl IH]; intros Hnd; [constructor|].
  simpl in Hnd. apply NoDup_cons_iff in Hnd. destruct Hnd as (Hp & Hnd).
  simpl. destruct (pair_eq_dec x y); [apply IH; exact Hnd|].
  simpl. constructor; [|apply IH; exact Hnd].
  intros Hin. apply Hp. apply in_map_iff in Hin. destruct Hin as (z & Hz & Hin).
  apply in_remove in Hin. apply in_map_iff. exists z. tauto.
Qed.

Lemma pinned_cons (b x : ptr) (l : list ptr) :
  pinned b (x :: l) = ((if ptr_eqb x b then 1 else 0) + pinned b l)%nat.
Proof.
  unfold pinned, ptr_eqb. cbn [count_occ].
  destruct (ptr_eq_dec x b); reflexivity.
Qed.

Lemma pinned_le (b : ptr) (l : list ptr) : (pinned b l <= List.length l)%nat.
Proof.
  induction l as [|x l IH]; [apply Nat.le_refl|].
  rewrite pinned_cons. cbn [List.length]. destruct (ptr_eqb x b); lia.
Qed.

Lemma pinned_unpin_same (b : ptr) (l : list ptr) :
  In b l -> (pinned b (unpin_one b l) + 1)%nat = pinned b l.
Proof.
  induction l as [|x l IH]; intros Hin; [destruct Hin|].
  cbn [unpin_one]. rewrite pinned_cons. destruct (ptr_eqb x b) eqn:E; [lia|].
  rewrite pinned_cons, E. destruct Hin as [->|Hin].
  - rewrite ptr_eqb_refl in E. discriminate.
  - rewrite <- (IH Hin). lia.
Qed.

Lemma pinned_unpin_other (b q : ptr) (l : list ptr) :
  q <> b -> pinned q (unpin_one b l) = pinned q l.
Proof.
  intros Hne. induction l as [|x l IH]; [reflexivity|].
  cbn [unpin_one]. destruct (ptr_eqb x b) eqn:E.
  - apply ptr_eqb_true in E. subst x. rewrite pinned_cons.
    rewrite ptr_eqb_neq by congruence. reflexivity.
  - rewrite !pinned_cons, IH. reflexivity.
Qed.

Lemma unpin_one_length (b : ptr) (l : list ptr) :
  (List.length (unpin_one b l) <= List.length l)%nat.
Proof.
  induction l as [|x l IH]; [apply Nat.le_refl|].
  cbn [unpin_one]. destruct (ptr_eqb x b); cbn [List.length]; lia.
Qed.

Lemma sleepers_bound (w : world) (pid : nat) :
  refs_ok w -> awake pid w -> (pid < NPROC)%nat ->
  (List.length (sleepers w) < NPROC)%nat.
Proof.
  intros (Hnd & Hpid & _) Haw Hlt.
  assert (H : NoDup (pid :: map fst (sleepers w))) by (constructor; assumption).
  apply NoDup_incl_length with (l' := seq 0 NPROC) in H.
  - simpl in H. rewrite length_map, length_seq in H. lia.
  - intros x [<-|Hx]; [apply in_seq; lia|].
    apply in_map_iff in Hx. destruct Hx as ((p, b) & <- & Hin).
    destruct (Hpid p b Hin) as (Hp & _). apply in_seq. simpl. lia.
Qed.

Lemma sleepers_bound_le (w : world) :
  refs_ok w -> (List.length (sleepers w) <= NPROC)%nat.
Proof.
  intros (Hnd & Hpid & _).
  apply NoDup_incl_length with (l' := seq 0 NPROC) in Hnd.
  - rewrite length_map, length_seq in Hnd. exact Hnd.
  - intros x Hx. apply in_map_iff in Hx. destruct Hx as ((p, b) & <- & Hin).
    destruct (Hpid p b Hin) as (Hp & _). apply in_seq. simpl. lia.
Qed.

Lemma waiting_le (b : ptr) (sl : list (nat * ptr)) :
  (waiting b sl <= List.length sl)%nat.
Proof. unfold waiting. apply filter_length_le. Qed.

Lemma lockbit_range (x : buf) : 0 <= lockbit x <= 1.
Proof. unfold lockbit. destruct (lock x); lia. Qed.

Lemma wrap32_small (z : Z) : 0 <= z < 2 ^ 32 -> wrap32 z = z.
Proof. intros H. unfold wrap32. apply Z.mod_small. exact H. Qed.

Lemma wf_listed_slot (s : state) (h b : ptr) :
  wf s -> In h sentinels -> In b (list_of s h) -> In b slots.
Proof. intros (((_ & Hsl & _) & _) & _) Hh Hb. apply (Hsl h b Hh Hb). Qed.

Lemma finish_done_fields (pid : nat) (b b' : ptr) (s s' : state) :
  finish pid b s = Done b' s' ->
  b' = b /\ lock (mem s b) = None /\
  (forall q, refcnt (mem s' q) = refcnt (mem s q)) /\
  (forall q, lock (mem s' q) = if ptr_eqb q b then Some pid else lock (mem s q)) /\
  (forall h, list_of s' h = list_of s h).
Proof.
  intros H. apply finish_done in H. destruct H as (-> & Hl & ->).
  split; [reflexivity|]. split; [exact Hl|].
  set (s0 := upd b (set_lock (Some pid)) s).
  split; [|split].
  - intros q. destruct (read_st_fields b s0 q) as (_ & _ & _ & -> & _).
    unfold s0, upd; cbn [mem]. destruct (ptr_eqb q b); reflexivity.
  - intros q. destruct (read_st_fields b s0 q) as (_ & _ & -> & _).
    unfold s0, upd; cbn [mem]. destruct (ptr_eqb q b); reflexivity.
  - intros h. rewrite (list_of_ext s0 _ h (read_st_nxt b s0)).
    apply list_of_ext. intros q. apply nxt_upd. reflexivity.
Qed.

(** From the hand-over of [bget] to the return of [bread] or to sleep. *)
Lemma finish_refs (w : world) (pid : nat) (b : ptr) (s1 : state) :
  refs_ok w -> awake pid w -> (pid < NPROC)%nat -> In b slots ->
  (forall q, q <> b -> refcnt (mem s1 q) = refcnt (mem (kst w) q) /\
                       lock (mem s1 q) = lock (mem (kst w) q)) ->
  lock (mem s1 b) = lock (mem (kst w) b) ->
  refcnt (mem s1 b) =
    Z.of_nat (waiting b (sleepers w)) + lockbit (mem (kst w) b) +
    Z.of_nat (pinned b (pins w)) + 1 ->
  pools_free s1 ->
  (forall b' s', finish pid b s1 = Done b' s' ->
     refs_ok (mkWorld s' (sleepers w) (pins w)) /\ pools_free s') /\
  (forall c s', finish pid b s1 = Sleeps c s' ->
     refs_ok (mkWorld s' ((pid, c) :: sleepers w) (pins w)) /\ pools_free s').
Proof.
  intros (Hnd & Hpid & Hpin & Href) Haw Hlt Hb Hoth Hlk Hrc Hpf. split.
  - intros b' s' H. apply finish_done_fields in H.
    destruct H as (-> & Hnone & Hr & Hl & HL).
    split; [split; [exact Hnd|split; [exact Hpid|split; [exact Hpin|]]]|].
    + cbn [kst sleepers pins]. intros q Hq. rewrite Hr. unfold lockbit. rewrite Hl.
      destruct (ptr_eqb q b) eqn:E.
      * apply ptr_eqb_true in E. subst q. rewrite Hrc.
        unfold lockbit. rewrite <- Hlk, Hnone. lia.
      * assert (Hne : q <> b) by (intros ->; rewrite ptr_eqb_refl in E; discriminate).
        destruct (Hoth q Hne) as (-> & ->). apply (Href q Hq).
    + intros c x Hc Hx. rewrite HL in Hx. rewrite Hr. apply (Hpf c x Hc Hx).
  - intros c s' H. apply finish_sleeps in H. destruct H as (-> & _ & ->).
    split; [split; [|split; [|split]]|exact Hpf].
    + cbn [sleepers map fst]. constructor; [exact Haw|exact Hnd].
    + cbn [sleepers]. intros p x [E|Hin]; [injection E as <- <-; auto|].
      apply (Hpid p x Hin).
    + exact Hpin.
    + cbn [kst sleepers pins]. intros q Hq. rewrite waiting_cons.
      destruct (ptr_eqb b q) eqn:E.
      * apply ptr_eqb_true in E. subst q. rewrite Hrc.
        unfold lockbit. rewrite Hlk. lia.
      * assert (Hne : q <> b) by (intros ->; rewrite ptr_eqb_refl in E; discriminate).
        destruct (Hoth q Hne) as (-> & Hlq). unfold lockbit. rewrite Hlq.
        rewrite (Href q Hq). unfold lockbit. lia.
Qed.

Lemma head_not_free (s : state) (b : ptr) (h c : nat) :
  wf s -> (h < HASHSIZE)%nat -> (c < NCPU)%nat ->
  In b (list_of s (PHead h)) -> In b (list_of s (PFree c)) -> False.
Proof.
  intros Hwf Hh Hc H1 H2.
  pose proof (wf_unique s b _ _ Hwf (head_sentinel h Hh) (free_sentinel c Hc) H1 H2).
  discriminate.
Qed.

Lemma cached_in (s : state) (d bn : Z) (b : ptr) :
  cached s d bn b -> In b (list_of s (PHead (bucket d bn))).
Proof.
  intros (l1 & l2 & -> & _). apply in_or_app. right. left. reflexivity.
Qed.

(** [bread] keeps the reference counts right and the free lists free. *)
Lemma bread_refs (w : world) (ticks : Z) (cpu pid : nat) (d bn : Z) :
  Z.of_nat NPROC + Z.of_nat NPIN + 1 < 2 ^ 32 ->
  inv (kst w) -> refs_ok w -> pools_free (kst w) ->
  (cpu < NCPU)%nat -> (pid < NPROC)%nat -> awake pid w ->
  (forall b s', bread ticks cpu pid d bn (kst w) = Done b s' ->
     refs_ok (mkWorld s' (sleepers w) (pins w)) /\ pools_free s') /\
  (forall c s', bread ticks cpu pid d bn (kst w) = Sleeps c s' ->
     refs_ok (mkWorld s' ((pid, c) :: sleepers w) (pins w)) /\ pools_free s').
Proof.
  intros Hproc Hi Hrefs Hpf Hcpu Hpid Haw.
  pose proof Hi as (Hwf & Hh & Hq).
  pose proof Hrefs as (Hnd & Hsl & Hpin & Href).
  destruct (bget_cases ticks cpu pid d bn (kst w) Hi Hcpu)
    as [(b & s1 & Hc & Hg & Hm & _ & _)
       |[(Hun & a & c & s1 & Hc & Ha & Hv & Hr & Hg & Hm & _ & _)
        |[(Hun & a & Hv & Hr & Hp)|(Hun & Hv & Hp)]]].
  - rewrite (bread_of_grab _ _ _ _ _ _ _ _ Hg).
    pose proof (cached_in _ _ _ _ Hc) as Hin.
    assert (Hb : In b slots).
    { apply (wf_listed_slot (kst w) (PHead (bucket d bn)) b Hwf); [|exact Hin].
      apply head_sentinel, bucket_lt. }
    apply (finish_refs w pid b s1 Hrefs Haw Hpid Hb).
    + intros q Hne. rewrite Hm, (hit_st_other ticks b (kst w) q Hne). auto.
    + rewrite Hm, hit_st_slot. reflexivity.
    + rewrite Hm, hit_st_slot. cbn [refcnt set_timestamp set_refcnt].
      rewrite (Href b Hb).
      pose proof (sleepers_bound w pid Hrefs Haw Hpid).
      pose proof (waiting_le b (sleepers w)).
      pose proof (pinned_le b (pins w)).
      pose proof (lockbit_range (mem (kst w) b)).
      apply wrap32_small. lia.
    + intros c x Hc' Hx.
      rewrite (list_of_mem_ext _ _ _ Hm) in Hx.
      rewrite (list_of_ext (kst w) _ _ (hit_st_nxt ticks b (kst w))) in Hx.
      assert (Hne : x <> b).
      { intros ->. apply (head_not_free (kst w) b (bucket d bn) c Hwf
                            (bucket_lt d bn) Hc' Hin Hx). }
      rewrite Hm, (hit_st_other ticks b (kst w) x Hne). apply (Hpf c x Hc' Hx).
  - rewrite (bread_of_grab _ _ _ _ _ _ _ _ Hg).
    assert (Hb : In a slots).
    { apply (wf_listed_slot (kst w) (PFree c) a Hwf); [|exact Ha].
      apply free_sentinel. exact Hc. }
    pose proof (recycle_st_slot a (bucket d bn) d bn (kst w)) as Hslot.
    apply meta_values in Hslot. destruct Hslot as (_ & _ & _ & Hl & Hrc & _).
    apply (finish_refs w pid a s1 Hrefs Haw Hpid Hb).
    + intros q Hne. rewrite Hm.
      pose proof (recycle_st_other a (bucket d bn) d bn (kst w) q Hne) as Ho.
      apply meta_fields in Ho. tauto.
    + rewrite Hm. exact Hl.
    + rewrite Hm, Hrc.
      pose proof (Href a Hb) as Hra. rewrite Hr in Hra.
      pose proof (lockbit_range (mem (kst w) a)). lia.
    + destruct (recycle_wf (kst w) a c d bn Hi Hc Ha) as (_ & _ & HL).
      intros c' x Hc' Hx.
      rewrite (list_of_mem_ext _ _ _ Hm) in Hx.
      rewrite (HL _ (free_sentinel c' Hc')) in Hx.
      apply move_to_head_in in Hx. destruct Hx as [(_ & Hx)|(Hne & Hx)];
        [discriminate|].
      rewrite Hm.
      pose proof (recycle_st_other a (bucket d bn) d bn (kst w) x Hne) as Ho.
      apply meta_fields in Ho. destruct Ho as (_ & _ & _ & _ & -> & _).
      apply (Hpf c' x Hc' Hx).
  - rewrite (bread_of_panic _ _ _ _ _ _ _ Hp). split; intros; discriminate.
  - rewrite (bread_of_panic _ _ _ _ _ _ _ Hp). split; intros; discriminate.
Qed.

Lemma wakeup_refs (w : world) (pid : nat) (b b' : ptr) (s' : state) :
  refs_ok w -> pools_free (kst w) -> In (pid, b) (sleepers w) ->
  finish pid b (kst w) = Done b' s' ->
  refs_ok (mkWorld s' (remove pair_eq_dec (pid, b) (sleepers w)) (pins w)) /\
  pools_free s'.
Proof.
  intros (Hnd & Hsl & Hpin & Href) Hpf Hin H.
  apply finish_done_fields in H. destruct H as (-> & Hnone & Hr & Hl & HL).
  split; [split; [|split; [|split]]|].
  - cbn [sleepers]. apply NoDup_fst_remove. exact Hnd.
  - cbn [sleepers]. intros p x Hx. apply in_remove in Hx. apply (Hsl p x). tauto.
  - exact Hpin.
  - cbn [kst sleepers pins]. intros q Hq. rewrite Hr. unfold lockbit. rewrite Hl.
    rewrite (Href q Hq).
    pose proof (waiting_remove q b pid (sleepers w) Hnd Hin) as Hw.
    destruct (ptr_eqb q b) eqn:E.
    + apply ptr_eqb_true in E. subst q. rewrite ptr_eqb_refl in Hw.
      unfold lockbit. rewrite Hnone. lia.
    + assert (E' : ptr_eqb b q = false).
      { apply ptr_eqb_neq. intros ->. rewrite ptr_eqb_refl in E. discriminate. }
      rewrite E' in Hw. unfold lockbit. lia.
  - intros c x Hc Hx. rewrite HL in Hx. rewrite Hr. apply (Hpf c x Hc Hx).
Qed.

Lemma holdingsleep_lock (pid : nat) (b : ptr) (s : state) :
  holdingsleep pid b s = true -> lock (mem s b) = Some pid.
Proof.
  unfold holdingsleep. destruct (lock (mem s b)); [|discriminate].
  intros H. apply Nat.eqb_eq in H. congruence.
Qed.

Lemma brelse_refs (w : world) (cpu pid i : nat) (s' : state) :
  Z.of_nat NPROC + Z.of_nat NPIN + 1 < 2 ^ 32 ->
  inv (kst w) -> refs_ok w -> pools_free (kst w) ->
  (cpu < NCPU)%nat -> (i < NBUF)%nat ->
  brelse cpu pid (PBuf i) (kst w) = Done tt s' ->
  refs_ok (mkWorld s' (sleepers w) (pins w)) /\ pools_free s'.
Proof.
  intros Hproc Hi Hrefs Hpf Hcpu Hlt H.
  pose proof Hi as (Hwf & Hh & Hq).
  pose proof Hrefs as (Hnd & Hsl & Hpin & Href).
  set (b := PBuf i) in *.
  assert (Hb : In b slots) by (apply slot_in; exact Hlt).
  pose proof (brelse_holding _ _ _ _ _ H) as Hhold.
  destruct (brelse_done cpu pid b (kst w) Hq Hhold) as (s1 & He & Hm & _ & _).
  rewrite He in H. injection H as <-.
  apply holdingsleep_lock in Hhold.
  assert (Hrb : refcnt (mem (kst w) b) =
                Z.of_nat (waiting b (sleepers w)) + 1 + Z.of_nat (pinned b (pins w))).
  { rewrite (Href b Hb). unfold lockbit. rewrite Hhold. reflexivity. }
  assert (Hw : wrap32 (refcnt (mem (kst w) b) - 1) =
               Z.of_nat (waiting b (sleepers w)) + Z.of_nat (pinned b (pins w))).
  { rewrite Hrb.
    replace (Z.of_nat (waiting b (sleepers w)) + 1 + Z.of_nat (pinned b (pins w)) - 1)
      with (Z.of_nat (waiting b (sleepers w)) + Z.of_nat (pinned b (pins w))) by lia.
    apply wrap32_small.
    pose proof (sleepers_bound_le w Hrefs). pose proof (waiting_le b (sleepers w)).
    pose proof (pinned_le b (pins w)). lia. }
  pose proof (brelse_st_slot cpu b (kst w)) as Hslot.
  apply meta_values in Hslot. destruct Hslot as (_ & _ & _ & Hl & Hrc & _).
  assert (Hoth : forall q, q <> b ->
            refcnt (mem s1 q) = refcnt (mem (kst w) q) /\
            lock (mem s1 q) = lock (mem (kst w) q)).
  { intros q Hne. rewrite Hm.
    pose proof (brelse_st_other cpu b (kst w) q Hne) as Ho.
    apply meta_fields in Ho. tauto. }
  split; [split; [exact Hnd|split; [exact Hsl|split; [exact Hpin|]]]|].
  - cbn [kst sleepers pins]. intros q Hq'. destruct (ptr_eq_dec q b) as [->|Hne].
    + unfold lockbit. rewrite Hm, Hl, Hrc, Hw. lia.
    + destruct (Hoth q Hne) as (-> & Hlq). unfold lockbit. rewrite Hlq.
      apply (Href q Hq').
  - destruct (brelse_st_wf cpu b (kst w) Hi Hcpu Hb) as (_ & _ & HL).
    intros c x Hc Hx.
    rewrite (list_of_mem_ext _ _ _ Hm) in Hx.
    rewrite (HL _ (free_sentinel c Hc)) in Hx.
    destruct (wrap32 (refcnt (mem (kst w) b) - 1) =? 0) eqn:Ez.
    + apply Z.eqb_eq in Ez.
      apply move_to_head_in in Hx. destruct Hx as [(-> & _)|(Hne & Hx)].
      * rewrite Hm, Hrc. exact Ez.
      * destruct (Hoth x Hne) as (-> & _). apply (Hpf c x Hc Hx).
    + destruct (ptr_eq_dec x b) as [->|Hne].
      * pose proof (Hpf c b Hc Hx) as H0. rewrite Hrb in H0. lia.
      * destruct (Hoth x Hne) as (-> & _). apply (Hpf c x Hc Hx).
Qed.

(** A change of the reference count of a slot that is in no free list, to
    the count that the book-keeping asks for. *)
Lemma recount_refs (w : world) (s' : state) (b : ptr) (v : Z) (pl : list ptr) :
  refs_ok w -> pools_free (kst w) -> In b slots ->
  refcnt (mem (kst w) b) <> 0 ->
  mem s' = mem (upd b (set_refcnt v) (kst w)) ->
  (List.length pl <= NPIN)%nat ->
  (forall q, q <> b -> pinned q pl = pinned q (pins w)) ->
  v = Z.of_nat (waiting b (sleepers w)) + lockbit (mem (kst w) b) +
      Z.of_nat (pinned b pl) ->
  refs_ok (mkWorld s' (sleepers w) pl) /\ pools_free s'.
Proof.
  intros (Hnd & Hsl & Hpin & Href) Hpf Hb Hnz Hm Hlen Hoth Hv.
  split; [split; [exact Hnd|split; [exact Hsl|split; [exact Hlen|]]]|].
  - cbn [kst sleepers pins]. intros q Hq. rewrite Hm.
    destruct (ptr_eq_dec q b) as [->|Hne].
    + rewrite mem_upd_same. unfold lockbit. cbn [refcnt lock set_refcnt]. exact Hv.
    + rewrite (mem_upd_other b _ (kst w) q Hne), (Hoth q Hne). apply (Href q Hq).
  - intros c x Hc Hx.
    assert (HL : list_of s' (PFree c) = list_of (kst w) (PFree c)).
    { rewrite (list_of_mem_ext _ _ _ Hm). apply list_of_ext.
      intros q. apply nxt_upd. reflexivity. }
    rewrite HL in Hx. rewrite Hm.
    destruct (ptr_eq_dec x b) as [->|Hne].
    + exfalso. apply Hnz. apply (Hpf c b Hc Hx).
    + rewrite (mem_upd_other b _ (kst w) x Hne). apply (Hpf c x Hc Hx).
Qed.

Lemma bpin_refs (w : world) (i : nat) (s' : state) :
  Z.of_nat NPROC + Z.of_nat NPIN + 1 < 2 ^ 32 ->
  inv (kst w) -> refs_ok w -> pools_free (kst w) -> (i < NBUF)%nat ->
  refcnt (mem (kst w) (PBuf i)) <> 0 -> (List.length (pins w) < NPIN)%nat ->
  bpin (PBuf i) (kst w) = Done tt s' ->
  refs_ok (mkWorld s' (sleepers w) (PBuf i :: pins w)) /\ pools_free s'.
Proof.
  intros Hproc Hi Hrefs Hpf Hlt Hnz Hlen H.
  destruct (bpin_done (PBuf i) (kst w) (proj2 (proj2 Hi))) as (s1 & He & Hm & _ & _).
  rewrite He in H. injection H as <-.
  pose proof Hrefs as (_ & _ & _ & Href).
  apply (recount_refs w s1 (PBuf i) _ _ Hrefs Hpf (slot_in i Hlt) Hnz Hm).
  - cbn [List.length]. lia.
  - intros q Hne. rewrite pinned_cons. rewrite ptr_eqb_neq by congruence. reflexivity.
  - rewrite pinned_cons, ptr_eqb_refl. rewrite (Href _ (slot_in i Hlt)).
    pose proof (sleepers_bound_le w Hrefs).
    pose proof (waiting_le (PBuf i) (sleepers w)).
    pose proof (pinned_le (PBuf i) (pins w)).
    pose proof (lockbit_range (mem (kst w) (PBuf i))).
    rewrite wrap32_small by lia. lia.
Qed.

Lemma bunpin_refs (w : world) (i : nat) (s' : state) :
  Z.of_nat NPROC + Z.of_nat NPIN + 1 < 2 ^ 32 ->
  inv (kst w) -> refs_ok w -> pools_free (kst w) -> (i < NBUF)%nat ->
  In (PBuf i) (pins w) ->
  bunpin (PBuf i) (kst w) = Done tt s' ->
  refs_ok (mkWorld s' (sleepers w) (unpin_one (PBuf i) (pins w))) /\ pools_free s'.
Proof.
  intros Hproc Hi Hrefs Hpf Hlt Hin H.
  destruct (bunpin_done (PBuf i) (kst w) (proj2 (proj2 Hi))) as (s1 & He & Hm & _ & _).
  rewrite He in H. injection H as <-.
  pose proof Hrefs as (_ & _ & Hpin & Href).
  pose proof (pinned_unpin_same (PBuf i) (pins w) Hin) as Hone.
  pose proof (sleepers_bound_le w Hrefs).
  pose proof (waiting_le (PBuf i) (sleepers w)).
  pose proof (pinned_le (PBuf i) (pins w)).
  pose proof (lockbit_range (mem (kst w) (PBuf i))).
  pose proof (Href _ (slot_in i Hlt)) as Hr.
  assert (Hnz : refcnt (mem (kst w) (PBuf i)) <> 0) by lia.
  apply (recount_refs w s1 (PBuf i) _ _ Hrefs Hpf (slot_in i Hlt) Hnz Hm).
  - pose proof (unpin_one_length (PBuf i) (pins w)). lia.
  - intros q Hne. apply pinned_unpin_other. exact Hne.
  - rewrite wrap32_small by lia. lia.
Qed.

Lemma step_refs (w w' : world) (o : op) :
  Z.of_nat NPROC + Z.of_nat NPIN + 1 < 2 ^ 32 -> proper_use w o ->
  inv (kst w) -> refs_ok w -> pools_free (kst w) -> step w o w' ->
  refs_ok w' /\ pools_free (kst w').
Proof.
  intros Hproc Ho Hi Hrefs Hpf Hstep. destruct Hstep; cbn [kst proper_use] in *.
  - destruct Ho.
  - destruct (bread_refs w ticks cpu pid d bn Hproc Hi Hrefs Hpf H H0 H1) as (Hd & _).
    eapply Hd. eassumption.
  - destruct (bread_refs w ticks cpu pid d bn Hproc Hi Hrefs Hpf H H0 H1) as (_ & Hs).
    eapply Hs. eassumption.
  - rewrite bread_resume_spec in H0. eapply wakeup_refs; eassumption.
  - pose proof (bwrite_holding _ _ _ _ H1) as Hh.
    rewrite (bwrite_done _ _ _ Hh) in H1. injection H1 as <-.
    split; [exact Hrefs|exact Hpf].
  - eapply brelse_refs; eassumption.
  - destruct Ho as (Hnz & Hlen). eapply bpin_refs; eassumption.
  - eapply bunpin_refs; eassumption.
Qed.

Lemma boot_refs (ticks : Z) :
  (0 < NCPU)%nat ->
  refs_ok (mkWorld (binit ticks bss) [] []) /\ pools_free (binit ticks bss).
Proof.
  intros Hcpu. split; [split; [constructor|split; [|split]]|].
  - intros pid b [].
  - cbn [pins List.length]. lia.
  - cbn [kst sleepers pins]. intros b Hb. rewrite binit_refcnt.
    unfold lockbit. rewrite (binit_lock ticks bss b Hb). reflexivity.
  - intros c b _ _. rewrite binit_refcnt. reflexivity.
Qed.

Lemma reach_refs (w : world) :
  (0 < NCPU)%nat -> Z.of_nat NPROC + Z.of_nat NPIN + 1 < 2 ^ 32 ->
  reach proper_use w -> refs_ok w /\ pools_free (kst w).
Proof.
  intros Hcpu Hproc H. induction H as [ticks|w o w' Hr IH Ho Hs].
  - apply boot_refs. exact Hcpu.
  - destruct IH as (Hrefs & Hpf).
    apply (step_refs w w' o Hproc Ho (reach_inv _ w Hcpu Hr) Hrefs Hpf Hs).
Qed.

(** ** The properties of the cache *)

(** C1.  In every state that [binit], [bread], [bwrite], [brelse], [bpin]
    and [bunpin] can reach, in any order and on any slots, the pointers of
    every sentinel draw a circular doubly linked list without repetition,
    every one of the [NBUF] slots is in the list of exactly one sentinel (a
    bucket or a free list), and the lengths of all the lists add up to
    [NBUF]. *)
Theorem C1_every_slot_in_exactly_one_list (w : world) :
  (0 < NCPU)%nat ->
  reach any_op w ->
  (forall h, In h sentinels ->
     cyc (kst w) h (list_of (kst w) h) /\ NoDup (list_of (kst w) h)) /\
  (forall i, (i < NBUF)%nat ->
     exists h, In h sentinels /\ In (PBuf i) (list_of (kst w) h) /\
               forall h', In h' sentinels -> In (PBuf i) (list_of (kst w) h') -> h' = h) /\
  list_sum (map (fun h => List.length (list_of (kst w) h)) sentinels) = NBUF.
Proof.
  intros Hcpu Hr. pose proof (reach_inv any_op w Hcpu Hr) as (Hwf & _).
  split; [|split].
  - intros h Hh. destruct Hwf as (((Hnd & _) & Hc) & _). split; [apply Hc|apply Hnd]; exact Hh.
  - intros i Hi. destruct (wf_slot_listed (kst w) (PBuf i) Hwf (slot_in i Hi)) as (h & Hh & Hin).
    exists h. split; [exact Hh|]. split; [exact Hin|].
    intros h' Hh' Hin'. apply (wf_unique (kst w) (PBuf i) h' h Hwf Hh' Hh Hin' Hin).
  - apply wf_count. exact Hwf.
Qed.

(** C2.  Along a run that boots with [binit] and then uses the cache
    properly (any fetch, commit and release that does not panic, processes
    sleeping and waking up in between; pins only of referenced buffers, at
    most [NPIN] at a time; unpins only of pinned buffers), every slot of
    every free list has a reference count of zero; and in any reachable
    state, when the scan of [bget] for a buffer to recycle meets, at the
    tail of the first free list that is not empty, a slot whose reference
    count is not zero, [bget] (and [bread] with it) panics with
    "bget: freelist is not free!" instead of recycling the slot. *)
Theorem C2_free_slots_unreferenced :
  (0 < NCPU)%nat -> Z.of_nat NPROC + Z.of_nat NPIN + 1 < 2 ^ 32 ->
  (forall w c b,
     reach proper_use w -> (c < NCPU)%nat ->
     In b (list_of (kst w) (PFree c)) -> refcnt (mem (kst w) b) = 0) /\
  (forall w ticks cpu pid d bn a,
     reach any_op w -> (cpu < NCPU)%nat -> uncached (kst w) d bn ->
     victim (kst w) (pool_order cpu) = Some a ->
     refcnt (mem (kst w) a) <> 0 ->
     bget ticks cpu pid d bn (kst w) = Panic "bget: freelist is not free!"%string /\
     bread ticks cpu pid d bn (kst w) = Panic "bget: freelist is not free!"%string).
Proof.
  intros Hcpu Hproc. split.
  - intros w c b Hr Hc Hb.
    destruct (reach_refs w Hcpu Hproc Hr) as (_ & Hpf). apply (Hpf c b Hc Hb).
  - intros w ticks cpu pid d bn a Hr Hc Hun Hv Hne.
    pose proof (reach_inv any_op w Hcpu Hr) as (Hwf & _ & Hq).
    pose proof (bget_miss ticks cpu pid d bn (kst w) Hq Hwf Hun Hc) as H.
    rewrite Hv in H. apply Z.eqb_neq in Hne. rewrite Hne in H.
    split; [exact H|apply bread_of_panic; exact H].
Qed.


(** *** Spin-locks that the routines need *)

Lemma bget_spins (ticks : Z) (cpu pid : nat) (d bn : Z) (s : state) :
  locked s (HeadLk (bucket d bn)) = true ->
  bget ticks cpu pid d bn s = Spins (HeadLk (bucket d bn)).
Proof. intros H. unfold bget, bind, acquire. rewrite H. reflexivity. Qed.

Lemma brelse_spins (cpu pid : nat) (b : ptr) (s : state) :
  holdingsleep pid b s = true ->
  locked s (HeadLk (bucket (dev (mem s b)) (blockno (mem s b)))) = true ->
  brelse cpu pid b s = Spins (HeadLk (bucket (dev (mem s b)) (blockno (mem s b)))).
Proof.
  intros Hh H. unfold brelse. unfold bind at 1. unfold gets at 1. rewrite Hh. cbn [negb].
  unfold bind at 1. unfold releasesleep, modify.
  unfold bind at 1. unfold gets at 1.
  unfold bind at 1. unfold acquire.
  assert (E : mem (upd b (set_lock None) s) b = set_lock None (mem s b))
    by apply mem_upd_same.
  rewrite E. cbn [dev blockno set_lock locked upd]. rewrite H. reflexivity.
Qed.

Lemma bunpin_spins (b : ptr) (s : state) :
  locked s (HeadLk (bucket (dev (mem s b)) (blockno (mem s b)))) = true ->
  bunpin b s = Spins (HeadLk (bucket (dev (mem s b)) (blockno (mem s b)))).
Proof. intros H. unfold bunpin, bind, gets, acquire. rewrite H. reflexivity. Qed.

(** *** Runs *)

Lemma done_state_of {A : Type} (o : outcome A) (s0 : state) :
  is_done o = true -> exists a, o = Done a (state_of o s0).
Proof. destruct o; try discriminate. intros _. exists a. reflexivity. Qed.

Lemma reach_bread (allowed : world -> op -> Prop) (w : world)
      (ticks : Z) (cpu pid : nat) (d bn : Z) :
  reach allowed w -> allowed w (OpBread ticks cpu pid d bn) ->
  (cpu < NCPU)%nat -> (pid < NPROC)%nat -> awake pid w ->
  is_done (bread ticks cpu pid d bn (kst w)) = true ->
  reach allowed (mkWorld (state_of (bread ticks cpu pid d bn (kst w)) (kst w))
                         (sleepers w) (pins w)).
Proof.
  intros Hr Ha Hc Hp Haw Hd.
  destruct (done_state_of _ (kst w) Hd) as (b & E).
  eapply reach_step; [exact Hr|exact Ha|].
  eapply step_bread_done; eassumption.
Qed.

Lemma reach_brelse (allowed : world -> op -> Prop) (w : world) (cpu pid i : nat) :
  reach allowed w -> allowed w (OpBrelse cpu pid i) ->
  (cpu < NCPU)%nat -> (i < NBUF)%nat -> awake pid w ->
  is_done (brelse cpu pid (PBuf i) (kst w)) = true ->
  reach allowed (mkWorld (state_of (brelse cpu pid (PBuf i) (kst w)) (kst w))
                         (sleepers w) (pins w)).
Proof.
  intros Hr Ha Hc Hi Haw Hd.
  destruct (done_state_of _ (kst w) Hd) as ([] & E).
  eapply reach_step; [exact Hr|exact Ha|].
  eapply step_brelse; eassumption.
Qed.

Lemma reach_bpin (allowed : world -> op -> Prop) (w : world) (i : nat) :
  reach allowed w -> allowed w (OpBpin i) -> (i < NBUF)%nat ->
  is_done (bpin (PBuf i) (kst w)) = true ->
  reach allowed (mkWorld (state_of (bpin (PBuf i) (kst w)) (kst w))
                         (sleepers w) (PBuf i :: pins w)).
Proof.
  intros Hr Ha Hi Hd.
  destruct (done_state_of _ (kst w) Hd) as ([] & E).
  eapply reach_step; [exact Hr|exact Ha|].
  eapply step_bpin; eassumption.
Qed.

Lemma reach_bunpin (allowed : world -> op -> Prop) (w : world) (i : nat) :
  reach allowed w -> allowed w (OpBunpin i) -> (i < NBUF)%nat ->
  is_done (bunpin (PBuf i) (kst w)) = true ->
  reach allowed (mkWorld (state_of (bunpin (PBuf i) (kst w)) (kst w))
                         (sleepers w) (unpin_one (PBuf i) (pins w))).
Proof.
  intros Hr Ha Hi Hd.
  destruct (done_state_of _ (kst w) Hd) as ([] & E).
  eapply reach_step; [exact Hr|exact Ha|].
  eapply step_bunpin; eassumption.
Qed.

(** *** The hit *)

(** C3, amended.  On a hit, that is when the slot [b] is the first of the
    bucket of ([d], [bn]) with that identity, [bget] takes the lock of the
    bucket (it spins for ever when the lock is never released), adds one
    to the reference count of [b], sets its time stamp to the clock, and
    releases the lock; no link changes, so that every list, the bucket
    included, keeps its order and [b] stays where it was; then [bget]
    returns [b] with its sleep-lock taken, or sleeps when the sleep-lock
    is held. *)
Theorem C3_hit_keeps_position
        (s : state) (ticks : Z) (cpu pid : nat) (d bn : Z) (b : ptr) :
  inv s -> cached s d bn b ->
  (forall s0, locked s0 (HeadLk (bucket d bn)) = true ->
              bget ticks cpu pid d bn s0 = Spins (HeadLk (bucket d bn))) /\
  exists s1,
    (lock (mem s b) = None ->
     bget ticks cpu pid d bn s = Done b (upd b (set_lock (Some pid)) s1)) /\
    (lock (mem s b) <> None -> bget ticks cpu pid d bn s = Sleeps b s1) /\
    refcnt (mem s1 b) = wrap32 (refcnt (mem s b) + 1) /\
    timestamp (mem s1 b) = ticks /\
    (forall q, nxt s1 q = nxt s q /\ prv s1 q = prv s q) /\
    (forall h, list_of s1 h = list_of s h) /\
    (forall q, q <> b -> mem s1 q = mem s q) /\
    quiescent s1.
Proof.
  intros (Hwf & Hh & Hq) Hc. split; [intros s0; apply bget_spins|].
  destruct (bget_hit ticks cpu pid d bn s b Hq Hwf Hc) as (s1 & Hg & Hm & Hq1 & _).
  assert (Hl : lock (mem s1 b) = lock (mem s b)).
  { rewrite Hm, hit_st_slot. reflexivity. }
  exists s1. split; [|split; [|split; [|split; [|split; [|split; [|split]]]]]].
  - intros Hn. rewrite Hg. unfold grab. rewrite Hl, Hn. reflexivity.
  - intros Hn. rewrite Hg. unfold grab. rewrite Hl.
    destruct (lock (mem s b)); [reflexivity|congruence].
  - rewrite Hm, hit_st_slot. reflexivity.
  - rewrite Hm, hit_st_slot. reflexivity.
  - intros q. unfold nxt, prv. rewrite Hm. split; [apply hit_st_nxt|apply hit_st_prv].
  - intros h. rewrite (list_of_mem_ext _ _ _ Hm).
    apply list_of_ext. apply hit_st_nxt.
  - intros q Hne. rewrite Hm. apply hit_st_other. exact Hne.
  - exact Hq1.
Qed.


(** *** Recycling and release, list by list *)

Lemma victim_first (s : state) (c : nat) (cs2 : list nat) (l : list ptr) (a : ptr) :
  forall cs1,
    (forall c', In c' cs1 -> list_of s (PFree c') = []) ->
    list_of s (PFree c) = l ++ [a] ->
    victim s (cs1 ++ c :: cs2) = Some a.
Proof.
  induction cs1 as [|c1 cs1 IH]; intros He Hl; simpl.
  - rewrite Hl, rev_app_distr. reflexivity.
  - rewrite (He c1 (or_introl eq_refl)). simpl. apply IH; [|exact Hl].
    intros c' Hc'. apply He. right. exact Hc'.
Qed.

Lemma victim_none (s : state) (cs : list nat) :
  (forall c, In c cs -> list_of s (PFree c) = []) -> victim s cs = None.
Proof.
  induction cs as [|c cs IH]; intros He; simpl; [reflexivity|].
  rewrite (He c (or_introl eq_refl)). simpl. apply IH.
  intros c' Hc'. apply He. right. exact Hc'.
Qed.

Lemma grab_done (pid : nat) (b : ptr) (s1 : state) :
  lock (mem s1 b) = None -> grab pid b s1 = Done b (upd b (set_lock (Some pid)) s1).
Proof. intros H. unfold grab. rewrite H. reflexivity. Qed.

Lemma grab_sleeps (pid : nat) (b : ptr) (s1 : state) :
  lock (mem s1 b) <> None -> grab pid b s1 = Sleeps b s1.
Proof. intros H. unfold grab. destruct (lock (mem s1 b)); [reflexivity|congruence]. Qed.

(** What the spin-locked part of a miss leaves: the slot [a], taken from
    its free list, is at the head of the bucket with the new identity. *)
Lemma bget_recycles (s : state) (ticks : Z) (cpu pid : nat) (d bn : Z) (a : ptr) :
  inv s -> (cpu < NCPU)%nat -> uncached s d bn ->
  victim s (pool_order cpu) = Some a -> refcnt (mem s a) = 0 ->
  exists s1,
    bget ticks cpu pid d bn s = grab pid a s1 /\
    inv s1 /\ disk s1 = disk s /\
    list_of s1 (PHead (bucket d bn)) = a :: list_of s (PHead (bucket d bn)) /\
    (forall c, (c < NCPU)%nat ->
       list_of s1 (PFree c) = remove ptr_eq_dec a (list_of s (PFree c))) /\
    (forall h, (h < HASHSIZE)%nat -> h <> bucket d bn ->
       list_of s1 (PHead h) = list_of s (PHead h)) /\
    meta (mem s1 a) = (0, d, bn, lock (mem s a), 1, data (mem s a), timestamp (mem s a)) /\
    (forall q, q <> a -> meta (mem s1 q) = meta (mem s q)).
Proof.
  intros Hi Hcpu Hun Hv Hr.
  pose proof Hi as (Hwf & Hh & Hq).
  pose proof (bget_miss ticks cpu pid d bn s Hq Hwf Hun Hcpu) as H.
  rewrite Hv in H. apply Z.eqb_eq in Hr. rewrite Hr in H.
  destruct H as (s1 & Hg & Hm & Hq1 & Hd).
  destruct (victim_in s _ a Hv) as (c & Hc & Ha).
  pose proof (pool_order_lt cpu c Hcpu Hc) as Hclt.
  destruct (recycle_wf s a c d bn Hi Hclt Ha) as (Hw1 & Hh1 & HL).
  assert (HL1 : forall h, In h sentinels ->
             list_of s1 h = move_to a (PHead (bucket d bn)) (list_of s) h).
  { intros h Hs. rewrite (list_of_mem_ext _ _ _ Hm). apply HL. exact Hs. }
  exists s1. split; [exact Hg|]. split; [apply (inv_mem_ext _ _ Hm Hq1 Hw1 Hh1)|].
  split; [exact Hd|]. split; [|split; [|split; [|split]]].
  - rewrite (HL1 _ (head_sentinel _ (bucket_lt d bn))). unfold move_to.
    rewrite ptr_eqb_refl. f_equal. apply notin_remove.
    intros Hin. apply (head_not_free s a (bucket d bn) c Hwf (bucket_lt d bn) Hclt Hin Ha).
  - intros c' Hc'. rewrite (HL1 _ (free_sentinel _ Hc')). unfold move_to.
    rewrite ptr_eqb_neq by discriminate. reflexivity.
  - intros h Hlt Hne. rewrite (HL1 _ (head_sentinel _ Hlt)). unfold move_to.
    rewrite ptr_eqb_neq by congruence. apply notin_remove.
    intros Hin. apply (head_not_free s a h c Hwf Hlt Hclt Hin Ha).
  - rewrite Hm. apply recycle_st_slot.
  - intros q Hne. rewrite Hm. apply recycle_st_other. exact Hne.
Qed.

(** What [brelse] leaves when the caller holds the sleep-lock. *)
Lemma brelse_releases (s : state) (cpu pid i : nat) :
  inv s -> (cpu < NCPU)%nat -> (i < NBUF)%nat ->
  holdingsleep pid (PBuf i) s = true ->
  exists s',
    brelse cpu pid (PBuf i) s = Done tt s' /\
    inv s' /\ disk s' = disk s /\
    meta (mem s' (PBuf i)) =
      (valid (mem s (PBuf i)), dev (mem s (PBuf i)), blockno (mem s (PBuf i)), None,
       wrap32 (refcnt (mem s (PBuf i)) - 1), data (mem s (PBuf i)),
       timestamp (mem s (PBuf i))) /\
    (forall q, q <> PBuf i -> meta (mem s' q) = meta (mem s q)) /\
    (forall h, In h sentinels ->
       list_of s' h =
       if wrap32 (refcnt (mem s (PBuf i)) - 1) =? 0
       then move_to (PBuf i) (PFree cpu) (list_of s) h
       else list_of s h).
Proof.
  intros Hi Hcpu Hlt Hh.
  destruct (brelse_done cpu pid (PBuf i) s (proj2 (proj2 Hi)) Hh)
    as (s1 & He & Hm & Hq & Hd).
  destruct (brelse_st_wf cpu (PBuf i) s Hi Hcpu (slot_in i Hlt)) as (Hw & Hh' & HL).
  exists s1. split; [exact He|]. split; [apply (inv_mem_ext _ _ Hm Hq Hw Hh')|].
  split; [exact Hd|]. split; [|split].
  - rewrite Hm. apply brelse_st_slot.
  - intros q Hne. rewrite Hm. apply brelse_st_other. exact Hne.
  - intros h Hs. rewrite (list_of_mem_ext _ _ _ Hm). apply HL. exact Hs.
Qed.

Lemma holdingsleep_meta (pid : nat) (b : ptr) (s s' : state) :
  meta (mem s' b) = meta (mem s b) -> holdingsleep pid b s' = holdingsleep pid b s.
Proof.
  intros H. apply meta_fields in H. destruct H as (_ & _ & _ & Hl & _).
  unfold holdingsleep. rewrite Hl. reflexivity.
Qed.

Lemma uncached_nil (s : state) (d bn : Z) :
  list_of s (PHead (bucket d bn)) = [] -> uncached s d bn.
Proof. intros H x Hx. rewrite H in Hx. destruct Hx. Qed.


(** *** Release at the head, recycling from the tail *)

(** C4.  [brelse] puts a slot whose reference count falls to zero at the
    head of the free list of its CPU; a miss of [bget] recycles the last
    slot of the first free list, in the order of [pool_order], that is not
    empty; so, when the slots [A] and [B] are released in that order on a
    CPU whose free list was empty, the free list is [B; A] and a miss of
    [bget] on that CPU returns [A], leaving [B]. *)
Theorem C4_release_at_head_recycle_from_tail (s : state) (cpu : nat) :
  inv s -> (cpu < NCPU)%nat ->
  (forall pid i,
     (i < NBUF)%nat -> holdingsleep pid (PBuf i) s = true ->
     wrap32 (refcnt (mem s (PBuf i)) - 1) = 0 ->
     exists s',
       brelse cpu pid (PBuf i) s = Done tt s' /\
       list_of s' (PFree cpu) =
         PBuf i :: remove ptr_eq_dec (PBuf i) (list_of s (PFree cpu))) /\
  (forall ticks pid d bn cs1 c cs2 l a,
     pool_order cpu = cs1 ++ c :: cs2 ->
     (forall c', In c' cs1 -> list_of s (PFree c') = []) ->
     list_of s (PFree c) = l ++ [a] ->
     refcnt (mem s a) = 0 -> lock (mem s a) = None -> uncached s d bn ->
     exists s1,
       bget ticks cpu pid d bn s = Done a s1 /\
       list_of s1 (PFree c) = l /\
       list_of s1 (PHead (bucket d bn)) = a :: list_of s (PHead (bucket d bn))) /\
  (forall ticks pidA pidB pid iA iB d bn,
     (iA < NBUF)%nat -> (iB < NBUF)%nat -> iA <> iB ->
     list_of s (PFree cpu) = [] ->
     holdingsleep pidA (PBuf iA) s = true ->
     holdingsleep pidB (PBuf iB) s = true ->
     refcnt (mem s (PBuf iA)) = 1 -> refcnt (mem s (PBuf iB)) = 1 ->
     exists s1 s2,
       brelse cpu pidA (PBuf iA) s = Done tt s1 /\
       brelse cpu pidB (PBuf iB) s1 = Done tt s2 /\
       list_of s2 (PFree cpu) = [PBuf iB; PBuf iA] /\
       (uncached s2 d bn ->
        exists s3,
          bget ticks cpu pid d bn s2 = Done (PBuf iA) s3 /\
          list_of s3 (PFree cpu) = [PBuf iB] /\
          hd_error (list_of s3 (PHead (bucket d bn))) = Some (PBuf iA))).
Proof.
  intros Hi Hcpu. split; [|split].
  - intros pid i Hlt Hh Hz.
    destruct (brelse_releases s cpu pid i Hi Hcpu Hlt Hh) as (s' & He & _ & _ & _ & _ & HL).
    exists s'. split; [exact He|].
    rewrite (HL _ (free_sentinel cpu Hcpu)), Hz. cbn [Z.eqb].
    unfold move_to. rewrite ptr_eqb_refl. reflexivity.
  - intros ticks pid d bn cs1 c cs2 l a Hpo He Hl Hr Hlk Hun.
    assert (Hv : victim s (pool_order cpu) = Some a).
    { rewrite Hpo. apply (victim_first s c cs2 l a cs1 He Hl). }
    assert (Hc : (c < NCPU)%nat).
    { apply (pool_order_lt cpu c Hcpu). rewrite Hpo. apply in_or_app. right. left. reflexivity. }
    destruct (bget_recycles s ticks cpu pid d bn a Hi Hcpu Hun Hv Hr)
      as (s1 & Hg & _ & _ & HLh & HLf & _ & Hma & _).
    apply meta_values in Hma. destruct Hma as (_ & _ & _ & Hl1 & _).
    exists (upd a (set_lock (Some pid)) s1).
    split; [rewrite Hg; apply grab_done; congruence|].
    assert (Hsame : forall h, list_of (upd a (set_lock (Some pid)) s1) h = list_of s1 h).
    { intros h. apply list_of_ext. intros q. apply nxt_upd. reflexivity. }
    rewrite !Hsame. split; [|exact HLh].
    rewrite (HLf c Hc), Hl.
    rewrite (remove_split a l []); [apply app_nil_r|].
    rewrite <- Hl. destruct Hi as ((((Hnd & _) & _) & _) & _).
    apply Hnd. apply free_sentinel. exact Hc.
  - intros ticks pidA pidB pid iA iB d bn HA HB Hne Hnil HhA HhB HrA HrB.
    assert (HneP : PBuf iB <> PBuf iA) by congruence.
    destruct (brelse_releases s cpu pidA iA Hi Hcpu HA HhA)
      as (s1 & He1 & Hi1 & _ & Hm1 & Ho1 & HL1).
    rewrite HrA in HL1, Hm1. change (wrap32 (1 - 1)) with 0 in HL1, Hm1.
    cbn [Z.eqb] in HL1.
    assert (HhB1 : holdingsleep pidB (PBuf iB) s1 = true).
    { rewrite (holdingsleep_meta pidB _ s s1 (Ho1 _ HneP)). exact HhB. }
    assert (HrB1 : refcnt (mem s1 (PBuf iB)) = 1).
    { pose proof (Ho1 _ HneP) as H. apply meta_fields in H.
      destruct H as (_ & _ & _ & _ & -> & _). exact HrB. }
    destruct (brelse_releases s1 cpu pidB iB Hi1 Hcpu HB HhB1)
      as (s2 & He2 & Hi2 & _ & Hm2 & Ho2 & HL2).
    rewrite HrB1 in HL2. change (wrap32 (1 - 1)) with 0 in HL2. cbn [Z.eqb] in HL2.
    assert (Hp2 : list_of s2 (PFree cpu) = [PBuf iB; PBuf iA]).
    { rewrite (HL2 _ (free_sentinel cpu Hcpu)). unfold move_to.
      rewrite ptr_eqb_refl. rewrite (HL1 _ (free_sentinel cpu Hcpu)). unfold move_to.
      rewrite ptr_eqb_refl, Hnil. cbn [remove].
      destruct (ptr_eq_dec (PBuf iB) (PBuf iA)); [congruence|reflexivity]. }
    exists s1, s2. split; [exact He1|]. split; [exact He2|]. split; [exact Hp2|].
    intros Hun.
    assert (HmA2 : meta (mem s2 (PBuf iA)) = meta (mem s1 (PBuf iA))).
    { apply Ho2. congruence. }
    apply meta_fields in HmA2. destruct HmA2 as (_ & _ & _ & HlA & HrA2 & _).
    apply meta_values in Hm1. destruct Hm1 as (_ & _ & _ & HlA1 & HrA1 & _).
    assert (Hv : victim s2 (pool_order cpu) = Some (PBuf iA)).
    { unfold pool_order. cbn [victim]. rewrite Hp2. reflexivity. }
    destruct (bget_recycles s2 ticks cpu pid d bn (PBuf iA) Hi2 Hcpu Hun Hv)
      as (s3 & Hg & _ & _ & HLh & HLf & _ & Hma & _); [congruence|].
    apply meta_values in Hma. destruct Hma as (_ & _ & _ & Hl3 & _).
    exists (upd (PBuf iA) (set_lock (Some pid)) s3).
    split; [rewrite Hg; apply grab_done; congruence|].
    assert (Hsame : forall h, list_of (upd (PBuf iA) (set_lock (Some pid)) s3) h
                              = list_of s3 h).
    { intros h. apply list_of_ext. intros q. apply nxt_upd. reflexivity. }
    rewrite !Hsame. split.
    + rewrite (HLf cpu Hcpu), Hp2. cbn [remove].
      destruct (ptr_eq_dec (PBuf iA) (PBuf iB)); [congruence|].
      destruct (ptr_eq_dec (PBuf iA) (PBuf iA)); [reflexivity|congruence].
    + rewrite HLh. reflexivity.
Qed.

(** *** The miss *)

Lemma bread_valid (ticks : Z) (cpu pid : nat) (d bn : Z) (s s' : state) (b : ptr) :
  bread ticks cpu pid d bn s = Done b s' -> valid (mem s' b) <> 0.
Proof.
  unfold bread, bind. destruct (bget ticks cpu pid d bn s); try discriminate.
  rewrite bread_tail_spec. intros H. injection H as <- <-. apply read_st_valid.
Qed.

Lemma bread_resume_valid (pid : nat) (b b' : ptr) (s s' : state) :
  bread_resume pid b s = Done b' s' -> valid (mem s' b') <> 0.
Proof.
  rewrite bread_resume_spec. intros H. apply finish_done in H.
  destruct H as (-> & _ & ->). apply read_st_valid.
Qed.

(** C5.  On a miss, with a slot [a] to recycle (the tail of the first
    free list that is not empty) whose reference count is zero, [bget]
    puts [a] at the head of the bucket of ([d], [bn]) and takes it out of
    its free list, with identity ([d], [bn]), [valid] zero and a reference
    count of one; with the sleep-lock of [a] free, [bget] returns [a]
    locked, and [bread] then reads the block from the disk into [a] and
    sets [valid] to one.  Whatever the state, a buffer that [bread]
    returns, at once or after a sleep, is valid. *)
Theorem C5_miss_recycles_then_reads
        (s : state) (ticks : Z) (cpu pid : nat) (d bn : Z) (a : ptr) :
  inv s -> (cpu < NCPU)%nat -> uncached s d bn ->
  victim s (pool_order cpu) = Some a -> refcnt (mem s a) = 0 ->
  lock (mem s a) = None ->
  (exists s1,
     bget ticks cpu pid d bn s = Done a s1 /\
     list_of s1 (PHead (bucket d bn)) = a :: list_of s (PHead (bucket d bn)) /\
     (forall c, (c < NCPU)%nat ->
        list_of s1 (PFree c) = remove ptr_eq_dec a (list_of s (PFree c))) /\
     dev (mem s1 a) = d /\ blockno (mem s1 a) = bn /\
     valid (mem s1 a) = 0 /\ refcnt (mem s1 a) = 1 /\
     lock (mem s1 a) = Some pid /\
     exists s2,
       bread ticks cpu pid d bn s = Done a s2 /\
       valid (mem s2 a) = 1 /\ data (mem s2 a) = disk s d bn /\
       dev (mem s2 a) = d /\ blockno (mem s2 a) = bn /\ refcnt (mem s2 a) = 1 /\
       lock (mem s2 a) = Some pid /\
       forall h, list_of s2 h = list_of s1 h) /\
  (forall t c p d' bn' s0 b s', bread t c p d' bn' s0 = Done b s' -> valid (mem s' b) <> 0) /\
  (forall p b0 s0 b s', bread_resume p b0 s0 = Done b s' -> valid (mem s' b) <> 0).
Proof.
  intros Hi Hcpu Hun Hv Hr Hlk.
  split; [|split; [intros; eapply bread_valid; eassumption
                  |intros; eapply bread_resume_valid; eassumption]].
  destruct (bget_recycles s ticks cpu pid d bn a Hi Hcpu Hun Hv Hr)
    as (s1 & Hg & _ & Hd & HLh & HLf & _ & Hma & _).
  apply meta_values in Hma. destruct Hma as (Hva & Hda & Hba & Hl1 & Hr1 & _).
  set (s1' := upd a (set_lock (Some pid)) s1).
  assert (Hsame : forall h, list_of s1' h = list_of s1 h).
  { intros h. apply list_of_ext. intros q. apply nxt_upd. reflexivity. }
  assert (Hm1 : mem s1' a = set_lock (Some pid) (mem s1 a)) by apply mem_upd_same.
  exists s1'. split; [rewrite Hg; apply grab_done; congruence|].
  split; [rewrite Hsame; exact HLh|].
  split; [intros c Hc; rewrite Hsame; apply HLf; exact Hc|].
  rewrite Hm1. cbn [dev blockno valid refcnt lock set_lock].
  split; [exact Hda|]. split; [exact Hba|]. split; [exact Hva|]. split; [exact Hr1|].
  split; [reflexivity|].
  exists (read_st a s1'). split.
  - rewrite (bread_of_grab _ _ _ _ _ _ _ _ Hg). unfold finish.
    rewrite Hl1, Hlk. reflexivity.
  - assert (Hv0 : (valid (mem s1' a) =? 0) = true).
    { rewrite Hm1. cbn [valid set_lock]. rewrite Hva. reflexivity. }
    unfold read_st. rewrite Hv0. rewrite !mem_upd_same, Hm1.
    cbn [valid dev blockno refcnt lock data set_valid set_data set_lock].
    rewrite Hda, Hba. change (disk s1' ) with (disk s1). rewrite Hd.
    repeat split; try assumption.
    intros h. apply list_of_ext. intros q. rewrite !nxt_upd by reflexivity. reflexivity.
Qed.


(** *** Release *)

(** C6.  [brelse] on a slot whose sleep-lock the caller does not hold
    panics with "brelse".  Otherwise it frees the sleep-lock, takes the
    lock of the bucket that [hash] gives for the identity of the slot,
    which is the bucket the slot is in (it spins for ever when that lock
    is never released), subtracts one from the reference count and leaves
    the other fields as they were; when the new count is zero the slot
    leaves its list and becomes the head of the free list of the CPU that
    runs [brelse], every other list keeping its other buffers in order;
    when the new count is not zero no list changes.  No spin-lock is held
    at the return. *)
Theorem C6_release (s : state) (cpu pid i : nat) :
  inv s -> (cpu < NCPU)%nat -> (i < NBUF)%nat ->
  (holdingsleep pid (PBuf i) s = false ->
   brelse cpu pid (PBuf i) s = Panic "brelse"%string) /\
  (holdingsleep pid (PBuf i) s = true ->
   (forall h, (h < HASHSIZE)%nat -> In (PBuf i) (list_of s (PHead h)) ->
      bucket (dev (mem s (PBuf i))) (blockno (mem s (PBuf i))) = h /\
      forall s0, mem s0 = mem s -> locked s0 (HeadLk h) = true ->
                 brelse cpu pid (PBuf i) s0 = Spins (HeadLk h)) /\
   exists s',
     brelse cpu pid (PBuf i) s = Done tt s' /\
     meta (mem s' (PBuf i)) =
       (valid (mem s (PBuf i)), dev (mem s (PBuf i)), blockno (mem s (PBuf i)), None,
        wrap32 (refcnt (mem s (PBuf i)) - 1), data (mem s (PBuf i)),
        timestamp (mem s (PBuf i))) /\
     (forall q, q <> PBuf i -> meta (mem s' q) = meta (mem s q)) /\
     (refcnt (mem s' (PBuf i)) = 0 ->
      list_of s' (PFree cpu) =
        PBuf i :: remove ptr_eq_dec (PBuf i) (list_of s (PFree cpu)) /\
      forall h, In h sentinels -> h <> PFree cpu ->
                list_of s' h = remove ptr_eq_dec (PBuf i) (list_of s h)) /\
     (refcnt (mem s' (PBuf i)) <> 0 ->
      forall h, In h sentinels -> list_of s' h = list_of s h) /\
     quiescent s' /\ disk s' = disk s).
Proof.
  intros Hi Hcpu Hlt. split; [apply brelse_panic|]. intros Hh. split.
  - intros h Hhlt Hin. destruct Hi as (_ & Hhash & _).
    pose proof (Hhash h (PBuf i) Hhlt Hin) as Hb. split; [exact Hb|].
    intros s0 Hm Hl. rewrite <- Hb. rewrite <- Hm. apply brelse_spins.
    + unfold holdingsleep in *. rewrite Hm. exact Hh.
    + rewrite Hm, Hb. exact Hl.
  - destruct (brelse_releases s cpu pid i Hi Hcpu Hlt Hh)
      as (s' & He & Hi' & Hd & Hm & Ho & HL).
    exists s'. split; [exact He|]. split; [exact Hm|]. split; [exact Ho|].
    pose proof Hm as Hm'. apply meta_values in Hm'.
    destruct Hm' as (_ & _ & _ & _ & Hr & _).
    split; [|split; [|split; [apply Hi'|exact Hd]]].
    + intros Hz. rewrite Hr in Hz. split.
      * rewrite (HL _ (free_sentinel cpu Hcpu)), Hz. cbn [Z.eqb].
        unfold move_to. rewrite ptr_eqb_refl. reflexivity.
      * intros h Hs Hne. rewrite (HL h Hs), Hz. cbn [Z.eqb].
        unfold move_to. rewrite ptr_eqb_neq by exact Hne. reflexivity.
    + intros Hnz h Hs. rewrite Hr in Hnz. rewrite (HL h Hs).
      apply Z.eqb_neq in Hnz. rewrite Hnz. reflexivity.
Qed.

(** *** Exhaustion *)

(** C7.  On a miss with every free list empty, [bget] looks at the free
    list of its CPU and then at each of the others, finds nothing and
    panics with "bget: no buffers": it does not return and does not
    sleep; [bread] stops with it. *)
Theorem C7_no_buffers_panics
        (s : state) (ticks : Z) (cpu pid : nat) (d bn : Z) :
  inv s -> (cpu < NCPU)%nat -> uncached s d bn ->
  (forall c, (c < NCPU)%nat -> list_of s (PFree c) = []) ->
  bget ticks cpu pid d bn s = Panic "bget: no buffers"%string /\
  bread ticks cpu pid d bn s = Panic "bget: no buffers"%string.
Proof.
  intros (Hwf & _ & Hq) Hcpu Hun He.
  pose proof (bget_miss ticks cpu pid d bn s Hq Hwf Hun Hcpu) as H.
  rewrite victim_none in H.
  - split; [exact H|apply bread_of_panic; exact H].
  - intros c Hc. apply He. apply (pool_order_lt cpu c Hcpu Hc).
Qed.

(** *** Commit *)

(** C8.  [bwrite] on a buffer whose sleep-lock the caller does not hold
    panics with "bwrite".  Otherwise it copies the payload of the buffer
    to the block ([dev], [blockno]) of the disk and changes nothing else:
    the other blocks of the disk, every field of every buffer ([valid],
    [refcnt], the links, the sleep-lock) and the spin-locks are as
    before. *)
Theorem C8_commit_writes_through (s : state) (pid : nat) (b : ptr) :
  (holdingsleep pid b s = false -> bwrite pid b s = Panic "bwrite"%string) /\
  (holdingsleep pid b s = true ->
   exists s',
     bwrite pid b s = Done tt s' /\
     disk s' (dev (mem s b)) (blockno (mem s b)) = data (mem s b) /\
     (forall d' bn', d' <> dev (mem s b) \/ bn' <> blockno (mem s b) ->
                     disk s' d' bn' = disk s d' bn') /\
     mem s' = mem s /\ locked s' = locked s /\
     (forall h, list_of s' h = list_of s h) /\
     holdingsleep pid b s' = true).
Proof.
  split; [apply bwrite_panic|]. intros Hh.
  exists (set_disk (dev (mem s b)) (blockno (mem s b)) (data (mem s b)) s).
  split; [apply bwrite_done; exact Hh|]. split; [|split; [|split; [|split; [|split]]]].
  - unfold set_disk; cbn [disk]. rewrite !Z.eqb_refl. reflexivity.
  - intros d' bn' Hne. unfold set_disk; cbn [disk].
    destruct Hne as [Hne|Hne]; apply Z.eqb_neq in Hne; rewrite Hne;
      [reflexivity|rewrite andb_false_r; reflexivity].
  - reflexivity.
  - reflexivity.
  - intros h. reflexivity.
  - exact Hh.
Qed.

(** *** Unpin *)

(** C9.  [bunpin] on a slot of a bucket takes the lock of that bucket (it
    spins for ever when the lock is never released), subtracts one from
    the reference count of the slot and releases the lock; no other field
    of any buffer changes and every list is as before: also when the count
    falls to zero the slot stays in its bucket and is in no free list. *)
Theorem C9_unpin_changes_refcnt_only (s : state) (i h : nat) :
  inv s -> (i < NBUF)%nat -> (h < HASHSIZE)%nat ->
  In (PBuf i) (list_of s (PHead h)) ->
  (forall s0, mem s0 = mem s -> locked s0 (HeadLk h) = true ->
              bunpin (PBuf i) s0 = Spins (HeadLk h)) /\
  exists s',
    bunpin (PBuf i) s = Done tt s' /\
    (forall q, mem s' q =
               if ptr_eqb q (PBuf i)
               then set_refcnt (wrap32 (refcnt (mem s (PBuf i)) - 1)) (mem s (PBuf i))
               else mem s q) /\
    (forall h', list_of s' h' = list_of s h') /\
    In (PBuf i) (list_of s' (PHead h)) /\
    (forall c, (c < NCPU)%nat -> ~ In (PBuf i) (list_of s' (PFree c))) /\
    quiescent s' /\ disk s' = disk s.
Proof.
  intros Hi Hlt Hh Hin. pose proof Hi as (Hwf & Hhash & Hq). split.
  - intros s0 Hm Hl. rewrite <- (Hhash h (PBuf i) Hh Hin). rewrite <- Hm.
    apply bunpin_spins. rewrite Hm, (Hhash h (PBuf i) Hh Hin). exact Hl.
  - destruct (bunpin_done (PBuf i) s Hq) as (s' & He & Hm & Hq' & Hd).
    assert (HL : forall h', list_of s' h' = list_of s h').
    { intros h'. rewrite (list_of_mem_ext _ _ _ Hm).
      apply list_of_ext. intros q. apply nxt_upd. reflexivity. }
    exists s'. split; [exact He|]. split; [|split; [exact HL|split; [|split; [|split]]]].
    + intros q. rewrite Hm. unfold upd; cbn [mem].
      destruct (ptr_eqb q (PBuf i)) eqn:E; [|reflexivity].
      apply ptr_eqb_true in E. subst q. reflexivity.
    + rewrite HL. exact Hin.
    + intros c Hc Hin'. rewrite HL in Hin'.
      apply (head_not_free s (PBuf i) h c Hwf Hh Hc Hin Hin').
    + exact Hq'.
    + exact Hd.
Qed.

Lemma bunpin_never_panics (b : ptr) (s : state) (msg : String.string) :
  bunpin b s <> Panic msg.
Proof.
  unfold bunpin, bind, gets, acquire, modify, release.
  destruct (locked s _); discriminate.
Qed.

(** C10.  [bunpin] checks nothing: whoever holds the sleep-lock of the
    slot, if anyone, and whatever the reference count, it never panics
    and, with the lock of the bucket free, returns with the count less
    one modulo 2^32; from a count of zero the count becomes
    4294967295. *)
Theorem C10_unpin_unchecked (s : state) (b : ptr) :
  quiescent s ->
  (forall s0 msg, bunpin b s0 <> Panic msg) /\
  exists s',
    bunpin b s = Done tt s' /\
    refcnt (mem s' b) = wrap32 (refcnt (mem s b) - 1) /\
    lock (mem s' b) = lock (mem s b) /\
    (refcnt (mem s b) = 0 -> refcnt (mem s' b) = 4294967295).
Proof.
  intros Hq. split; [intros s0 msg; apply bunpin_never_panics|].
  destruct (bunpin_done b s Hq) as (s' & He & Hm & _ & _).
  exists s'. split; [exact He|].
  assert (Hr : refcnt (mem s' b) = wrap32 (refcnt (mem s b) - 1)).
  { rewrite Hm, mem_upd_same. reflexivity. }
  split; [exact Hr|]. split.
  - rewrite Hm, mem_upd_same. reflexivity.
  - intros H0. rewrite Hr, H0. reflexivity.
Qed.


Lemma done_val_of (o : outcome ptr) (p0 : ptr) (s0 : state) :
  is_done o = true -> o = Done (val_of o p0) (state_of o s0).
Proof. destruct o; try discriminate. reflexivity. Qed.

Lemma run_bread (allowed : world -> op -> Prop) (s : state)
      (sl : list (nat * ptr)) (pl : list ptr)
      (ticks : Z) (cpu pid : nat) (d bn : Z) :
  reach allowed (mkWorld s sl pl) ->
  allowed (mkWorld s sl pl) (OpBread ticks cpu pid d bn) ->
  (cpu < NCPU)%nat -> (pid < NPROC)%nat -> ~ In pid (map fst sl) ->
  is_done (bread ticks cpu pid d bn s) = true ->
  reach allowed (mkWorld (after_bread ticks cpu pid d bn s) sl pl).
Proof. intros Hr. apply (reach_bread allowed (mkWorld s sl pl) _ _ _ _ _ Hr). Qed.

Lemma run_brelse (allowed : world -> op -> Prop) (s : state)
      (sl : list (nat * ptr)) (pl : list ptr) (cpu pid i : nat) :
  reach allowed (mkWorld s sl pl) ->
  allowed (mkWorld s sl pl) (OpBrelse cpu pid i) ->
  (cpu < NCPU)%nat -> (i < NBUF)%nat -> ~ In pid (map fst sl) ->
  is_done (brelse cpu pid (PBuf i) s) = true ->
  reach allowed (mkWorld (after_brelse cpu pid i s) sl pl).
Proof. intros Hr. apply (reach_brelse allowed (mkWorld s sl pl) _ _ _ Hr). Qed.

Lemma run_bpin (allowed : world -> op -> Prop) (s : state)
      (sl : list (nat * ptr)) (pl : list ptr) (i : nat) :
  reach allowed (mkWorld s sl pl) -> allowed (mkWorld s sl pl) (OpBpin i) ->
  (i < NBUF)%nat ->
  is_done (bpin (PBuf i) s) = true ->
  reach allowed (mkWorld (after_bpin i s) sl (PBuf i :: pl)).
Proof. intros Hr. apply (reach_bpin allowed (mkWorld s sl pl) _ Hr). Qed.

Lemma run_boot (allowed : world -> op -> Prop) (ticks : Z) :
  reach allowed (mkWorld (boot ticks) [] []).
Proof. apply reach_boot. Qed.

Lemma run_inv (allowed : world -> op -> Prop) (s : state)
      (sl : list (nat * ptr)) (pl : list ptr) :
  (0 < NCPU)%nat -> reach allowed (mkWorld s sl pl) -> inv s.
Proof. intros Hc Hr. apply (reach_inv allowed (mkWorld s sl pl) Hc Hr). Qed.

(** ** Further properties of the routines *)

(** *** [hash] *)


Lemma hash_nonneg (d bn : Z) : 0 <= hash d bn.
Proof.
  unfold hash. apply Z.mod_pos_bound. unfold HASHSIZE. lia.
Qed.


(** *** [binit] *)

Lemma same_payload_refl (s : state) : same_payload s s.
Proof. intros q. repeat split. Qed.

Lemma same_payload_trans (s1 s2 s3 : state) :
  same_payload s1 s2 -> same_payload s2 s3 -> same_payload s1 s3.
Proof.
  intros H1 H2 q. destruct (H1 q) as (A1 & A2 & A3 & A4 & A5).
  destruct (H2 q) as (B1 & B2 & B3 & B4 & B5).
  rewrite B1, B2, B3, B4, B5. auto.
Qed.

Lemma same_payload_upd (p : ptr) (f : buf -> buf) (s : state) :
  (forall x, valid (f x) = valid x /\ dev (f x) = dev x /\
             blockno (f x) = blockno x /\ refcnt (f x) = refcnt x /\
             data (f x) = data x) ->
  same_payload s (upd p f s).
Proof.
  intros H q. unfold upd; cbn [mem]. destruct (ptr_eqb q p); [apply H|].
  repeat split.
Qed.

Lemma same_payload_fold {A : Type} (f : state -> A -> state) (l : list A) :
  (forall s a, same_payload s (f s a)) ->
  forall s, same_payload s (fold_left f l s).
Proof.
  intros Hf. induction l as [|a l IH]; intros s; [apply same_payload_refl|].
  cbn [fold_left]. eapply same_payload_trans; [apply Hf|apply IH].
Qed.

Ltac payload_upd :=
  eapply same_payload_trans;
  [|apply same_payload_upd; intros x; repeat split].

Lemma binit_head_payload (s : state) (i : nat) : same_payload s (binit_head s i).
Proof.
  unfold binit_head. do 2 payload_upd. intros q. repeat split.
Qed.

Lemma binit_freelist_payload (s : state) (i : nat) :
  same_payload s (binit_freelist s i).
Proof.
  unfold binit_freelist. do 2 payload_upd. intros q. repeat split.
Qed.

Lemma binit_buf_payload (ticks : Z) (s : state) (i : nat) :
  same_payload s (binit_buf ticks s i).
Proof.
  unfold binit_buf, initsleeplock. do 6 payload_upd. apply same_payload_refl.
Qed.

Lemma binit_payload (ticks : Z) (s : state) : same_payload s (binit ticks s).
Proof.
  unfold binit, binit_freelists, binit_heads.
  eapply same_payload_trans;
    [apply (same_payload_fold binit_head); apply binit_head_payload|].
  eapply same_payload_trans;
    [apply (same_payload_fold binit_freelist); apply binit_freelist_payload|].
  apply (same_payload_fold (binit_buf ticks)). apply binit_buf_payload.
Qed.

Lemma binit_buf_timestamp (ticks : Z) (s : state) (i : nat) (q : ptr) :
  timestamp (mem (binit_buf ticks s i) q) =
  if ptr_eqb q (PBuf i) then ticks else timestamp (mem s q).
Proof.
  unfold binit_buf, initsleeplock, nxt, prv, upd; simpl.
  destruct (ptr_eqb q (PBuf i)) eqn:E; simpl;
  repeat match goal with |- context [if ?c then _ else _] => destruct c end;
    simpl; reflexivity.
Qed.

Lemma binit_timestamp (ticks : Z) (s : state) (b : ptr) :
  In b slots -> timestamp (mem (binit ticks s) b) = ticks.
Proof.
  unfold binit, slots. generalize (binit_freelists (binit_heads s)).
  generalize (seq 0 NBUF). intros l. induction l as [|a l IH] using rev_ind; intros s0 Hb.
  - destruct Hb.
  - rewrite fold_left_app. cbn [fold_left]. rewrite binit_buf_timestamp.
    destruct (ptr_eqb b (PBuf a)) eqn:E; [reflexivity|].
    apply IH. rewrite map_app in Hb. apply in_app_or in Hb.
    destruct Hb as [Hb|[Hb|[]]]; [exact Hb|].
    subst b. rewrite ptr_eqb_refl in E. discriminate.
Qed.

Lemma binit_disk (ticks : Z) (s : state) : disk (binit ticks s) = disk s.
Proof.
  unfold binit.
  assert (H0 : disk (binit_freelists (binit_heads s)) = disk s).
  { pose proof (binit_heads_spec (seq 0 HASHSIZE) s) as Hs.
    pose proof (binit_freelists_spec (seq 0 NCPU) (binit_heads s)) as Hf.
    fold (binit_heads s) in Hs.
    fold (binit_freelists (binit_heads s)) in Hf.
    destruct Hs as (_ & _ & _ & _ & Hs). destruct Hf as (_ & _ & _ & _ & Hf).
    rewrite Hf. exact Hs. }
  rewrite <- H0. generalize (binit_freelists (binit_heads s)). generalize (seq 0 NBUF).
  induction l as [|a l IH]; intros s0; cbn [fold_left]; [reflexivity|].
  rewrite IH. reflexivity.
Qed.

Lemma existsb_seq_hit (f : nat -> bool) (i n : nat) :
  (i < n)%nat -> f i = true -> existsb f (seq 0 n) = true.
Proof.
  intros Hi Hf. apply existsb_exists. exists i. split; [apply in_seq; lia|exact Hf].
Qed.

Lemma binit_unlocks (ticks : Z) (s : state) (k : spinlock) :
  match k with
  | HeadLk h => (h < HASHSIZE)%nat
  | FreeLk c => (c < NCPU)%nat
  end ->
  locked (binit ticks s) k = false.
Proof.
  intros Hk. unfold binit.
  assert (H0 : locked (binit_freelists (binit_heads s)) k = false).
  { pose proof (binit_heads_spec (seq 0 HASHSIZE) s) as Hs.
    pose proof (binit_freelists_spec (seq 0 NCPU) (binit_heads s)) as Hf.
    fold (binit_heads s) in Hs.
    fold (binit_freelists (binit_heads s)) in Hf.
    destruct Hs as (_ & _ & _ & Hs & _). destruct Hf as (_ & _ & _ & Hf & _).
    rewrite Hf, Hs. destruct k as [h|c].
    - rewrite (existsb_seq_hit (fun i => spinlock_eqb (HeadLk h) (HeadLk i)) h _ Hk)
        by apply spinlock_eqb_refl.
      destruct (existsb _ _); reflexivity.
    - rewrite (existsb_seq_hit (fun i => spinlock_eqb (FreeLk c) (FreeLk i)) c _ Hk)
        by apply spinlock_eqb_refl.
      reflexivity. }
  revert H0. generalize (binit_freelists (binit_heads s)). generalize (seq 0 NBUF).
  induction l as [|a l IH]; intros s0 H0; cbn [fold_left]; [exact H0|].
  apply IH. exact H0.
Qed.

(** X2.  Whatever the state it starts from, [binit] leaves every buffer in
    the free list of the CPU 0, the last one of the array at the head and
    the first one at the tail, and every other list empty; the sleep-lock
    of every buffer is free and its time stamp is the clock; the spin-locks
    of the buckets and of the free lists are free.  It does not write the
    reference counts, the valid flags, the identities or the payloads of
    the buffers, nor the disk: they are what they were. *)
Theorem X2_binit_links_all_buffers_free (ticks : Z) (s : state) :
  (0 < NCPU)%nat ->
  list_of (binit ticks s) (PFree 0) = rev (map PBuf (seq 0 NBUF)) /\
  (forall h, In h sentinels -> h <> PFree 0 -> list_of (binit ticks s) h = []) /\
  (forall i, (i < NBUF)%nat ->
     lock (mem (binit ticks s) (PBuf i)) = None /\
     timestamp (mem (binit ticks s) (PBuf i)) = ticks) /\
  (forall h, (h < HASHSIZE)%nat -> locked (binit ticks s) (HeadLk h) = false) /\
  (forall c, (c < NCPU)%nat -> locked (binit ticks s) (FreeLk c) = false) /\
  same_payload s (binit ticks s) /\
  disk (binit ticks s) = disk s.
Proof.
  intros Hcpu. split; [|split; [|split; [|split; [|split; [|split]]]]].
  - rewrite (binit_list_of ticks s (PFree 0) Hcpu (free_sentinel 0 Hcpu)).
    rewrite ptr_eqb_refl. reflexivity.
  - intros h Hh Hne. rewrite (binit_list_of ticks s h Hcpu Hh).
    rewrite ptr_eqb_neq by exact Hne. reflexivity.
  - intros i Hi. split.
    + apply binit_lock. apply slot_in. exact Hi.
    + apply binit_timestamp. apply slot_in. exact Hi.
  - intros h Hh. apply (binit_unlocks ticks s (HeadLk h) Hh).
  - intros c Hc. apply (binit_unlocks ticks s (FreeLk c) Hc).
  - apply binit_payload.
  - apply binit_disk.
Qed.

(** *** No block is cached twice *)

Lemma map_ident_ext (s s' : state) (l : list ptr) :
  (forall q, In q l -> ident s' q = ident s q) ->
  map (ident s') l = map (ident s) l.
Proof.
  intros H. apply map_ext_in. exact H.
Qed.

Lemma unique_same (s s' : state) :
  (forall h, (h < HASHSIZE)%nat -> list_of s' (PHead h) = list_of s (PHead h)) ->
  (forall q, ident s' q = ident s q) ->
  unique s -> unique s'.
Proof.
  intros HL Hid Hu h Hh. rewrite (HL h Hh).
  rewrite (map_ident_ext s s' _ (fun q _ => Hid q)). apply (Hu h Hh).
Qed.

Lemma unique_mem_ext (s s' : state) : mem s' = mem s -> unique s -> unique s'.
Proof.
  intros Hm. apply unique_same.
  - intros h _. apply list_of_mem_ext. exact Hm.
  - intros q. unfold ident. rewrite Hm. reflexivity.
Qed.

Lemma NoDup_map_remove {B : Type} (f : ptr -> B) (b : ptr) (l : list ptr) :
  NoDup (map f l) -> NoDup (map f (remove ptr_eq_dec b l)).
Proof.
  induction l as [|x l IH]; intros Hnd; [constructor|].
  cbn [map] in Hnd. apply NoDup_cons_iff in Hnd. destruct Hnd as (Hx & Hnd).
  cbn [remove]. destruct (ptr_eq_dec b x); [apply IH; exact Hnd|].
  cbn [map]. constructor; [|apply IH; exact Hnd].
  intros Hin. apply Hx. apply in_map_iff in Hin. destruct Hin as (y & Hy & Hin).
  apply in_remove in Hin. apply in_map_iff. exists y. tauto.
Qed.

Lemma unique_remove (s s' : state) (b : ptr) :
  (forall h, (h < HASHSIZE)%nat ->
     list_of s' (PHead h) = remove ptr_eq_dec b (list_of s (PHead h))) ->
  (forall q, ident s' q = ident s q) ->
  unique s -> unique s'.
Proof.
  intros HL Hid Hu h Hh. rewrite (HL h Hh).
  rewrite (map_ident_ext s s' _ (fun q _ => Hid q)).
  apply NoDup_map_remove. apply (Hu h Hh).
Qed.

Lemma unique_recycle (s s' : state) (a : ptr) (d bn : Z) :
  list_of s' (PHead (bucket d bn)) = a :: list_of s (PHead (bucket d bn)) ->
  (forall h, (h < HASHSIZE)%nat -> h <> bucket d bn ->
     list_of s' (PHead h) = list_of s (PHead h)) ->
  ident s' a = (d, bn) ->
  (forall q, q <> a -> ident s' q = ident s q) ->
  (forall h, (h < HASHSIZE)%nat -> ~ In a (list_of s (PHead h))) ->
  uncached s d bn ->
  unique s -> unique s'.
Proof.
  intros Hb Ho Ha Hq Hna Hun Hu h Hh.
  assert (Hid : forall h0, (h0 < HASHSIZE)%nat ->
            map (ident s') (list_of s (PHead h0)) = map (ident s) (list_of s (PHead h0))).
  { intros h0 Hh0. apply map_ident_ext. intros q Hin. apply Hq.
    intros ->. apply (Hna h0 Hh0 Hin). }
  destruct (Nat.eq_dec h (bucket d bn)) as [->|Hne].
  - rewrite Hb. cbn [map]. rewrite (Hid _ Hh). constructor; [|apply (Hu _ Hh)].
    rewrite Ha. intros Hin. apply in_map_iff in Hin. destruct Hin as (x & Hx & Hin).
    unfold ident in Hx. injection Hx as Hd Hbn.
    destruct (Hun x Hin) as [H|H]; [apply H; exact Hd|apply H; exact Hbn].
  - rewrite (Ho h Hh Hne), (Hid h Hh). apply (Hu h Hh).
Qed.

Lemma finish_keeps (pid : nat) (b : ptr) (s : state) :
  (forall b' s', finish pid b s = Done b' s' ->
     (forall h, list_of s' h = list_of s h) /\ (forall q, ident s' q = ident s q)) /\
  (forall c s', finish pid b s = Sleeps c s' -> s' = s).
Proof.
  split.
  - intros b' s' H. apply finish_done in H. destruct H as (_ & _ & ->).
    set (s0 := upd b (set_lock (Some pid)) s). split.
    + intros h. rewrite (list_of_ext s0 _ h (read_st_nxt b s0)).
      apply list_of_ext. intros q. apply nxt_upd. reflexivity.
    + intros q. unfold ident.
      destruct (read_st_fields b s0 q) as (-> & -> & _).
      unfold s0, upd; cbn [mem]. destruct (ptr_eqb q b); reflexivity.
  - intros c s' H. apply finish_sleeps in H. tauto.
Qed.

Lemma finish_unique (pid : nat) (b : ptr) (s : state) (o : outcome ptr) :
  unique s -> o = finish pid b s ->
  match o with
  | Done _ s' => unique s'
  | Sleeps _ s' => unique s'
  | _ => True
  end.
Proof.
  intros Hu ->. destruct (finish_keeps pid b s) as (Hd & Hs).
  destruct (finish pid b s) as [b' s'|c s'| | |] eqn:E; try exact I.
  - destruct (Hd b' s' eq_refl) as (HL & Hid).
    apply (unique_same s); [intros h _; apply HL|exact Hid|exact Hu].
  - rewrite (Hs c s' eq_refl). exact Hu.
Qed.

Lemma hit_st_unique (ticks : Z) (b : ptr) (s : state) :
  unique s -> unique (hit_st ticks b s).
Proof.
  apply unique_same.
  - intros h _. apply list_of_ext. apply hit_st_nxt.
  - intros q. unfold ident. destruct (ptr_eq_dec q b) as [->|Hne].
    + rewrite hit_st_slot. reflexivity.
    + rewrite (hit_st_other ticks b s q Hne). reflexivity.
Qed.

Lemma bread_unique (ticks : Z) (cpu pid : nat) (d bn : Z) (s : state) :
  inv s -> (cpu < NCPU)%nat -> unique s ->
  match bread ticks cpu pid d bn s with
  | Done _ s' => unique s'
  | Sleeps _ s' => unique s'
  | _ => True
  end.
Proof.
  intros Hi Hcpu Hu.
  destruct (bget_cases ticks cpu pid d bn s Hi Hcpu)
    as [(b & s1 & Hc & Hg & Hm & _ & _)
       |[(Hun & a & c & s1 & Hc & Ha & Hv & Hr & _)
        |[(Hun & a & Hv & Hr & Hp)|(Hun & Hv & Hp)]]].
  - apply (finish_unique pid b s1); [|apply (bread_of_grab _ _ _ _ _ _ _ _ Hg)].
    apply (unique_mem_ext _ _ Hm). apply hit_st_unique. exact Hu.
  - destruct (bget_recycles s ticks cpu pid d bn a Hi Hcpu Hun Hv Hr)
      as (s1' & Hg & _ & _ & Hb & _ & Ho & Hma & Hmo).
    apply (finish_unique pid a s1'); [|apply (bread_of_grab _ _ _ _ _ _ _ _ Hg)].
    apply (unique_recycle s s1' a d bn Hb Ho).
    + apply meta_values in Hma. unfold ident.
      destruct Hma as (_ & -> & -> & _). reflexivity.
    + intros q Hne. specialize (Hmo q Hne). apply meta_fields in Hmo.
      unfold ident. destruct Hmo as (_ & -> & -> & _). reflexivity.
    + intros h Hh Hin. apply (head_not_free s a h c (proj1 Hi) Hh Hc Hin Ha).
    + exact Hun.
    + exact Hu.
  - rewrite (bread_of_panic _ _ _ _ _ _ _ Hp). exact I.
  - rewrite (bread_of_panic _ _ _ _ _ _ _ Hp). exact I.
Qed.

Lemma brelse_unique (cpu pid i : nat) (s s' : state) :
  inv s -> (cpu < NCPU)%nat -> (i < NBUF)%nat -> unique s ->
  brelse cpu pid (PBuf i) s = Done tt s' -> unique s'.
Proof.
  intros Hi Hcpu Hlt Hu H.
  pose proof (brelse_holding _ _ _ _ _ H) as Hh.
  destruct (brelse_releases s cpu pid i Hi Hcpu Hlt Hh)
    as (s1 & He & _ & _ & Hmb & Hmo & HL).
  rewrite He in H. injection H as <-.
  assert (Hid : forall q, ident s1 q = ident s q).
  { intros q. unfold ident. destruct (ptr_eq_dec q (PBuf i)) as [->|Hne].
    - apply meta_values in Hmb. destruct Hmb as (_ & -> & -> & _). reflexivity.
    - specialize (Hmo q Hne). apply meta_fields in Hmo.
      destruct Hmo as (_ & -> & -> & _). reflexivity. }
  destruct (wrap32 (refcnt (mem s (PBuf i)) - 1) =? 0) eqn:Ez.
  - apply (unique_remove s s1 (PBuf i)); [|exact Hid|exact Hu].
    intros h Hh'. rewrite (HL _ (head_sentinel h Hh')). unfold move_to.
    rewrite ptr_eqb_neq by discriminate. reflexivity.
  - apply (unique_same s); [|exact Hid|exact Hu].
    intros h Hh'. apply (HL _ (head_sentinel h Hh')).
Qed.

Lemma refcnt_upd_unique (b : ptr) (v : Z) (s s' : state) :
  mem s' = mem (upd b (set_refcnt v) s) -> unique s -> unique s'.
Proof.
  intros Hm Hu. apply (unique_mem_ext _ _ Hm). revert Hu. apply unique_same.
  - intros h _. apply list_of_ext. intros q. apply nxt_upd. reflexivity.
  - intros q. unfold ident, upd; cbn [mem]. destruct (ptr_eqb q b); reflexivity.
Qed.

Lemma binit_unique (ticks : Z) (s : state) :
  (0 < NCPU)%nat -> unique (binit ticks s).
Proof.
  intros Hcpu h Hh.
  rewrite (binit_list_of ticks s (PHead h) Hcpu (head_sentinel h Hh)).
  rewrite ptr_eqb_neq by discriminate. constructor.
Qed.

Lemma step_unique (w w' : world) (o : op) :
  (0 < NCPU)%nat -> inv (kst w) -> unique (kst w) -> step w o w' -> unique (kst w').
Proof.
  intros Hcpu Hi Hu Hstep. destruct Hstep; cbn [kst] in *.
  - apply binit_unique. exact Hcpu.
  - pose proof (bread_unique ticks cpu pid d bn (kst w) Hi H Hu) as Hb.
    rewrite H2 in Hb. exact Hb.
  - pose proof (bread_unique ticks cpu pid d bn (kst w) Hi H Hu) as Hb.
    rewrite H2 in Hb. exact Hb.
  - rewrite bread_resume_spec in H0.
    pose proof (finish_unique pid b (kst w) _ Hu (eq_sym H0)) as Hb. exact Hb.
  - pose proof (bwrite_holding _ _ _ _ H1) as Hh.
    rewrite (bwrite_done _ _ _ Hh) in H1. injection H1 as <-.
    apply (unique_mem_ext (kst w)); [reflexivity|exact Hu].
  - eapply brelse_unique; eassumption.
  - destruct (bpin_done (PBuf i) (kst w) (proj2 (proj2 Hi))) as (s1 & He & Hm & _).
    rewrite He in H0. injection H0 as <-.
    apply (refcnt_upd_unique _ _ _ _ Hm Hu).
  - destruct (bunpin_done (PBuf i) (kst w) (proj2 (proj2 Hi))) as (s1 & He & Hm & _).
    rewrite He in H0. injection H0 as <-.
    apply (refcnt_upd_unique _ _ _ _ Hm Hu).
Qed.

Lemma reach_unique (allowed : world -> op -> Prop) (w : world) :
  (0 < NCPU)%nat -> reach allowed w -> unique (kst w).
Proof.
  intros Hcpu H. induction H as [ticks|w o w' Hr IH _ Hs].
  - apply binit_unique. exact Hcpu.
  - apply (step_unique w w' o Hcpu (reach_inv allowed w Hcpu Hr) IH Hs).
Qed.

Lemma NoDup_map_eq {B : Type} (f : ptr -> B) (l : list ptr) (x y : ptr) :
  NoDup (map f l) -> In x l -> In y l -> f x = f y -> x = y.
Proof.
  induction l as [|z l IH]; intros Hnd Hx Hy E; [destruct Hx|].
  cbn [map] in Hnd. apply NoDup_cons_iff in Hnd. destruct Hnd as (Hz & Hnd).
  destruct Hx as [->|Hx]; destruct Hy as [->|Hy].
  - reflexivity.
  - exfalso. apply Hz. rewrite E. apply in_map. exact Hy.
  - exfalso. apply Hz. rewrite <- E. apply in_map. exact Hx.
  - apply (IH Hnd Hx Hy E).
Qed.

Lemma unique_cached (s : state) (h h' : nat) (b b' : ptr) :
  hashed s -> unique s -> (h < HASHSIZE)%nat -> (h' < HASHSIZE)%nat ->
  In b (list_of s (PHead h)) -> In b' (list_of s (PHead h')) ->
  dev (mem s b) = dev (mem s b') -> blockno (mem s b) = blockno (mem s b') ->
  b = b'.
Proof.
  intros Hha Hu Hh Hh' Hb Hb' Ed Eb.
  assert (E : h = h').
  { rewrite <- (Hha h b Hh Hb), <- (Hha h' b' Hh' Hb'), Ed, Eb. reflexivity. }
  subst h'. apply (NoDup_map_eq (ident s) _ b b' (Hu h Hh) Hb Hb').
  unfold ident. rewrite Ed, Eb. reflexivity.
Qed.

(** X3.  Whenever a routine of bio.c has returned, or has put its process
    to sleep in [bread], no spin-lock of [bcache] is held: every [acquire]
    of a bucket lock or of a free-list lock is matched by a [release]
    before the routine leaves, in any order of calls. *)
Theorem X3_no_spinlock_left_held (w : world) (l : spinlock) :
  (0 < NCPU)%nat -> reach any_op w -> locked (kst w) l = false.
Proof.
  intros Hcpu Hr. destruct (reach_inv any_op w Hcpu Hr) as (_ & _ & Hq). apply Hq.
Qed.

(** X4.  In every reachable state, a buffer that is linked in the list of
    the bucket [h] carries a device and block number that [hash] maps to
    [h]: the bucket lock that [brelse], [bpin] and [bunpin] take for it is
    the lock of the list it is in. *)
Theorem X4_bucket_matches_hash (w : world) (h : nat) (b : ptr) :
  (0 < NCPU)%nat -> reach any_op w -> (h < HASHSIZE)%nat ->
  In b (list_of (kst w) (PHead h)) ->
  hash (dev (mem (kst w) b)) (blockno (mem (kst w) b)) = Z.of_nat h.
Proof.
  intros Hcpu Hr Hh Hb. destruct (reach_inv any_op w Hcpu Hr) as (_ & Hha & _).
  rewrite <- (Hha h b Hh Hb). unfold bucket. rewrite Z2Nat.id; [reflexivity|].
  apply hash_nonneg.
Qed.

(** X5.  In every reachable state no block is cached twice: two buffers
    that are linked in buckets and carry the same device and block number
    are the same buffer. *)
Theorem X5_no_block_cached_twice (w : world) (h h' : nat) (b b' : ptr) :
  (0 < NCPU)%nat -> reach any_op w ->
  (h < HASHSIZE)%nat -> (h' < HASHSIZE)%nat ->
  In b (list_of (kst w) (PHead h)) -> In b' (list_of (kst w) (PHead h')) ->
  dev (mem (kst w) b) = dev (mem (kst w) b') ->
  blockno (mem (kst w) b) = blockno (mem (kst w) b') ->
  b = b'.
Proof.
  intros Hcpu Hr. destruct (reach_inv any_op w Hcpu Hr) as (_ & Hha & _).
  apply (unique_cached (kst w) h h' b b' Hha (reach_unique any_op w Hcpu Hr)).
Qed.

(** *** Release, and fetching again *)

Lemma victim_some (s : state) (cs : list nat) (c : nat) :
  In c cs -> list_of s (PFree c) <> [] -> exists a, victim s cs = Some a.
Proof.
  induction cs as [|c0 r IH]; intros Hin Hne; [destruct Hin|].
  cbn [victim]. destruct (rev (list_of s (PFree c0))) as [|a l] eqn:E.
  - destruct Hin as [->|Hin].
    + exfalso. apply Hne. apply (f_equal (@rev ptr)) in E.
      rewrite rev_involutive in E. exact E.
    + apply (IH Hin Hne).
  - exists a. reflexivity.
Qed.

Lemma in_pool_order (cpu c : nat) : (c < NCPU)%nat -> In c (pool_order cpu).
Proof.
  intros Hc. unfold pool_order. destruct (Nat.eq_dec c cpu) as [->|Hne].
  - left. reflexivity.
  - right. apply filter_In. split; [apply in_seq; lia|].
    apply negb_true_iff. apply Nat.eqb_neq. exact Hne.
Qed.

Lemma cached_uncached (s : state) (d bn : Z) (b : ptr) :
  cached s d bn b -> uncached s d bn -> False.
Proof.
  intros (l1 & l2 & HL & Hd & Hb & _) Hun.
  assert (Hin : In b (list_of s (PHead (bucket d bn)))).
  { rewrite HL. apply in_or_app. right. left. reflexivity. }
  destruct (Hun b Hin) as [H|H]; contradiction.
Qed.

Lemma free_unlocked (w : world) (c : nat) (x : ptr) :
  wf (kst w) -> refs_ok w -> pools_free (kst w) ->
  (c < NCPU)%nat -> In x (list_of (kst w) (PFree c)) ->
  lock (mem (kst w) x) = None /\ waiting x (sleepers w) = 0%nat /\
  pinned x (pins w) = 0%nat.
Proof.
  intros Hwf (_ & _ & _ & Href) Hpf Hc Hx.
  pose proof (wf_listed_slot (kst w) (PFree c) x Hwf (free_sentinel c Hc) Hx) as Hs.
  pose proof (Href x Hs) as Hr. rewrite (Hpf c x Hc Hx) in Hr.
  unfold lockbit in Hr. destruct (lock (mem (kst w) x)); [lia|].
  split; [reflexivity|]. lia.
Qed.

(** A miss that finds a buffer to recycle, unreferenced and with its
    sleep-lock free, returns it with the block read from the disk. *)
Lemma bread_miss_reads (s : state) (ticks : Z) (cpu pid : nat) (d bn : Z) (a : ptr) :
  inv s -> (cpu < NCPU)%nat -> uncached s d bn ->
  victim s (pool_order cpu) = Some a -> refcnt (mem s a) = 0 ->
  lock (mem s a) = None ->
  exists s2,
    bread ticks cpu pid d bn s = Done a s2 /\
    valid (mem s2 a) = 1 /\ data (mem s2 a) = disk s d bn /\
    dev (mem s2 a) = d /\ blockno (mem s2 a) = bn /\ refcnt (mem s2 a) = 1 /\
    lock (mem s2 a) = Some pid /\ disk s2 = disk s.
Proof.
  intros Hi Hcpu Hun Hv Hr Hlk.
  destruct (bget_recycles s ticks cpu pid d bn a Hi Hcpu Hun Hv Hr)
    as (s1 & Hg & _ & Hd & _ & _ & _ & Hma & _).
  apply meta_values in Hma. destruct Hma as (Hva & Hda & Hba & Hl1 & Hr1 & _).
  set (s1' := upd a (set_lock (Some pid)) s1).
  assert (Hm1 : mem s1' a = set_lock (Some pid) (mem s1 a)) by apply mem_upd_same.
  exists (read_st a s1'). split.
  - rewrite (bread_of_grab _ _ _ _ _ _ _ _ Hg). unfold finish.
    rewrite Hl1, Hlk. reflexivity.
  - assert (Hv0 : (valid (mem s1' a) =? 0) = true).
    { rewrite Hm1. cbn [valid set_lock]. rewrite Hva. reflexivity. }
    unfold read_st. rewrite Hv0. rewrite !mem_upd_same, Hm1.
    cbn [valid dev blockno refcnt lock data set_valid set_data set_lock].
    rewrite Hda, Hba. change (disk s1') with (disk s1). rewrite Hd.
    repeat split; try assumption.
Qed.

(** Under proper use, a miss succeeds as soon as some free list holds a
    buffer. *)
Lemma fetch_uncached (w : world) (ticks : Z) (cpu pid : nat) (d bn : Z)
      (c : nat) (x : ptr) :
  inv (kst w) -> refs_ok w -> pools_free (kst w) ->
  (cpu < NCPU)%nat -> uncached (kst w) d bn ->
  (c < NCPU)%nat -> In x (list_of (kst w) (PFree c)) ->
  exists a s2,
    bread ticks cpu pid d bn (kst w) = Done a s2 /\
    valid (mem s2 a) = 1 /\ data (mem s2 a) = disk (kst w) d bn /\
    dev (mem s2 a) = d /\ blockno (mem s2 a) = bn /\ refcnt (mem s2 a) = 1 /\
    lock (mem s2 a) = Some pid /\ disk s2 = disk (kst w).
Proof.
  intros Hi Hrefs Hpf Hcpu Hun Hc Hx.
  destruct (victim_some (kst w) (pool_order cpu) c (in_pool_order cpu c Hc))
    as (a & Hv).
  { intros E. rewrite E in Hx. destruct Hx. }
  destruct (victim_in _ _ _ Hv) as (c' & Hc' & Ha).
  pose proof (pool_order_lt cpu c' Hcpu Hc') as Hlt.
  destruct (free_unlocked w c' a (proj1 Hi) Hrefs Hpf Hlt Ha) as (Hlk & _).
  exists a.
  apply (bread_miss_reads (kst w) ticks cpu pid d bn a Hi Hcpu Hun Hv
           (Hpf c' a Hlt Ha) Hlk).
Qed.

(** The release of the last reference to a buffer. *)
Lemma release_last (w : world) (cpu pid i : nat) :
  (0 < NCPU)%nat -> Z.of_nat NPROC + Z.of_nat NPIN + 1 < 2 ^ 32 ->
  reach proper_use w -> (cpu < NCPU)%nat -> (i < NBUF)%nat -> awake pid w ->
  holdingsleep pid (PBuf i) (kst w) = true ->
  refcnt (mem (kst w) (PBuf i)) = 1 ->
  exists s1,
    brelse cpu pid (PBuf i) (kst w) = Done tt s1 /\
    reach proper_use (mkWorld s1 (sleepers w) (pins w)) /\
    uncached s1 (dev (mem (kst w) (PBuf i))) (blockno (mem (kst w) (PBuf i))) /\
    list_of s1 (PFree cpu) = PBuf i :: list_of (kst w) (PFree cpu) /\
    disk s1 = disk (kst w).
Proof.
  intros Hcpu0 Hproc Hr Hcpu Hi Haw Hh Hrc.
  pose proof (reach_inv proper_use w Hcpu0 Hr) as Hinv.
  pose proof (reach_unique proper_use w Hcpu0 Hr) as Hu.
  destruct (reach_refs w Hcpu0 Hproc Hr) as (Hrefs & Hpf).
  pose proof Hinv as (Hwf & Hha & Hq).
  set (b := PBuf i) in *.
  destruct (brelse_releases (kst w) cpu pid i Hinv Hcpu Hi Hh)
    as (s1 & He & _ & Hd & Hmb & Hmo & HL).
  fold b in He, Hmb, Hmo, HL.
  assert (Ez : (wrap32 (refcnt (mem (kst w) b) - 1) =? 0) = true).
  { rewrite Hrc. reflexivity. }
  rewrite Ez in HL.
  destruct (wf_slot_listed (kst w) b Hwf (slot_in i Hi)) as (h0 & Hh0 & Hin).
  apply in_sentinels in Hh0.
  destruct Hh0 as [(h & Hlt & ->)|(c & Hlt & ->)];
    [|pose proof (Hpf c b Hlt Hin) as H0; rewrite Hrc in H0; discriminate].
  assert (Hbk : bucket (dev (mem (kst w) b)) (blockno (mem (kst w) b)) = h)
    by apply (Hha h b Hlt Hin).
  exists s1. split; [exact He|]. split; [|split; [|split; [|exact Hd]]].
  - apply (reach_step proper_use w (OpBrelse cpu pid i) _ Hr I).
    apply step_brelse; assumption.
  - intros x Hx. rewrite Hbk in Hx.
    rewrite (HL _ (head_sentinel h Hlt)) in Hx. unfold move_to in Hx.
    rewrite ptr_eqb_neq in Hx by discriminate.
    apply in_remove in Hx. destruct Hx as (Hx & Hne).
    specialize (Hmo x Hne). apply meta_fields in Hmo.
    destruct Hmo as (_ & -> & -> & _).
    destruct (Z.eq_dec (dev (mem (kst w) x)) (dev (mem (kst w) b))) as [Ed|Ed];
      [|left; exact Ed].
    destruct (Z.eq_dec (blockno (mem (kst w) x)) (blockno (mem (kst w) b))) as [Eb|Eb];
      [|right; exact Eb].
    exfalso. apply Hne.
    apply (unique_cached (kst w) h h x b Hha Hu Hlt Hlt Hx Hin Ed Eb).
  - rewrite (HL _ (free_sentinel cpu Hcpu)). unfold move_to.
    rewrite ptr_eqb_refl. f_equal. apply notin_remove.
    intros Hin'. apply (head_not_free (kst w) b h cpu Hwf Hlt Hcpu Hin Hin').
Qed.

(** X6.  Under proper use, when the process that holds a buffer releases
    the only reference to it, the buffer leaves its bucket for the head of
    the free list of the releasing CPU and its block is not cached any
    more: the next [bread] of that block, on any CPU, misses, recycles a
    buffer and returns it with the content that the disk has, whatever the
    released buffer held. *)
Theorem X6_released_block_is_read_again
        (w : world) (cpu pid i : nat) (ticks : Z) (cpu' pid' : nat) :
  (0 < NCPU)%nat -> Z.of_nat NPROC + Z.of_nat NPIN + 1 < 2 ^ 32 ->
  reach proper_use w -> (cpu < NCPU)%nat -> (i < NBUF)%nat -> awake pid w ->
  holdingsleep pid (PBuf i) (kst w) = true ->
  refcnt (mem (kst w) (PBuf i)) = 1 ->
  (cpu' < NCPU)%nat ->
  exists s1 a s2,
    brelse cpu pid (PBuf i) (kst w) = Done tt s1 /\
    list_of s1 (PFree cpu) = PBuf i :: list_of (kst w) (PFree cpu) /\
    uncached s1 (dev (mem (kst w) (PBuf i))) (blockno (mem (kst w) (PBuf i))) /\
    bread ticks cpu' pid' (dev (mem (kst w) (PBuf i)))
          (blockno (mem (kst w) (PBuf i))) s1 = Done a s2 /\
    valid (mem s2 a) = 1 /\
    data (mem s2 a) =
      disk (kst w) (dev (mem (kst w) (PBuf i))) (blockno (mem (kst w) (PBuf i))).
Proof.
  intros Hcpu0 Hproc Hr Hcpu Hi Haw Hh Hrc Hcpu'.
  destruct (release_last w cpu pid i Hcpu0 Hproc Hr Hcpu Hi Haw Hh Hrc)
    as (s1 & He & Hr1 & Hun & HL & Hd).
  pose proof (reach_inv proper_use _ Hcpu0 Hr1) as Hinv1.
  destruct (reach_refs _ Hcpu0 Hproc Hr1) as (Hrefs1 & Hpf1).
  assert (Hx : In (PBuf i) (list_of s1 (PFree cpu))) by (rewrite HL; left; reflexivity).
  destruct (fetch_uncached (mkWorld s1 (sleepers w) (pins w)) ticks cpu' pid'
              _ _ cpu (PBuf i) Hinv1 Hrefs1 Hpf1 Hcpu' Hun Hcpu Hx)
    as (a & s2 & Hb & Hv & Hda & _).
  cbn [kst] in Hb, Hda. rewrite Hd in Hda.
  exists s1, a, s2. repeat split; assumption.
Qed.

(** X7.  The round trip through the disk: under proper use, when the
    holder of a buffer writes it with [bwrite] and then releases the only
    reference to it, the next [bread] of its block returns a valid buffer
    whose content is the content that the released buffer had. *)
Theorem X7_write_release_read_round_trip
        (w : world) (cpu pid i : nat) (ticks : Z) (cpu' pid' : nat) :
  (0 < NCPU)%nat -> Z.of_nat NPROC + Z.of_nat NPIN + 1 < 2 ^ 32 ->
  reach proper_use w -> (cpu < NCPU)%nat -> (i < NBUF)%nat -> awake pid w ->
  holdingsleep pid (PBuf i) (kst w) = true ->
  refcnt (mem (kst w) (PBuf i)) = 1 ->
  (cpu' < NCPU)%nat ->
  exists s0 s1 a s2,
    bwrite pid (PBuf i) (kst w) = Done tt s0 /\
    brelse cpu pid (PBuf i) s0 = Done tt s1 /\
    bread ticks cpu' pid' (dev (mem (kst w) (PBuf i)))
          (blockno (mem (kst w) (PBuf i))) s1 = Done a s2 /\
    valid (mem s2 a) = 1 /\
    data (mem s2 a) = data (mem (kst w) (PBuf i)).
Proof.
  intros Hcpu0 Hproc Hr Hcpu Hi Haw Hh Hrc Hcpu'.
  set (b := PBuf i) in *.
  set (s0 := set_disk (dev (mem (kst w) b)) (blockno (mem (kst w) b))
                      (data (mem (kst w) b)) (kst w)).
  assert (Hw : bwrite pid b (kst w) = Done tt s0) by (apply bwrite_done; exact Hh).
  assert (Hr0 : reach proper_use (mkWorld s0 (sleepers w) (pins w))).
  { apply (reach_step proper_use w (OpBwrite pid i) _ Hr I).
    apply step_bwrite; assumption. }
  destruct (release_last (mkWorld s0 (sleepers w) (pins w)) cpu pid i
              Hcpu0 Hproc Hr0 Hcpu Hi Haw Hh Hrc)
    as (s1 & He & Hr1 & Hun & HL & Hd).
  cbn [kst] in He, Hun, HL, Hd.
  change (mem s0) with (mem (kst w)) in Hun.
  pose proof (reach_inv proper_use _ Hcpu0 Hr1) as Hinv1.
  destruct (reach_refs _ Hcpu0 Hproc Hr1) as (Hrefs1 & Hpf1).
  assert (Hx : In b (list_of s1 (PFree cpu))) by (rewrite HL; left; reflexivity).
  destruct (fetch_uncached (mkWorld s1 (sleepers w) (pins w)) ticks cpu' pid'
              _ _ cpu b Hinv1 Hrefs1 Hpf1 Hcpu' Hun Hcpu Hx)
    as (a & s2 & Hb & Hv & Hda & _).
  cbn [kst] in Hb, Hda. rewrite Hd in Hda.
  exists s0, s1, a, s2. split; [exact Hw|]. split; [exact He|].
  split; [exact Hb|]. split; [exact Hv|].
  rewrite Hda. unfold s0, set_disk; cbn [disk]. rewrite !Z.eqb_refl. reflexivity.
Qed.

(** *** Pins *)

Lemma wrap32_succ_pred (r : Z) :
  0 <= r < 2 ^ 32 -> wrap32 (wrap32 (r + 1) - 1) = r.
Proof.
  intros H. unfold wrap32. rewrite Zminus_mod_idemp_l.
  replace (r + 1 - 1) with r by lia. apply Z.mod_small. exact H.
Qed.

Lemma set_refcnt_back (x : buf) (v : Z) :
  set_refcnt (refcnt x) (set_refcnt v x) = x.
Proof. destruct x. reflexivity. Qed.

(** X8.  [bpin] never panics: with the bucket lock free it adds one to
    the reference count of the buffer (modulo 2^32), writes nothing else
    and leaves every list as it is; and [bunpin] undoes it: after a pin
    and an unpin of the same buffer the memory, the locks and the disk are
    what they were, even when the count wraps around in between. *)
Theorem X8_pin_then_unpin_restores (s : state) (b : ptr) :
  quiescent s -> 0 <= refcnt (mem s b) < 2 ^ 32 ->
  (forall s0 msg, bpin b s0 <> Panic msg) /\
  exists s1 s2,
    bpin b s = Done tt s1 /\
    (forall q, mem s1 q =
               if ptr_eqb q b
               then set_refcnt (wrap32 (refcnt (mem s b) + 1)) (mem s b)
               else mem s q) /\
    (forall h, list_of s1 h = list_of s h) /\
    bunpin b s1 = Done tt s2 /\
    (forall q, mem s2 q = mem s q) /\
    quiescent s2 /\ disk s2 = disk s.
Proof.
  intros Hq Hr. split.
  - intros s0 msg. unfold bpin, bind, gets, acquire, modify, release.
    destruct (locked s0 _); discriminate.
  - destruct (bpin_done b s Hq) as (s1 & He1 & Hm1 & Hq1 & Hd1).
    destruct (bunpin_done b s1 Hq1) as (s2 & He2 & Hm2 & Hq2 & Hd2).
    exists s1, s2. split; [exact He1|]. split; [|split; [|split; [exact He2|]]].
    + intros q. rewrite Hm1. unfold upd; cbn [mem].
      destruct (ptr_eqb q b) eqn:E; [|reflexivity].
      apply ptr_eqb_true in E. subst q. reflexivity.
    + intros h. rewrite (list_of_mem_ext _ _ _ Hm1). apply list_of_ext.
      intros q. apply nxt_upd. reflexivity.
    + split; [|split; [exact Hq2|congruence]].
      intros q. rewrite Hm2. destruct (ptr_eq_dec q b) as [->|Hne].
      * rewrite mem_upd_same, Hm1, mem_upd_same. cbn [refcnt set_refcnt].
        rewrite (wrap32_succ_pred _ Hr).
        destruct (mem s b); reflexivity.
      * rewrite (mem_upd_other b _ s1 q Hne), Hm1.
        apply (mem_upd_other b _ s q Hne).
Qed.

(** X9.  [bunpin] never gives a buffer back to a free list: when it takes
    the last reference of a buffer of a bucket, the buffer stays in the
    bucket with a count of zero, where the recycling of [bget] does not
    look; with every free list empty, the next miss panics with
    "bget: no buffers" although a buffer is unreferenced. *)
Theorem X9_unpin_to_zero_frees_nothing
        (s : state) (i h : nat) (ticks : Z) (cpu pid : nat) (d bn : Z) :
  inv s -> (i < NBUF)%nat -> (h < HASHSIZE)%nat -> (cpu < NCPU)%nat ->
  In (PBuf i) (list_of s (PHead h)) -> refcnt (mem s (PBuf i)) = 1 ->
  (forall c, (c < NCPU)%nat -> list_of s (PFree c) = []) ->
  uncached s d bn ->
  exists s',
    bunpin (PBuf i) s = Done tt s' /\
    refcnt (mem s' (PBuf i)) = 0 /\
    In (PBuf i) (list_of s' (PHead h)) /\
    (forall c, (c < NCPU)%nat -> list_of s' (PFree c) = []) /\
    bread ticks cpu pid d bn s' = Panic "bget: no buffers"%string.
Proof.
  intros Hi Hlt Hh Hcpu Hin Hrc Hempty Hun.
  destruct (bunpin_done (PBuf i) s (proj2 (proj2 Hi))) as (s' & He & Hm & Hq & _).
  set (s0 := upd (PBuf i) (set_refcnt (wrap32 (refcnt (mem s (PBuf i)) - 1))) s) in *.
  assert (Hi0 : inv s0).
  { apply (inv_same_lists s); [| | |apply Hi|exact Hi].
    - intros q. apply nxt_upd. reflexivity.
    - intros q. apply prv_upd. reflexivity.
    - intros q. unfold s0, upd; cbn [mem]. destruct (ptr_eqb q (PBuf i)); split; reflexivity. }
  assert (Hi' : inv s') by (apply (inv_mem_ext _ _ Hm Hq); apply Hi0).
  assert (HL : forall h0, list_of s' h0 = list_of s h0).
  { intros h0. rewrite (list_of_mem_ext _ _ _ Hm). apply list_of_ext.
    intros q. apply nxt_upd. reflexivity. }
  assert (Hun' : uncached s' d bn).
  { intros x Hx. rewrite HL in Hx. rewrite Hm. unfold s0, upd; cbn [mem].
    destruct (ptr_eqb x (PBuf i)); apply (Hun x Hx). }
  exists s'. split; [exact He|]. split; [|split; [|split]].
  - rewrite Hm. unfold s0. rewrite mem_upd_same. cbn [refcnt set_refcnt].
    rewrite Hrc. reflexivity.
  - rewrite HL. exact Hin.
  - intros c Hc. rewrite HL. apply (Hempty c Hc).
  - apply bread_of_panic.
    pose proof (bget_miss ticks cpu pid d bn s' (proj2 (proj2 Hi')) (proj1 Hi') Hun' Hcpu) as H.
    rewrite (victim_none s' (pool_order cpu)) in H; [exact H|].
    intros c Hc. rewrite HL. apply Hempty. apply (pool_order_lt cpu c Hcpu Hc).
Qed.

(** *** What [bread] does *)

Lemma victim_none_inv (s : state) (cs : list nat) :
  victim s cs = None -> forall c, In c cs -> list_of s (PFree c) = [].
Proof.
  induction cs as [|c0 r IH]; intros H c Hin; [destruct Hin|].
  cbn [victim] in H. destruct (rev (list_of s (PFree c0))) as [|a l] eqn:E;
    [|discriminate].
  destruct Hin as [<-|Hin]; [|apply (IH H c Hin)].
  apply (f_equal (@rev ptr)) in E. rewrite rev_involutive in E. exact E.
Qed.

Lemma hit_handover (s : state) (ticks : Z) (cpu pid : nat) (d bn : Z) (b : ptr) :
  inv s -> cached s d bn b ->
  exists s1,
    bread ticks cpu pid d bn s = finish pid b s1 /\
    mem s1 = mem (hit_st ticks b s) /\ inv s1 /\ disk s1 = disk s /\
    (forall h, list_of s1 h = list_of s h).
Proof.
  intros Hi Hc.
  destruct (bget_hit ticks cpu pid d bn s b (proj2 (proj2 Hi)) (proj1 Hi) Hc)
    as (s1 & Hg & Hm & Hq & Hd).
  exists s1. split; [apply (bread_of_grab _ _ _ _ _ _ _ _ Hg)|].
  split; [exact Hm|]. split; [|split; [exact Hd|]].
  - pose proof (hit_st_inv ticks b s Hi) as (Hw & Hh & _).
    apply (inv_mem_ext _ _ Hm Hq Hw Hh).
  - intros h. rewrite (list_of_mem_ext _ _ _ Hm). apply list_of_ext. apply hit_st_nxt.
Qed.

Lemma read_st_data (b : ptr) (s : state) :
  (valid (mem s b) <> 0 -> data (mem (read_st b s) b) = data (mem s b)) /\
  (valid (mem s b) = 0 ->
   data (mem (read_st b s) b) = disk s (dev (mem s b)) (blockno (mem s b))).
Proof.
  unfold read_st. split; intros H.
  - apply Z.eqb_neq in H. rewrite H. reflexivity.
  - rewrite H. cbn [Z.eqb]. rewrite !mem_upd_same. reflexivity.
Qed.

Lemma read_st_disk (b : ptr) (s : state) : disk (read_st b s) = disk s.
Proof. unfold read_st. destruct (valid (mem s b) =? 0); reflexivity. Qed.

(** X10.  A hit on a buffer whose sleep-lock is free returns that buffer,
    locked for the caller, without a look at the disk: when the buffer is
    valid its content is the cached one, whatever the disk holds; only a
    buffer that is not valid is read from the disk.  The lists and the
    disk are left as they were. *)
Theorem X10_hit_returns_cached_content
        (s : state) (ticks : Z) (cpu pid : nat) (d bn : Z) (b : ptr) :
  inv s -> cached s d bn b -> lock (mem s b) = None ->
  exists s',
    bread ticks cpu pid d bn s = Done b s' /\
    lock (mem s' b) = Some pid /\
    valid (mem s' b) <> 0 /\
    (valid (mem s b) <> 0 -> data (mem s' b) = data (mem s b)) /\
    (valid (mem s b) = 0 -> data (mem s' b) = disk s d bn) /\
    refcnt (mem s' b) = wrap32 (refcnt (mem s b) + 1) /\
    (forall h, list_of s' h = list_of s h) /\
    disk s' = disk s.
Proof.
  intros Hi Hc Hlk.
  destruct (hit_handover s ticks cpu pid d bn b Hi Hc) as (s1 & He & Hm & _ & Hd & HL).
  assert (Hb1 : mem s1 b =
                set_timestamp ticks (set_refcnt (wrap32 (refcnt (mem s b) + 1)) (mem s b))).
  { rewrite Hm. apply hit_st_slot. }
  set (s1' := upd b (set_lock (Some pid)) s1).
  assert (Hb1' : mem s1' b = set_lock (Some pid) (mem s1 b)) by apply mem_upd_same.
  exists (read_st b s1'). split.
  - rewrite He. unfold finish. rewrite Hb1. cbn [lock set_timestamp set_refcnt].
    rewrite Hlk. reflexivity.
  - destruct (read_st_fields b s1' b) as (_ & _ & Hl & Hr & _).
    destruct (read_st_data b s1') as (Hv1 & Hv0).
    assert (Ev : valid (mem s1' b) = valid (mem s b)) by (rewrite Hb1', Hb1; reflexivity).
    assert (Eda : data (mem s1' b) = data (mem s b)) by (rewrite Hb1', Hb1; reflexivity).
    destruct Hc as (_ & _ & _ & Hdev & Hbn & _).
    assert (Ed : dev (mem s1' b) = d) by (rewrite Hb1', Hb1; exact Hdev).
    assert (Eb : blockno (mem s1' b) = bn) by (rewrite Hb1', Hb1; exact Hbn).
    split; [rewrite Hl, Hb1'; reflexivity|].
    split; [apply read_st_valid|].
    split; [intros Hv; rewrite Hv1 by (rewrite Ev; exact Hv); exact Eda|].
    split; [intros Hv; rewrite Hv0 by (rewrite Ev; exact Hv);
            rewrite Ed, Eb; change (disk s1') with (disk s1); rewrite Hd; reflexivity|].
    split; [rewrite Hr, Hb1', Hb1; reflexivity|].
    split.
    + intros h. rewrite (list_of_ext s1' _ h (read_st_nxt b s1')).
      rewrite <- HL. apply list_of_ext. intros q. apply nxt_upd. reflexivity.
    + rewrite read_st_disk. exact Hd.
Qed.

(** X11.  [bread] never takes a sleep-lock that is held.  When it returns
    a buffer, the sleep-lock of that buffer was free and is now held by
    the caller, no other sleep-lock has changed, and the buffer is valid,
    carries the device and block number asked for and is linked in the
    bucket of that block.  When the caller is put to sleep instead, it
    waits for a buffer whose sleep-lock is held, and no sleep-lock has
    changed. *)
Theorem X11_bread_respects_sleeplocks
        (s : state) (ticks : Z) (cpu pid : nat) (d bn : Z) :
  inv s -> (cpu < NCPU)%nat ->
  (forall b s', bread ticks cpu pid d bn s = Done b s' ->
     lock (mem s b) = None /\ lock (mem s' b) = Some pid /\
     (forall q, q <> b -> lock (mem s' q) = lock (mem s q)) /\
     valid (mem s' b) <> 0 /\ dev (mem s' b) = d /\ blockno (mem s' b) = bn /\
     In b (list_of s' (PHead (bucket d bn)))) /\
  (forall c s', bread ticks cpu pid d bn s = Sleeps c s' ->
     lock (mem s c) <> None /\
     (forall q, lock (mem s' q) = lock (mem s q)) /\
     dev (mem s' c) = d /\ blockno (mem s' c) = bn /\
     In c (list_of s' (PHead (bucket d bn)))).
Proof.
  intros Hi Hcpu.
  assert (Hgen : forall b s1,
            bread ticks cpu pid d bn s = finish pid b s1 ->
            (forall q, lock (mem s1 q) = lock (mem s q)) ->
            dev (mem s1 b) = d -> blockno (mem s1 b) = bn ->
            In b (list_of s1 (PHead (bucket d bn))) ->
            (forall b' s', bread ticks cpu pid d bn s = Done b' s' ->
               lock (mem s b') = None /\ lock (mem s' b') = Some pid /\
               (forall q, q <> b' -> lock (mem s' q) = lock (mem s q)) /\
               valid (mem s' b') <> 0 /\ dev (mem s' b') = d /\
               blockno (mem s' b') = bn /\
               In b' (list_of s' (PHead (bucket d bn)))) /\
            (forall c s', bread ticks cpu pid d bn s = Sleeps c s' ->
               lock (mem s c) <> None /\
               (forall q, lock (mem s' q) = lock (mem s q)) /\
               dev (mem s' c) = d /\ blockno (mem s' c) = bn /\
               In c (list_of s' (PHead (bucket d bn))))).
  { intros b s1 He Hl Hd Hb Hin. rewrite He. split.
    - intros b' s' H. pose proof (bread_valid ticks cpu pid d bn s s' b') as Hv.
      rewrite He in Hv. specialize (Hv H).
      destruct (finish_keeps pid b s1) as (Hk & _).
      destruct (Hk b' s' H) as (HL & Hid).
      apply finish_done_fields in H. destruct H as (-> & Hnone & _ & Hlk & _).
      split; [rewrite <- Hl; exact Hnone|].
      split; [rewrite Hlk, ptr_eqb_refl; reflexivity|].
      split; [intros q Hne; rewrite Hlk, ptr_eqb_neq by exact Hne; apply Hl|].
      split; [exact Hv|].
      specialize (Hid b). unfold ident in Hid. injection Hid as Ed Eb.
      split; [rewrite Ed; exact Hd|]. split; [rewrite Eb; exact Hb|].
      rewrite HL. exact Hin.
    - intros c s' H. apply finish_sleeps in H. destruct H as (-> & Hne & ->).
      split; [rewrite <- Hl; exact Hne|]. split; [exact Hl|]. auto. }
  destruct (bget_cases ticks cpu pid d bn s Hi Hcpu)
    as [(b & s1 & Hc & Hg & Hm & _ & _)
       |[(Hun & a & c & s1 & Hc & Ha & Hv & Hr & _)
        |[(Hun & a & Hv & Hr & Hp)|(Hun & Hv & Hp)]]].
  - apply (Hgen b s1 (bread_of_grab _ _ _ _ _ _ _ _ Hg)).
    + intros q. rewrite Hm. destruct (ptr_eq_dec q b) as [->|Hne].
      * rewrite hit_st_slot. reflexivity.
      * rewrite (hit_st_other ticks b s q Hne). reflexivity.
    + rewrite Hm, hit_st_slot. destruct Hc as (_ & _ & _ & Hd & _). exact Hd.
    + rewrite Hm, hit_st_slot. destruct Hc as (_ & _ & _ & _ & Hb & _). exact Hb.
    + rewrite (list_of_mem_ext _ _ _ Hm).
      rewrite (list_of_ext s _ _ (hit_st_nxt ticks b s)). apply cached_in. exact Hc.
  - destruct (bget_recycles s ticks cpu pid d bn a Hi Hcpu Hun Hv Hr)
      as (s1' & Hg & _ & _ & Hb & _ & _ & Hma & Hmo).
    apply meta_values in Hma. destruct Hma as (_ & Hda & Hba & Hla & _).
    apply (Hgen a s1' (bread_of_grab _ _ _ _ _ _ _ _ Hg)).
    + intros q. destruct (ptr_eq_dec q a) as [->|Hne]; [exact Hla|].
      specialize (Hmo q Hne). apply meta_fields in Hmo. tauto.
    + exact Hda.
    + exact Hba.
    + rewrite Hb. left. reflexivity.
  - rewrite (bread_of_panic _ _ _ _ _ _ _ Hp). split; intros; discriminate.
  - rewrite (bread_of_panic _ _ _ _ _ _ _ Hp). split; intros; discriminate.
Qed.

(** X12.  Under proper use [bread] does one of three things: it returns a
    buffer; or it puts the caller to sleep, which it does only on a hit on
    a buffer whose sleep-lock is held; or it panics with
    "bget: no buffers", which it does only on a miss with every free list
    empty.  It never panics with "bget: freelist is not free!", never
    spins on a spin-lock and never walks a list without end. *)
Theorem X12_bread_outcomes_under_proper_use
        (w : world) (ticks : Z) (cpu pid : nat) (d bn : Z) :
  (0 < NCPU)%nat -> Z.of_nat NPROC + Z.of_nat NPIN + 1 < 2 ^ 32 ->
  reach proper_use w -> (cpu < NCPU)%nat ->
  (exists b s', bread ticks cpu pid d bn (kst w) = Done b s') \/
  (exists b s', bread ticks cpu pid d bn (kst w) = Sleeps b s' /\
                cached (kst w) d bn b /\ lock (mem (kst w) b) <> None) \/
  (bread ticks cpu pid d bn (kst w) = Panic "bget: no buffers"%string /\
   uncached (kst w) d bn /\
   forall c, (c < NCPU)%nat -> list_of (kst w) (PFree c) = []).
Proof.
  intros Hcpu0 Hproc Hr Hcpu.
  pose proof (reach_inv proper_use w Hcpu0 Hr) as Hi.
  destruct (reach_refs w Hcpu0 Hproc Hr) as (Hrefs & Hpf).
  destruct (bget_cases ticks cpu pid d bn (kst w) Hi Hcpu)
    as [(b & s1 & Hc & Hg & Hm & _ & _)
       |[(Hun & a & c & s1 & Hc & Ha & Hv & Hr0 & _)
        |[(Hun & a & Hv & Hr0 & Hp)|(Hun & Hv & Hp)]]].
  - rewrite (bread_of_grab _ _ _ _ _ _ _ _ Hg). unfold finish.
    assert (Hl : lock (mem s1 b) = lock (mem (kst w) b)).
    { rewrite Hm, hit_st_slot. reflexivity. }
    destruct (lock (mem s1 b)) as [p|] eqn:E.
    + right. left. exists b, s1. split; [reflexivity|]. split; [exact Hc|].
      rewrite <- Hl. discriminate.
    + left. eexists. eexists. reflexivity.
  - left.
    destruct (free_unlocked w c a (proj1 Hi) Hrefs Hpf Hc Ha) as (Hlk & _).
    destruct (bread_miss_reads (kst w) ticks cpu pid d bn a Hi Hcpu Hun Hv Hr0 Hlk)
      as (s2 & He & _).
    exists a, s2. exact He.
  - exfalso. apply Hr0.
    destruct (victim_in _ _ _ Hv) as (c & Hc & Ha).
    apply (Hpf c a (pool_order_lt cpu c Hcpu Hc) Ha).
  - right. right. split; [apply bread_of_panic; exact Hp|]. split; [exact Hun|].
    intros c Hc. apply (victim_none_inv _ _ Hv c (in_pool_order cpu c Hc)).
Qed.

(** X13.  Under proper use the reference count of every buffer is the
    number of processes that sleep in [bread] waiting for it, plus one
    when its sleep-lock is held, plus the number of its pins; and a buffer
    whose sleep-lock is held, that a process waits for or that is pinned
    is linked in a bucket, not in a free list, so that [bget] does not
    recycle it. *)
Theorem X13_reference_counts_add_up (w : world) (i : nat) :
  (0 < NCPU)%nat -> Z.of_nat NPROC + Z.of_nat NPIN + 1 < 2 ^ 32 ->
  reach proper_use w -> (i < NBUF)%nat ->
  refcnt (mem (kst w) (PBuf i)) =
    Z.of_nat (waiting (PBuf i) (sleepers w)) + lockbit (mem (kst w) (PBuf i)) +
    Z.of_nat (pinned (PBuf i) (pins w)) /\
  (lock (mem (kst w) (PBuf i)) <> None \/
   (0 < waiting (PBuf i) (sleepers w))%nat \/
   (0 < pinned (PBuf i) (pins w))%nat ->
   (exists h, (h < HASHSIZE)%nat /\ In (PBuf i) (list_of (kst w) (PHead h))) /\
   forall c, (c < NCPU)%nat -> ~ In (PBuf i) (list_of (kst w) (PFree c))).
Proof.
  intros Hcpu0 Hproc Hr Hi.
  pose proof (reach_inv proper_use w Hcpu0 Hr) as (Hwf & _).
  destruct (reach_refs w Hcpu0 Hproc Hr) as (Hrefs & Hpf).
  pose proof Hrefs as (_ & _ & _ & Href).
  pose proof (Href _ (slot_in i Hi)) as Hrc.
  split; [exact Hrc|]. intros Huse.
  assert (Hnz : refcnt (mem (kst w) (PBuf i)) <> 0).
  { rewrite Hrc. unfold lockbit.
    destruct Huse as [H|[H|H]]; destruct (lock (mem (kst w) (PBuf i)));
      try lia; contradiction. }
  assert (Hnf : forall c, (c < NCPU)%nat -> ~ In (PBuf i) (list_of (kst w) (PFree c))).
  { intros c Hc Hin. apply Hnz. apply (Hpf c _ Hc Hin). }
  split; [|exact Hnf].
  destruct (wf_slot_listed (kst w) (PBuf i) Hwf (slot_in i Hi)) as (h0 & Hh0 & Hin).
  apply in_sentinels in Hh0. destruct Hh0 as [(h & Hlt & ->)|(c & Hlt & ->)].
  - exists h. split; assumption.
  - exfalso. apply (Hnf c Hlt Hin).
Qed.

(** X14.  The hand-over of a buffer: a [bread] of a block whose buffer is
    held by another process counts itself in the reference count and
    sleeps; when the holder releases the buffer, the count goes back to
    what it was and is not zero, so that the buffer stays in its bucket
    with its sleep-lock free; the sleeper, once woken up, takes the
    sleep-lock and returns from [bread] with that buffer, whose content,
    when it was valid, is the one the holder left. *)
Theorem X14_waiter_gets_the_released_buffer
        (s : state) (ticks : Z) (cpu pid : nat) (d bn : Z)
        (i holder cpu' : nat) :
  inv s -> (cpu' < NCPU)%nat -> (i < NBUF)%nat ->
  cached s d bn (PBuf i) -> lock (mem s (PBuf i)) = Some holder ->
  0 < refcnt (mem s (PBuf i)) < 2 ^ 32 - 1 ->
  exists s1 s2 s3,
    bread ticks cpu pid d bn s = Sleeps (PBuf i) s1 /\
    refcnt (mem s1 (PBuf i)) = refcnt (mem s (PBuf i)) + 1 /\
    brelse cpu' holder (PBuf i) s1 = Done tt s2 /\
    (forall h, In h sentinels -> list_of s2 h = list_of s h) /\
    lock (mem s2 (PBuf i)) = None /\
    refcnt (mem s2 (PBuf i)) = refcnt (mem s (PBuf i)) /\
    bread_resume pid (PBuf i) s2 = Done (PBuf i) s3 /\
    lock (mem s3 (PBuf i)) = Some pid /\
    refcnt (mem s3 (PBuf i)) = refcnt (mem s (PBuf i)) /\
    (valid (mem s (PBuf i)) <> 0 ->
     data (mem s3 (PBuf i)) = data (mem s (PBuf i))).
Proof.
  intros Hi Hcpu' Hlt Hc Hlk Hrc. set (b := PBuf i) in *.
  destruct (hit_handover s ticks cpu pid d bn b Hi Hc) as (s1 & He & Hm & Hi1 & _ & HL1).
  assert (Hb1 : mem s1 b =
                set_timestamp ticks (set_refcnt (wrap32 (refcnt (mem s b) + 1)) (mem s b))).
  { rewrite Hm. apply hit_st_slot. }
  assert (Hw1 : wrap32 (refcnt (mem s b) + 1) = refcnt (mem s b) + 1)
    by (apply wrap32_small; lia).
  assert (Hr1 : refcnt (mem s1 b) = refcnt (mem s b) + 1).
  { rewrite Hb1. cbn [refcnt set_timestamp set_refcnt]. exact Hw1. }
  assert (Hl1 : lock (mem s1 b) = Some holder) by (rewrite Hb1; exact Hlk).
  assert (Hh : holdingsleep holder b s1 = true).
  { unfold holdingsleep. rewrite Hl1. apply Nat.eqb_refl. }
  destruct (brelse_releases s1 cpu' holder i Hi1 Hcpu' Hlt Hh)
    as (s2 & He2 & _ & _ & Hmb & _ & HL2).
  fold b in He2, Hmb, HL2.
  assert (Hw2 : wrap32 (refcnt (mem s1 b) - 1) = refcnt (mem s b)).
  { rewrite Hr1. replace (refcnt (mem s b) + 1 - 1) with (refcnt (mem s b)) by lia.
    apply wrap32_small. lia. }
  rewrite Hw2 in HL2, Hmb.
  assert (Ez : (refcnt (mem s b) =? 0) = false) by (apply Z.eqb_neq; lia).
  rewrite Ez in HL2.
  apply meta_values in Hmb. destruct Hmb as (Hv2 & _ & _ & Hl2 & Hr2 & Hd2 & _).
  set (s2' := upd b (set_lock (Some pid)) s2).
  assert (Hb2' : mem s2' b = set_lock (Some pid) (mem s2 b)) by apply mem_upd_same.
  exists s1, s2, (read_st b s2').
  split; [rewrite He; unfold finish; rewrite Hl1; reflexivity|].
  split; [exact Hr1|]. split; [exact He2|].
  split; [intros h Hh0; rewrite (HL2 h Hh0); apply HL1|].
  split; [exact Hl2|]. split; [exact Hr2|].
  split; [rewrite bread_resume_spec; unfold finish; rewrite Hl2; reflexivity|].
  destruct (read_st_fields b s2' b) as (_ & _ & Hl & Hr & _).
  destruct (read_st_data b s2') as (Hk & _).
  split; [rewrite Hl, Hb2'; reflexivity|].
  split; [rewrite Hr, Hb2'; exact Hr2|].
  intros Hv. rewrite Hk.
  - rewrite Hb2'. cbn [data set_lock]. rewrite Hd2, Hb1. reflexivity.
  - rewrite Hb2'. cbn [valid set_lock]. rewrite Hv2, Hb1. exact Hv.
Qed.

(** *** The first fetch after [binit] *)

Lemma pool_order_zero (cpu : nat) :
  (cpu < NCPU)%nat ->
  exists cs1 cs2,
    pool_order cpu = cs1 ++ 0%nat :: cs2 /\
    forall c, In c cs1 -> c <> 0%nat /\ (c < NCPU)%nat.
Proof.
  intros Hcpu. unfold pool_order.
  assert (E : seq 0 NCPU = 0%nat :: seq 1 (NCPU - 1)).
  { replace NCPU with (S (NCPU - 1)) at 1 by lia. reflexivity. }
  destruct (Nat.eq_dec cpu 0) as [->|Hne].
  - exists [], (filter (fun nc => negb (Nat.eqb nc 0)) (seq 0 NCPU)).
    split; [reflexivity|]. intros c [].
  - exists [cpu], (filter (fun nc => negb (Nat.eqb nc cpu)) (seq 1 (NCPU - 1))).
    split.
    + rewrite E. cbn [filter].
      assert (E0 : Nat.eqb 0 cpu = false) by (apply Nat.eqb_neq; lia).
      rewrite E0. reflexivity.
    + intros c [<-|[]]. split; assumption.
Qed.

Lemma binit_victim (ticks : Z) (s : state) (cpu : nat) :
  (0 < NBUF)%nat -> (cpu < NCPU)%nat ->
  victim (binit ticks s) (pool_order cpu) = Some (PBuf 0).
Proof.
  intros Hbuf Hcpu.
  assert (Hcpu0 : (0 < NCPU)%nat) by lia.
  destruct (pool_order_zero cpu Hcpu) as (cs1 & cs2 & -> & Hcs).
  apply (victim_first (binit ticks s) 0%nat cs2 (rev (map PBuf (seq 1 (NBUF - 1))))).
  - intros c Hc. destruct (Hcs c Hc) as (Hne & Hlt).
    rewrite (binit_list_of ticks s (PFree c) Hcpu0 (free_sentinel c Hlt)).
    rewrite ptr_eqb_neq; [reflexivity|]. intros E. injection E as ->.
    apply Hne. reflexivity.
  - rewrite (binit_list_of ticks s (PFree 0) Hcpu0 (free_sentinel 0%nat Hcpu0)).
    rewrite ptr_eqb_refl. unfold slots.
    replace NBUF with (S (NBUF - 1)) at 1 by lia. reflexivity.
Qed.

(** X15.  After [binit] every buffer is in the free list of the CPU 0, so
    that the first [bread], on whatever CPU (a CPU other than 0 finds its
    own free list empty and takes the buffer from the list of the CPU 0),
    recycles [bcache.buf[0]], the tail of that list.  [binit] has not
    written the reference count of that buffer: when the storage it
    started from has a count of zero there, as zeroed storage has, the
    buffer is returned with the block read from the disk; otherwise the
    first [bread] panics with "bget: freelist is not free!". *)
Theorem X15_first_fetch_after_binit
        (s : state) (ticks ticks' : Z) (cpu pid : nat) (d bn : Z) :
  (0 < NBUF)%nat -> (cpu < NCPU)%nat -> quiescent s ->
  (refcnt (mem s (PBuf 0)) = 0 ->
   exists s',
     bread ticks' cpu pid d bn (binit ticks s) = Done (PBuf 0) s' /\
     valid (mem s' (PBuf 0)) = 1 /\ data (mem s' (PBuf 0)) = disk s d bn /\
     dev (mem s' (PBuf 0)) = d /\ blockno (mem s' (PBuf 0)) = bn /\
     refcnt (mem s' (PBuf 0)) = 1 /\ lock (mem s' (PBuf 0)) = Some pid) /\
  (refcnt (mem s (PBuf 0)) <> 0 ->
   bread ticks' cpu pid d bn (binit ticks s)
   = Panic "bget: freelist is not free!"%string).
Proof.
  intros Hbuf Hcpu Hq.
  assert (Hcpu0 : (0 < NCPU)%nat) by lia.
  pose proof (binit_inv ticks s Hcpu0 Hq) as Hi.
  pose proof (binit_victim ticks s cpu Hbuf Hcpu) as Hv.
  assert (Hun : uncached (binit ticks s) d bn).
  { apply uncached_nil.
    rewrite (binit_list_of ticks s _ Hcpu0 (head_sentinel _ (bucket_lt d bn))).
    rewrite ptr_eqb_neq by discriminate. reflexivity. }
  split.
  - intros Hr.
    destruct (bread_miss_reads (binit ticks s) ticks' cpu pid d bn (PBuf 0)
                Hi Hcpu Hun Hv)
      as (s' & He & Hva & Hda & Hd & Hb & Hrc & Hl & _).
    + rewrite binit_refcnt. exact Hr.
    + apply binit_lock. apply slot_in. exact Hbuf.
    + exists s'. rewrite binit_disk in Hda. repeat split; assumption.
  - intros Hr. apply bread_of_panic.
    pose proof (bget_miss ticks' cpu pid d bn (binit ticks s)
                  (proj2 (proj2 Hi)) (proj1 Hi) Hun Hcpu) as H.
    rewrite Hv in H. rewrite binit_refcnt in H.
    apply Z.eqb_neq in Hr. rewrite Hr in H. exact H.
Qed.

(** *** Cached buffers are valid *)









(** *** The buffer after its release *)

(** X17.  A buffer is not to be used after [brelse]: once its holder has
    released it, the sleep-lock is free, and a second [brelse] or a
    [bwrite] of that buffer by the same process, with no [bread] in
    between, panics instead of touching the lists or the disk. *)
Theorem X17_use_after_release_panics (s : state) (cpu cpu' pid i : nat) :
  inv s -> (cpu < NCPU)%nat -> (i < NBUF)%nat ->
  holdingsleep pid (PBuf i) s = true ->
  exists s1,
    brelse cpu pid (PBuf i) s = Done tt s1 /\
    lock (mem s1 (PBuf i)) = None /\
    brelse cpu' pid (PBuf i) s1 = Panic "brelse"%string /\
    bwrite pid (PBuf i) s1 = Panic "bwrite"%string.
Proof.
  intros Hi Hcpu Hlt Hh.
  destruct (brelse_releases s cpu pid i Hi Hcpu Hlt Hh)
    as (s1 & He & _ & _ & Hmb & _).
  apply meta_values in Hmb. destruct Hmb as (_ & _ & _ & Hl & _).
  assert (Hn : holdingsleep pid (PBuf i) s1 = false).
  { unfold holdingsleep. rewrite Hl. reflexivity. }
  exists s1. split; [exact He|]. split; [exact Hl|].
  split; [apply brelse_panic; exact Hn|apply bwrite_panic; exact Hn].
Qed.

End Bio.

(** ** The properties at work on a small cache

    Two slots, two CPUs and three processes; the blocks (1, 0) and (1, 13)
    hash to the bucket 11, the block (1, 1) to the bucket 8. *)

Lemma two_cpus : (0 < 2)%nat.
Proof. lia. Qed.

Lemma reach_st_A (allowed : world -> op -> Prop) :
  (forall w, allowed w (OpBread 1 0%nat 0%nat 1 0)) ->
  reach 2 2 3 allowed (mkWorld (st_A 2 2) [] []).
Proof.
  intros Ha. unfold st_A.
  apply (run_bread 2 2 3 allowed (boot 2 2 0) [] [] 1 0 0 1 0
           (run_boot 2 2 3 allowed 0) (Ha _)); [lia|lia|intros []|].
  vm_compute. reflexivity.
Qed.

Lemma reach_st_AB (allowed : world -> op -> Prop) :
  (forall w, allowed w (OpBread 1 0%nat 0%nat 1 0)) ->
  (forall w, allowed w (OpBread 2 0%nat 1%nat 1 13)) ->
  reach 2 2 3 allowed (mkWorld (st_AB 2 2) [] []).
Proof.
  intros Ha Hb. unfold st_AB.
  apply (run_bread 2 2 3 allowed (st_A 2 2) [] [] 2 0 1 1 13
           (reach_st_A allowed Ha) (Hb _)); [lia|lia|intros []|].
  vm_compute. reflexivity.
Qed.

Lemma reach_st_pinned : reach 2 2 3 any_op (mkWorld (st_pinned 2 2) [] [PBuf 0]).
Proof.
  unfold st_pinned.
  apply (run_bpin 2 2 3 any_op (boot 2 2 0) [] [] 0 (run_boot 2 2 3 any_op 0) I);
    [lia|].
  vm_compute. reflexivity.
Qed.

Lemma reach_st_held (allowed : world -> op -> Prop) :
  (forall w, allowed w (OpBread 1 0%nat 0%nat 1 0)) ->
  allowed (mkWorld (st_A 2 2) [] []) (OpBpin 0) ->
  (forall w, allowed w (OpBrelse 0 0 0)) ->
  reach 2 2 3 allowed (mkWorld (st_held 2 2) [] [PBuf 0]).
Proof.
  intros Ha Hp Hr.
  assert (H1 : reach 2 2 3 allowed (mkWorld (after_bpin 0 (st_A 2 2)) [] [PBuf 0])).
  { apply (run_bpin 2 2 3 allowed (st_A 2 2) [] [] 0 (reach_st_A allowed Ha) Hp);
      [lia|].
    vm_compute. reflexivity. }
  unfold st_held.
  apply (run_brelse 2 2 3 allowed _ [] [PBuf 0] 0 0 0 H1 (Hr _));
    [lia|lia|intros []|].
  vm_compute. reflexivity.
Qed.

Lemma proper_pin_st_A : proper_use 4 (mkWorld (st_A 2 2) [] []) (OpBpin 0).
Proof.
  split; [|cbn [pins List.length]; lia].
  cbn [kst]. vm_compute. discriminate.
Qed.

Lemma reach_proper_st_held :
  reach 2 2 3 (proper_use 4) (mkWorld (st_held 2 2) [] [PBuf 0]).
Proof.
  exact (reach_st_held (proper_use 4) (fun _ => I) proper_pin_st_A (fun _ => I)).
Qed.

Lemma reach_st_kept : reach 2 2 3 any_op (mkWorld (st_kept 2 2) [] [PBuf 0]).
Proof.
  unfold st_kept.
  apply (run_bread 2 2 3 any_op _ [] [PBuf 0] 2 0 1 1 13
           (reach_st_held any_op (fun _ => I) I (fun _ => I)) I);
    [lia|lia|intros []|].
  vm_compute. reflexivity.
Qed.

Lemma inv_boot : inv 2 2 (boot 2 2 0).
Proof. exact (run_inv 2 2 3 any_op _ [] [] two_cpus (run_boot 2 2 3 any_op 0)). Qed.

Lemma inv_st_A : inv 2 2 (st_A 2 2).
Proof.
  exact (run_inv 2 2 3 any_op _ [] [] two_cpus (reach_st_A any_op (fun _ => I))).
Qed.

Lemma inv_st_AB : inv 2 2 (st_AB 2 2).
Proof.
  exact (run_inv 2 2 3 any_op _ [] [] two_cpus
           (reach_st_AB any_op (fun _ => I) (fun _ => I))).
Qed.

Lemma inv_st_kept : inv 2 2 (st_kept 2 2).
Proof. exact (run_inv 2 2 3 any_op _ [] [PBuf 0] two_cpus reach_st_kept). Qed.

Lemma cached_st_kept : cached 2 (st_kept 2 2) 1 0 (PBuf 0).
Proof.
  exists [PBuf 1], []. split; [vm_compute; reflexivity|].
  split; [vm_compute; reflexivity|]. split; [vm_compute; reflexivity|].
  intros x [<-|[]]. right. vm_compute. discriminate.
Qed.

(** C1 on the state after one [bread]. *)
Lemma C1_witness :
  (0 < 2)%nat /\
  reach 2 2 3 any_op (mkWorld (st_A 2 2) [] []) /\
  list_sum (map (fun h => List.length (list_of 2 (kst (mkWorld (st_A 2 2) [] [])) h))
                (sentinels 2)) = 2%nat.
Proof.
  split; [exact two_cpus|].
  split; [exact (reach_st_A any_op (fun _ => I))|].
  exact (proj2 (proj2 (C1_every_slot_in_exactly_one_list 2 2 3
           (mkWorld (st_A 2 2) [] []) two_cpus (reach_st_A any_op (fun _ => I))))).
Defined.

(** C2: after the process 0 has fetched a block, pinned its buffer and
    released it, the slot 1 is in the free list of the CPU 0 with a count
    of zero (the slot 0 stays in its bucket); a slot pinned while it is
    free makes the next miss panic. *)
Lemma C2_witness :
  (0 < 2)%nat /\ Z.of_nat 3 + Z.of_nat 4 + 1 < 2 ^ 32 /\
  (reach 2 2 3 (proper_use 4) (mkWorld (st_held 2 2) [] [PBuf 0]) /\
   In (PBuf 1) (list_of 2 (kst (mkWorld (st_held 2 2) [] [PBuf 0])) (PFree 0)) /\
   refcnt (mem (kst (mkWorld (st_held 2 2) [] [PBuf 0])) (PBuf 1)) = 0) /\
  (reach 2 2 3 any_op (mkWorld (st_pinned 2 2) [] [PBuf 0]) /\
   uncached 2 (kst (mkWorld (st_pinned 2 2) [] [PBuf 0])) 1 0 /\
   victim 2 (kst (mkWorld (st_pinned 2 2) [] [PBuf 0])) (pool_order 2 0)
   = Some (PBuf 0) /\
   refcnt (mem (kst (mkWorld (st_pinned 2 2) [] [PBuf 0])) (PBuf 0)) <> 0 /\
   bread 2 2 1 0 0 1 0 (kst (mkWorld (st_pinned 2 2) [] [PBuf 0]))
   = Panic "bget: freelist is not free!"%string).
Proof.
  assert (Hp : Z.of_nat 3 + Z.of_nat 4 + 1 < 2 ^ 32) by (vm_compute; reflexivity).
  assert (Hin : In (PBuf 1)
                   (list_of 2 (kst (mkWorld (st_held 2 2) [] [PBuf 0])) (PFree 0))).
  { vm_compute. left. reflexivity. }
  assert (Hun : uncached 2 (kst (mkWorld (st_pinned 2 2) [] [PBuf 0])) 1 0).
  { apply uncached_nil. vm_compute. reflexivity. }
  assert (Hv : victim 2 (kst (mkWorld (st_pinned 2 2) [] [PBuf 0])) (pool_order 2 0)
               = Some (PBuf 0)) by (vm_compute; reflexivity).
  assert (Hr : refcnt (mem (kst (mkWorld (st_pinned 2 2) [] [PBuf 0])) (PBuf 0)) <> 0)
    by (vm_compute; discriminate).
  assert (Hc : (0 < 2)%nat) by exact two_cpus.
  destruct (C2_free_slots_unreferenced 2 2 3 4 two_cpus Hp) as (H1 & H2).
  split; [exact two_cpus|]. split; [exact Hp|]. split.
  - split; [exact reach_proper_st_held|]. split; [exact Hin|].
    exact (H1 (mkWorld (st_held 2 2) [] [PBuf 0]) 0%nat (PBuf 1)
              reach_proper_st_held Hc Hin).
  - split; [exact reach_st_pinned|]. split; [exact Hun|]. split; [exact Hv|].
    split; [exact Hr|].
    exact (proj2 (H2 (mkWorld (st_pinned 2 2) [] [PBuf 0]) 1 0%nat 0%nat 1 0 (PBuf 0)
                     reach_st_pinned Hc Hun Hv Hr)).
Defined.

(** C3, as stated, fails: in [st_kept] the bucket 11 holds the slot 1 and
    then the slot 0, which caches the block (1, 0); the process 2 fetches
    (1, 0), [bget] returns the slot 0, and the slot 1 is still the head
    of the bucket. *)
Lemma C3_counterexample :
  cached 2 (st_kept 2 2) 1 0 (PBuf 0) /\
  is_done (bget 2 2 5 0 2 1 0 (st_kept 2 2)) = true /\
  val_of (bget 2 2 5 0 2 1 0 (st_kept 2 2)) PNull = PBuf 0 /\
  list_of 2 (after_bget 2 2 5 0 2 1 0 (st_kept 2 2)) (PHead (bucket 1 0))
  = [PBuf 1; PBuf 0] /\
  hd_error (list_of 2 (after_bget 2 2 5 0 2 1 0 (st_kept 2 2)) (PHead (bucket 1 0)))
  <> Some (PBuf 0).
Proof.
  split; [exact cached_st_kept|]. split; [|split; [|split]].
  - vm_compute. reflexivity.
  - vm_compute. reflexivity.
  - vm_compute. reflexivity.
  - vm_compute. discriminate.
Qed.

(** C3, amended, on the same hit. *)
Lemma C3_witness :
  inv 2 2 (st_kept 2 2) /\ cached 2 (st_kept 2 2) 1 0 (PBuf 0) /\
  exists s1,
    bget 2 2 5 0 2 1 0 (st_kept 2 2) = Done (PBuf 0) (upd (PBuf 0) (set_lock (Some 2%nat)) s1) /\
    refcnt (mem s1 (PBuf 0)) = wrap32 (refcnt (mem (st_kept 2 2) (PBuf 0)) + 1) /\
    timestamp (mem s1 (PBuf 0)) = 5 /\
    forall h, list_of 2 s1 h = list_of 2 (st_kept 2 2) h.
Proof.
  split; [exact inv_st_kept|]. split; [exact cached_st_kept|].
  destruct (C3_hit_keeps_position 2 2 (st_kept 2 2) 5 0 2 1 0 (PBuf 0)
              inv_st_kept cached_st_kept)
    as (_ & s1 & Hd & _ & Hr & Ht & _ & HL & _ & _).
  exists s1. split; [apply Hd; vm_compute; reflexivity|].
  split; [exact Hr|]. split; [exact Ht|exact HL].
Defined.

Lemma st_AB_pools_empty (c : nat) :
  (c < 2)%nat -> list_of 2 (st_AB 2 2) (PFree c) = [].
Proof.
  intros Hc. destruct c as [|[|c]]; [vm_compute; reflexivity|vm_compute; reflexivity|lia].
Qed.

Lemma st_AB_uncached : uncached 2 (st_AB 2 2) 1 1.
Proof. apply uncached_nil. vm_compute. reflexivity. Qed.

(** C4: in [st_AB] both slots are held and the free lists are empty; the
    slots 0 and 1 are released, in that order, on the CPU 1, and a miss on
    the CPU 1 then recycles the slot 0. *)
Lemma C4_witness :
  inv 2 2 (st_AB 2 2) /\ (1 < 2)%nat /\
  list_of 2 (st_AB 2 2) (PFree 1) = [] /\
  holdingsleep 0 (PBuf 0) (st_AB 2 2) = true /\
  holdingsleep 1 (PBuf 1) (st_AB 2 2) = true /\
  refcnt (mem (st_AB 2 2) (PBuf 0)) = 1 /\
  refcnt (mem (st_AB 2 2) (PBuf 1)) = 1 /\
  exists s1 s2,
    brelse 1 0 (PBuf 0) (st_AB 2 2) = Done tt s1 /\
    brelse 1 1 (PBuf 1) s1 = Done tt s2 /\
    list_of 2 s2 (PFree 1) = [PBuf 1; PBuf 0] /\
    (uncached 2 s2 1 1 ->
     exists s3,
       bget 2 2 3 1 2 1 1 s2 = Done (PBuf 0) s3 /\
       list_of 2 s3 (PFree 1) = [PBuf 1] /\
       hd_error (list_of 2 s3 (PHead (bucket 1 1))) = Some (PBuf 0)).
Proof.
  assert (Hc : (1 < 2)%nat) by lia.
  assert (H0 : (0 < 2)%nat) by lia.
  assert (Hne : 0%nat <> 1%nat) by discriminate.
  assert (Hp : list_of 2 (st_AB 2 2) (PFree 1) = []) by (vm_compute; reflexivity).
  assert (HA : holdingsleep 0 (PBuf 0) (st_AB 2 2) = true) by (vm_compute; reflexivity).
  assert (HB : holdingsleep 1 (PBuf 1) (st_AB 2 2) = true) by (vm_compute; reflexivity).
  assert (RA : refcnt (mem (st_AB 2 2) (PBuf 0)) = 1) by (vm_compute; reflexivity).
  assert (RB : refcnt (mem (st_AB 2 2) (PBuf 1)) = 1) by (vm_compute; reflexivity).
  repeat (split; [assumption || exact inv_st_AB|]).
  exact (proj2 (proj2 (C4_release_at_head_recycle_from_tail 2 2 (st_AB 2 2) 1
                         inv_st_AB Hc))
           3 0%nat 1%nat 2%nat 0%nat 1%nat 1 1 H0 Hc Hne Hp HA HB RA RB).
Defined.

(** C5: the first fetch after boot misses and recycles the slot 0. *)
Lemma C5_witness :
  inv 2 2 (boot 2 2 0) /\ (0 < 2)%nat /\ uncached 2 (boot 2 2 0) 1 0 /\
  victim 2 (boot 2 2 0) (pool_order 2 0) = Some (PBuf 0) /\
  refcnt (mem (boot 2 2 0) (PBuf 0)) = 0 /\
  lock (mem (boot 2 2 0) (PBuf 0)) = None /\
  exists s1 s2,
    bget 2 2 1 0 0 1 0 (boot 2 2 0) = Done (PBuf 0) s1 /\
    list_of 2 s1 (PHead (bucket 1 0)) = PBuf 0 :: list_of 2 (boot 2 2 0) (PHead (bucket 1 0)) /\
    valid (mem s1 (PBuf 0)) = 0 /\ refcnt (mem s1 (PBuf 0)) = 1 /\
    bread 2 2 1 0 0 1 0 (boot 2 2 0) = Done (PBuf 0) s2 /\
    valid (mem s2 (PBuf 0)) = 1.
Proof.
  assert (Hc : (0 < 2)%nat) by lia.
  assert (Hun : uncached 2 (boot 2 2 0) 1 0) by (apply uncached_nil; vm_compute; reflexivity).
  assert (Hv : victim 2 (boot 2 2 0) (pool_order 2 0) = Some (PBuf 0))
    by (vm_compute; reflexivity).
  assert (Hr : refcnt (mem (boot 2 2 0) (PBuf 0)) = 0) by (vm_compute; reflexivity).
  assert (Hl : lock (mem (boot 2 2 0) (PBuf 0)) = None) by (vm_compute; reflexivity).
  repeat (split; [assumption || exact inv_boot|]).
  destruct (C5_miss_recycles_then_reads 2 2 (boot 2 2 0) 1 0 0 1 0 (PBuf 0)
              inv_boot Hc Hun Hv Hr Hl)
    as ((s1 & Hg & HL & _ & _ & _ & Hva & Hrc & _ & s2 & Hb & Hv2 & _) & _).
  exists s1, s2. repeat (split; [assumption|]). exact Hv2.
Defined.

(** C6: in [st_A] the process 0 holds the slot 0 and the process 1 does
    not. *)
Lemma C6_witness :
  inv 2 2 (st_A 2 2) /\ (0 < 2)%nat /\
  (holdingsleep 1 (PBuf 0) (st_A 2 2) = false /\
   brelse 0 1 (PBuf 0) (st_A 2 2) = Panic "brelse"%string) /\
  (holdingsleep 0 (PBuf 0) (st_A 2 2) = true /\
   exists s',
     brelse 0 0 (PBuf 0) (st_A 2 2) = Done tt s' /\
     meta (mem s' (PBuf 0)) =
       (valid (mem (st_A 2 2) (PBuf 0)), dev (mem (st_A 2 2) (PBuf 0)),
        blockno (mem (st_A 2 2) (PBuf 0)), None,
        wrap32 (refcnt (mem (st_A 2 2) (PBuf 0)) - 1), data (mem (st_A 2 2) (PBuf 0)),
        timestamp (mem (st_A 2 2) (PBuf 0))) /\
     quiescent s').
Proof.
  assert (Hc : (0 < 2)%nat) by lia.
  assert (H1 : holdingsleep 1 (PBuf 0) (st_A 2 2) = false) by (vm_compute; reflexivity).
  assert (H0 : holdingsleep 0 (PBuf 0) (st_A 2 2) = true) by (vm_compute; reflexivity).
  split; [exact inv_st_A|]. split; [exact Hc|]. split.
  - split; [exact H1|].
    exact (proj1 (C6_release 2 2 (st_A 2 2) 0 1 0 inv_st_A Hc Hc) H1).
  - split; [exact H0|].
    destruct (proj2 (C6_release 2 2 (st_A 2 2) 0 0 0 inv_st_A Hc Hc) H0)
      as (_ & s' & He & Hm & _ & _ & _ & Hq & _).
    exists s'. split; [exact He|]. split; [exact Hm|exact Hq].
Defined.

(** C7: in [st_AB] both slots are in use and a third block cannot be
    fetched. *)
Lemma C7_witness :
  inv 2 2 (st_AB 2 2) /\ (0 < 2)%nat /\ uncached 2 (st_AB 2 2) 1 1 /\
  (forall c, (c < 2)%nat -> list_of 2 (st_AB 2 2) (PFree c) = []) /\
  bget 2 2 3 0 2 1 1 (st_AB 2 2) = Panic "bget: no buffers"%string /\
  bread 2 2 3 0 2 1 1 (st_AB 2 2) = Panic "bget: no buffers"%string.
Proof.
  assert (Hc : (0 < 2)%nat) by lia.
  split; [exact inv_st_AB|]. split; [exact Hc|]. split; [exact st_AB_uncached|].
  split; [exact st_AB_pools_empty|].
  exact (C7_no_buffers_panics 2 2 (st_AB 2 2) 3 0 2 1 1
           inv_st_AB Hc st_AB_uncached st_AB_pools_empty).
Defined.

(** C8: the process 0 commits the slot 0 in [st_A]. *)
Lemma C8_witness :
  holdingsleep 0 (PBuf 0) (st_A 2 2) = true /\
  exists s',
    bwrite 0 (PBuf 0) (st_A 2 2) = Done tt s' /\
    disk s' (dev (mem (st_A 2 2) (PBuf 0))) (blockno (mem (st_A 2 2) (PBuf 0)))
    = data (mem (st_A 2 2) (PBuf 0)) /\
    mem s' = mem (st_A 2 2).
Proof.
  assert (H0 : holdingsleep 0 (PBuf 0) (st_A 2 2) = true) by (vm_compute; reflexivity).
  split; [exact H0|].
  destruct (proj2 (C8_commit_writes_through 2 (st_A 2 2) 0 (PBuf 0)) H0)
    as (s' & He & Hd & _ & Hm & _).
  exists s'. split; [exact He|]. split; [exact Hd|exact Hm].
Defined.

(** C9: the slot 0 of [st_A] is unpinned to a count of zero and stays in
    the bucket 11. *)
Lemma C9_witness :
  inv 2 2 (st_A 2 2) /\ (0 < 2)%nat /\ (11 < HASHSIZE)%nat /\
  In (PBuf 0) (list_of 2 (st_A 2 2) (PHead 11)) /\
  wrap32 (refcnt (mem (st_A 2 2) (PBuf 0)) - 1) = 0 /\
  exists s',
    bunpin (PBuf 0) (st_A 2 2) = Done tt s' /\
    In (PBuf 0) (list_of 2 s' (PHead 11)) /\
    (forall c, (c < 2)%nat -> ~ In (PBuf 0) (list_of 2 s' (PFree c))).
Proof.
  assert (Hc : (0 < 2)%nat) by lia.
  assert (Hh : (11 < HASHSIZE)%nat) by (unfold HASHSIZE; lia).
  assert (Hin : In (PBuf 0) (list_of 2 (st_A 2 2) (PHead 11)))
    by (vm_compute; left; reflexivity).
  assert (Hz : wrap32 (refcnt (mem (st_A 2 2) (PBuf 0)) - 1) = 0)
    by (vm_compute; reflexivity).
  repeat (split; [assumption || exact inv_st_A|]).
  destruct (C9_unpin_changes_refcnt_only 2 2 (st_A 2 2) 0 11 inv_st_A Hc Hh Hin)
    as (_ & s' & He & _ & _ & Hin' & Hout & _).
  exists s'. split; [exact He|]. split; [exact Hin'|exact Hout].
Defined.

(** C10: after boot the slot 0 has a count of zero and no holder;
    [bunpin] takes the count to 4294967295. *)
Lemma C10_witness :
  quiescent (boot 2 2 0) /\
  refcnt (mem (boot 2 2 0) (PBuf 0)) = 0 /\
  lock (mem (boot 2 2 0) (PBuf 0)) = None /\
  exists s',
    bunpin (PBuf 0) (boot 2 2 0) = Done tt s' /\
    refcnt (mem s' (PBuf 0)) = 4294967295.
Proof.
  assert (Hq : quiescent (boot 2 2 0)) by exact (proj2 (proj2 inv_boot)).
  assert (Hr : refcnt (mem (boot 2 2 0) (PBuf 0)) = 0) by (vm_compute; reflexivity).
  assert (Hl : lock (mem (boot 2 2 0) (PBuf 0)) = None) by (vm_compute; reflexivity).
  split; [exact Hq|]. split; [exact Hr|]. split; [exact Hl|].
  destruct (C10_unpin_unchecked (boot 2 2 0) (PBuf 0) Hq) as (_ & s' & He & _ & _ & H0).
  exists s'. split; [exact He|exact (H0 Hr)].
Defined.

(** ** The further properties at work on the small cache *)

Lemma inv_st_held : inv 2 2 (st_held 2 2).
Proof.
  exact (run_inv 2 2 3 any_op _ [] [PBuf 0] two_cpus
           (reach_st_held any_op (fun _ => I) I (fun _ => I))).
Qed.

Lemma cached_st_A : cached 2 (st_A 2 2) 1 0 (PBuf 0).
Proof.
  exists [], []. split; [vm_compute; reflexivity|].
  split; [vm_compute; reflexivity|]. split; [vm_compute; reflexivity|].
  intros x [].
Qed.

Lemma cached_st_held : cached 2 (st_held 2 2) 1 0 (PBuf 0).
Proof.
  exists [], []. split; [vm_compute; reflexivity|].
  split; [vm_compute; reflexivity|]. split; [vm_compute; reflexivity|].
  intros x [].
Qed.

Lemma st_kept_pools_empty (c : nat) :
  (c < 2)%nat -> list_of 2 (st_kept 2 2) (PFree c) = [].
Proof.
  intros Hc. destruct c as [|[|c]]; [vm_compute; reflexivity|vm_compute; reflexivity|lia].
Qed.

Lemma st_kept_uncached : uncached 2 (st_kept 2 2) 1 1.
Proof. apply uncached_nil. vm_compute. reflexivity. Qed.

Lemma small_bound : Z.of_nat 3 + Z.of_nat 4 + 1 < 2 ^ 32.
Proof. vm_compute. reflexivity. Qed.

Lemma awake_nobody (pid : nat) (s : state) (pl : list ptr) :
  awake pid (mkWorld s [] pl).
Proof. intros []. Qed.


(** X2: [binit] on zeroed storage. *)
Lemma X2_witness :
  (0 < 2)%nat /\
  list_of 2 (binit 2 2 0 bss) (PFree 0) = rev (map PBuf (seq 0 2)) /\
  same_payload bss (binit 2 2 0 bss).
Proof.
  split; [exact two_cpus|].
  destruct (X2_binit_links_all_buffers_free 2 2 0 bss two_cpus)
    as (HL & _ & _ & _ & _ & Hp & _).
  split; [exact HL|exact Hp].
Defined.

(** X3: no spin-lock is held in [st_kept]. *)
Lemma X3_witness :
  (0 < 2)%nat /\
  reach 2 2 3 any_op (mkWorld (st_kept 2 2) [] [PBuf 0]) /\
  locked (kst (mkWorld (st_kept 2 2) [] [PBuf 0])) (HeadLk 11) = false.
Proof.
  split; [exact two_cpus|]. split; [exact reach_st_kept|].
  exact (X3_no_spinlock_left_held 2 2 3 (mkWorld (st_kept 2 2) [] [PBuf 0])
           (HeadLk 11) two_cpus reach_st_kept).
Defined.

(** X4: the slot 0 of [st_A] is in the bucket 11 and hashes to it. *)
Lemma X4_witness :
  (0 < 2)%nat /\
  reach 2 2 3 any_op (mkWorld (st_A 2 2) [] []) /\
  (11 < HASHSIZE)%nat /\
  In (PBuf 0) (list_of 2 (kst (mkWorld (st_A 2 2) [] [])) (PHead 11)) /\
  hash (dev (mem (kst (mkWorld (st_A 2 2) [] [])) (PBuf 0)))
       (blockno (mem (kst (mkWorld (st_A 2 2) [] [])) (PBuf 0))) = Z.of_nat 11.
Proof.
  assert (Hh : (11 < HASHSIZE)%nat) by (unfold HASHSIZE; lia).
  assert (Hin : In (PBuf 0) (list_of 2 (kst (mkWorld (st_A 2 2) [] [])) (PHead 11)))
    by (vm_compute; left; reflexivity).
  split; [exact two_cpus|]. split; [exact (reach_st_A any_op (fun _ => I))|].
  split; [exact Hh|]. split; [exact Hin|].
  exact (X4_bucket_matches_hash 2 2 3 (mkWorld (st_A 2 2) [] []) 11 (PBuf 0)
           two_cpus (reach_st_A any_op (fun _ => I)) Hh Hin).
Defined.

(** X5: in [st_kept] the bucket 11 holds the slots 1 and 0, with the
    blocks (1, 13) and (1, 0). *)
Lemma X5_witness :
  (0 < 2)%nat /\
  reach 2 2 3 any_op (mkWorld (st_kept 2 2) [] [PBuf 0]) /\
  (11 < HASHSIZE)%nat /\
  In (PBuf 0) (list_of 2 (kst (mkWorld (st_kept 2 2) [] [PBuf 0])) (PHead 11)) /\
  PBuf 0 = PBuf 0.
Proof.
  assert (Hh : (11 < HASHSIZE)%nat) by (unfold HASHSIZE; lia).
  assert (Hin : In (PBuf 0) (list_of 2 (kst (mkWorld (st_kept 2 2) [] [PBuf 0])) (PHead 11)))
    by (vm_compute; right; left; reflexivity).
  split; [exact two_cpus|]. split; [exact reach_st_kept|].
  split; [exact Hh|]. split; [exact Hin|].
  exact (X5_no_block_cached_twice 2 2 3 (mkWorld (st_kept 2 2) [] [PBuf 0])
           11 11 (PBuf 0) (PBuf 0) two_cpus reach_st_kept Hh Hh Hin Hin
           eq_refl eq_refl).
Defined.

(** X6: in [st_A] the process 0 releases the slot 0 on the CPU 0; the
    process 1 then fetches the same block on the CPU 1. *)
Lemma X6_witness :
  (0 < 2)%nat /\ Z.of_nat 3 + Z.of_nat 4 + 1 < 2 ^ 32 /\
  reach 2 2 3 (proper_use 4) (mkWorld (st_A 2 2) [] []) /\
  awake 0 (mkWorld (st_A 2 2) [] []) /\
  holdingsleep 0 (PBuf 0) (kst (mkWorld (st_A 2 2) [] [])) = true /\
  refcnt (mem (kst (mkWorld (st_A 2 2) [] [])) (PBuf 0)) = 1 /\
  (1 < 2)%nat /\
  exists s1 a s2,
    brelse 0 0 (PBuf 0) (kst (mkWorld (st_A 2 2) [] [])) = Done tt s1 /\
    bread 2 2 5 1 1 (dev (mem (kst (mkWorld (st_A 2 2) [] [])) (PBuf 0)))
          (blockno (mem (kst (mkWorld (st_A 2 2) [] [])) (PBuf 0))) s1 = Done a s2 /\
    valid (mem s2 a) = 1.
Proof.
  assert (Hr : reach 2 2 3 (proper_use 4) (mkWorld (st_A 2 2) [] []))
    by exact (reach_st_A (proper_use 4) (fun _ => I)).
  assert (Haw : awake 0 (mkWorld (st_A 2 2) [] [])) by apply awake_nobody.
  assert (Hh : holdingsleep 0 (PBuf 0) (kst (mkWorld (st_A 2 2) [] [])) = true)
    by (vm_compute; reflexivity).
  assert (Hrc : refcnt (mem (kst (mkWorld (st_A 2 2) [] [])) (PBuf 0)) = 1)
    by (vm_compute; reflexivity).
  assert (H1 : (1 < 2)%nat) by lia.
  split; [exact two_cpus|]. split; [exact small_bound|]. split; [exact Hr|].
  split; [exact Haw|]. split; [exact Hh|]. split; [exact Hrc|]. split; [exact H1|].
  destruct (X6_released_block_is_read_again 2 2 3 4 (mkWorld (st_A 2 2) [] [])
              0 0 0 5 1 1 two_cpus small_bound Hr two_cpus two_cpus Haw Hh Hrc H1)
    as (s1 & a & s2 & He & _ & _ & Hb & Hv & _).
  exists s1, a, s2. split; [exact He|]. split; [exact Hb|exact Hv].
Defined.

(** X7: the same run, with a [bwrite] before the release. *)
Lemma X7_witness :
  (0 < 2)%nat /\ Z.of_nat 3 + Z.of_nat 4 + 1 < 2 ^ 32 /\
  reach 2 2 3 (proper_use 4) (mkWorld (st_A 2 2) [] []) /\
  awake 0 (mkWorld (st_A 2 2) [] []) /\
  holdingsleep 0 (PBuf 0) (kst (mkWorld (st_A 2 2) [] [])) = true /\
  refcnt (mem (kst (mkWorld (st_A 2 2) [] [])) (PBuf 0)) = 1 /\
  (1 < 2)%nat /\
  exists s0 s1 a s2,
    bwrite 0 (PBuf 0) (kst (mkWorld (st_A 2 2) [] [])) = Done tt s0 /\
    brelse 0 0 (PBuf 0) s0 = Done tt s1 /\
    bread 2 2 5 1 1 (dev (mem (kst (mkWorld (st_A 2 2) [] [])) (PBuf 0)))
          (blockno (mem (kst (mkWorld (st_A 2 2) [] [])) (PBuf 0))) s1 = Done a s2 /\
    data (mem s2 a) = data (mem (kst (mkWorld (st_A 2 2) [] [])) (PBuf 0)).
Proof.
  assert (Hr : reach 2 2 3 (proper_use 4) (mkWorld (st_A 2 2) [] []))
    by exact (reach_st_A (proper_use 4) (fun _ => I)).
  assert (Haw : awake 0 (mkWorld (st_A 2 2) [] [])) by apply awake_nobody.
  assert (Hh : holdingsleep 0 (PBuf 0) (kst (mkWorld (st_A 2 2) [] [])) = true)
    by (vm_compute; reflexivity).
  assert (Hrc : refcnt (mem (kst (mkWorld (st_A 2 2) [] [])) (PBuf 0)) = 1)
    by (vm_compute; reflexivity).
  assert (H1 : (1 < 2)%nat) by lia.
  split; [exact two_cpus|]. split; [exact small_bound|]. split; [exact Hr|].
  split; [exact Haw|]. split; [exact Hh|]. split; [exact Hrc|]. split; [exact H1|].
  destruct (X7_write_release_read_round_trip 2 2 3 4 (mkWorld (st_A 2 2) [] [])
              0 0 0 5 1 1 two_cpus small_bound Hr two_cpus two_cpus Haw Hh Hrc H1)
    as (s0 & s1 & a & s2 & Hw & He & Hb & _ & Hd).
  exists s0, s1, a, s2. split; [exact Hw|]. split; [exact He|].
  split; [exact Hb|exact Hd].
Defined.

(** X8: a pin and an unpin of the slot 0 after boot. *)
Lemma X8_witness :
  quiescent (boot 2 2 0) /\
  0 <= refcnt (mem (boot 2 2 0) (PBuf 0)) < 2 ^ 32 /\
  exists s1 s2,
    bpin (PBuf 0) (boot 2 2 0) = Done tt s1 /\
    bunpin (PBuf 0) s1 = Done tt s2 /\
    (forall q, mem s2 q = mem (boot 2 2 0) q).
Proof.
  assert (Hq : quiescent (boot 2 2 0)) by exact (proj2 (proj2 inv_boot)).
  assert (Hr : 0 <= refcnt (mem (boot 2 2 0) (PBuf 0)) < 2 ^ 32)
    by (vm_compute; split; [discriminate|reflexivity]).
  split; [exact Hq|]. split; [exact Hr|].
  destruct (X8_pin_then_unpin_restores 2 (boot 2 2 0) (PBuf 0) Hq Hr)
    as (_ & s1 & s2 & H1 & _ & _ & H2 & Hm & _).
  exists s1, s2. split; [exact H1|]. split; [exact H2|exact Hm].
Defined.

(** X9: in [st_kept] the slot 0 is held by its pin only and both free
    lists are empty. *)
Lemma X9_witness :
  inv 2 2 (st_kept 2 2) /\ (0 < 2)%nat /\ (11 < HASHSIZE)%nat /\
  In (PBuf 0) (list_of 2 (st_kept 2 2) (PHead 11)) /\
  refcnt (mem (st_kept 2 2) (PBuf 0)) = 1 /\
  (forall c, (c < 2)%nat -> list_of 2 (st_kept 2 2) (PFree c) = []) /\
  uncached 2 (st_kept 2 2) 1 1 /\
  exists s',
    bunpin (PBuf 0) (st_kept 2 2) = Done tt s' /\
    refcnt (mem s' (PBuf 0)) = 0 /\
    bread 2 2 5 0 2 1 1 s' = Panic "bget: no buffers"%string.
Proof.
  assert (Hh : (11 < HASHSIZE)%nat) by (unfold HASHSIZE; lia).
  assert (Hin : In (PBuf 0) (list_of 2 (st_kept 2 2) (PHead 11)))
    by (vm_compute; right; left; reflexivity).
  assert (Hrc : refcnt (mem (st_kept 2 2) (PBuf 0)) = 1) by (vm_compute; reflexivity).
  split; [exact inv_st_kept|]. split; [exact two_cpus|]. split; [exact Hh|].
  split; [exact Hin|]. split; [exact Hrc|]. split; [exact st_kept_pools_empty|].
  split; [exact st_kept_uncached|].
  destruct (X9_unpin_to_zero_frees_nothing 2 2 (st_kept 2 2) 0 11 5 0 2 1 1
              inv_st_kept two_cpus Hh two_cpus Hin Hrc st_kept_pools_empty
              st_kept_uncached)
    as (s' & He & Hz & _ & _ & Hp).
  exists s'. split; [exact He|]. split; [exact Hz|exact Hp].
Defined.

(** X10: in [st_held] the slot 0 is cached, valid and not held. *)
Lemma X10_witness :
  inv 2 2 (st_held 2 2) /\ cached 2 (st_held 2 2) 1 0 (PBuf 0) /\
  lock (mem (st_held 2 2) (PBuf 0)) = None /\
  exists s',
    bread 2 2 5 1 1 1 0 (st_held 2 2) = Done (PBuf 0) s' /\
    lock (mem s' (PBuf 0)) = Some 1%nat /\
    (valid (mem (st_held 2 2) (PBuf 0)) <> 0 ->
     data (mem s' (PBuf 0)) = data (mem (st_held 2 2) (PBuf 0))).
Proof.
  assert (Hl : lock (mem (st_held 2 2) (PBuf 0)) = None) by (vm_compute; reflexivity).
  split; [exact inv_st_held|]. split; [exact cached_st_held|]. split; [exact Hl|].
  destruct (X10_hit_returns_cached_content 2 2 (st_held 2 2) 5 1 1 1 0 (PBuf 0)
              inv_st_held cached_st_held Hl)
    as (s' & He & Hlk & _ & Hd & _).
  exists s'. split; [exact He|]. split; [exact Hlk|exact Hd].
Defined.

(** X11: a [bread] in [st_A], where the process 0 holds the slot 0. *)
Lemma X11_witness :
  inv 2 2 (st_A 2 2) /\ (1 < 2)%nat /\
  (forall c s', bread 2 2 5 1 1 1 0 (st_A 2 2) = Sleeps c s' ->
     lock (mem (st_A 2 2) c) <> None).
Proof.
  assert (H1 : (1 < 2)%nat) by lia.
  split; [exact inv_st_A|]. split; [exact H1|].
  destruct (X11_bread_respects_sleeplocks 2 2 (st_A 2 2) 5 1 1 1 0 inv_st_A H1)
    as (_ & Hs).
  intros c s' H. exact (proj1 (Hs c s' H)).
Defined.

(** X12: a [bread] in [st_A]. *)
Lemma X12_witness :
  (0 < 2)%nat /\ Z.of_nat 3 + Z.of_nat 4 + 1 < 2 ^ 32 /\
  reach 2 2 3 (proper_use 4) (mkWorld (st_A 2 2) [] []) /\ (1 < 2)%nat /\
  ((exists b s', bread 2 2 5 1 1 1 0 (kst (mkWorld (st_A 2 2) [] [])) = Done b s') \/
   (exists b s', bread 2 2 5 1 1 1 0 (kst (mkWorld (st_A 2 2) [] [])) = Sleeps b s' /\
                 cached 2 (kst (mkWorld (st_A 2 2) [] [])) 1 0 b /\
                 lock (mem (kst (mkWorld (st_A 2 2) [] [])) b) <> None) \/
   (bread 2 2 5 1 1 1 0 (kst (mkWorld (st_A 2 2) [] []))
    = Panic "bget: no buffers"%string /\
    uncached 2 (kst (mkWorld (st_A 2 2) [] [])) 1 0 /\
    forall c, (c < 2)%nat -> list_of 2 (kst (mkWorld (st_A 2 2) [] [])) (PFree c) = [])).
Proof.
  assert (Hr : reach 2 2 3 (proper_use 4) (mkWorld (st_A 2 2) [] []))
    by exact (reach_st_A (proper_use 4) (fun _ => I)).
  assert (H1 : (1 < 2)%nat) by lia.
  split; [exact two_cpus|]. split; [exact small_bound|]. split; [exact Hr|].
  split; [exact H1|].
  exact (X12_bread_outcomes_under_proper_use 2 2 3 4 (mkWorld (st_A 2 2) [] [])
           5 1 1 1 0 two_cpus small_bound Hr H1).
Defined.

(** X13: the count of the slot 0 in [st_held], where it has a pin. *)
Lemma X13_witness :
  (0 < 2)%nat /\ Z.of_nat 3 + Z.of_nat 4 + 1 < 2 ^ 32 /\
  reach 2 2 3 (proper_use 4) (mkWorld (st_held 2 2) [] [PBuf 0]) /\ (0 < 2)%nat /\
  refcnt (mem (kst (mkWorld (st_held 2 2) [] [PBuf 0])) (PBuf 0)) =
    Z.of_nat (waiting (PBuf 0) (sleepers (mkWorld (st_held 2 2) [] [PBuf 0]))) +
    lockbit (mem (kst (mkWorld (st_held 2 2) [] [PBuf 0])) (PBuf 0)) +
    Z.of_nat (pinned (PBuf 0) (pins (mkWorld (st_held 2 2) [] [PBuf 0]))).
Proof.
  split; [exact two_cpus|]. split; [exact small_bound|].
  split; [exact reach_proper_st_held|]. split; [exact two_cpus|].
  exact (proj1 (X13_reference_counts_add_up 2 2 3 4
                  (mkWorld (st_held 2 2) [] [PBuf 0]) 0
                  two_cpus small_bound reach_proper_st_held two_cpus)).
Defined.

(** X14: in [st_A] the process 1 asks for the block that the process 0
    holds. *)
Lemma X14_witness :
  inv 2 2 (st_A 2 2) /\ (0 < 2)%nat /\
  cached 2 (st_A 2 2) 1 0 (PBuf 0) /\
  lock (mem (st_A 2 2) (PBuf 0)) = Some 0%nat /\
  0 < refcnt (mem (st_A 2 2) (PBuf 0)) < 2 ^ 32 - 1 /\
  exists s1 s2 s3,
    bread 2 2 5 1 1 1 0 (st_A 2 2) = Sleeps (PBuf 0) s1 /\
    brelse 0 0 (PBuf 0) s1 = Done tt s2 /\
    bread_resume 1 (PBuf 0) s2 = Done (PBuf 0) s3 /\
    lock (mem s3 (PBuf 0)) = Some 1%nat.
Proof.
  assert (Hl : lock (mem (st_A 2 2) (PBuf 0)) = Some 0%nat) by (vm_compute; reflexivity).
  assert (Hr : 0 < refcnt (mem (st_A 2 2) (PBuf 0)) < 2 ^ 32 - 1)
    by (vm_compute; split; reflexivity).
  split; [exact inv_st_A|]. split; [exact two_cpus|]. split; [exact cached_st_A|].
  split; [exact Hl|]. split; [exact Hr|].
  destruct (X14_waiter_gets_the_released_buffer 2 2 (st_A 2 2) 5 1 1 1 0 0 0 0
              inv_st_A two_cpus two_cpus cached_st_A Hl Hr)
    as (s1 & s2 & s3 & Hs & _ & He & _ & _ & _ & Hb & Hlk & _).
  exists s1, s2, s3. split; [exact Hs|]. split; [exact He|].
  split; [exact Hb|exact Hlk].
Defined.

(** X15: the first fetch after boot, on the CPU 1, takes the slot 0 from
    the free list of the CPU 0. *)
Lemma X15_witness :
  (0 < 2)%nat /\ (1 < 2)%nat /\ quiescent bss /\
  refcnt (mem bss (PBuf 0)) = 0 /\
  exists s',
    bread 2 2 1 1 0 1 0 (binit 2 2 0 bss) = Done (PBuf 0) s' /\
    data (mem s' (PBuf 0)) = disk bss 1 0.
Proof.
  assert (H1 : (1 < 2)%nat) by lia.
  split; [exact two_cpus|]. split; [exact H1|]. split; [exact bss_quiescent|].
  split; [reflexivity|].
  destruct (proj1 (X15_first_fetch_after_binit 2 2 bss 0 1 1 0 1 0
                     two_cpus H1 bss_quiescent) eq_refl)
    as (s' & He & _ & Hd & _).
  exists s'. split; [exact He|exact Hd].
Defined.


(** X17: in [st_A] the process 0 releases the slot 0 twice. *)
Lemma X17_witness :
  inv 2 2 (st_A 2 2) /\ (0 < 2)%nat /\
  holdingsleep 0 (PBuf 0) (st_A 2 2) = true /\
  exists s1,
    brelse 0 0 (PBuf 0) (st_A 2 2) = Done tt s1 /\
    brelse 1 0 (PBuf 0) s1 = Panic "brelse"%string /\
    bwrite 0 (PBuf 0) s1 = Panic "bwrite"%string.
Proof.
  assert (H0 : holdingsleep 0 (PBuf 0) (st_A 2 2) = true) by (vm_compute; reflexivity).
  split; [exact inv_st_A|]. split; [exact two_cpus|]. split; [exact H0|].
  destruct (X17_use_after_release_panics 2 2 (st_A 2 2) 0 1 0 0
              inv_st_A two_cpus two_cpus H0)
    as (s1 & He & _ & Hb & Hw).
  exists s1. split; [exact He|]. split; [exact Hb|exact Hw].
Defined.
